(** * One Billion Row Challenge (Python): the streaming aggregation engine

    A shallow embedding of [src/using_python.py]: the class
    [TemperatureProcessor] with its methods [__init__], [processar],
    [_parse_row], [_atualizar_estatisticas] and [_gerar_resultados], together
    with the parts of the Python runtime the methods call: [float()] on a
    string, [str.strip], [min] and [max] on floats, float addition and
    division, the [.1f] format, [defaultdict], [Counter], [sorted] and
    [csv.reader] with [delimiter=';'].

    Python floats are IEEE 754 binary64 numbers; they are modelled by
    [spec_float] with precision 53 and maximal exponent 1024, whose operations
    round to nearest, ties to even.  Python strings are modelled by [string],
    one character per code point; the model covers the code points below 256.
    Python dictionaries keep their insertion order; they are modelled by
    association lists with pairwise different keys. *)

From Stdlib Require Import ZArith NArith List String Ascii Bool Lia.
From Stdlib Require Import Permutation Sorted.
From Stdlib Require Import Floats.SpecFloat.
Import ListNotations.

Local Open Scope Z_scope.

(** ** Exceptions and results *)

(** The exception classes the program can meet.  [csv_Error] is the [Error]
    class of the [csv] module; [OSError] stands for every failure of [open]
    other than a missing file. *)
Inductive exn : Type :=
| TypeError
| FileNotFoundError
| OSError
| IndexError
| ValueError
| OverflowError
| ZeroDivisionError
| csv_Error.

(** A computation either returns a value or raises. *)
Inductive result (A : Type) : Type :=
| Ok (a : A)
| Raise (e : exn).

Arguments Ok {A} a.
Arguments Raise {A} e.

Definition bind {A B : Type} (r : result A) (k : A -> result B) : result B :=
  match r with
  | Ok a => k a
  | Raise e => Raise e
  end.

Notation "x <- c ;; k" := (bind c (fun x => k))
  (at level 61, c at next level, right associativity).

(** ** Floats *)

Module PyFloat.

Definition prec : Z := 53.
Definition emax : Z := 1024.

Definition float : Type := spec_float.

Definition inf : float := S754_infinity false.
Definition neg_inf : float := S754_infinity true.
Definition nan : float := S754_nan.
(** [float()] with no argument, the default factory of [somas]. *)
Definition zero : float := S754_zero false.
Definition neg_zero : float := S754_zero true.

Definition add (x y : float) : float := SFadd prec emax x y.
Definition div (x y : float) : float := SFdiv prec emax x y.
(** [x < y] and [x > y] on floats: false as soon as one side is a NaN. *)
Definition lt (x y : float) : bool := SFltb x y.
Definition gt (x y : float) : bool := SFltb y x.
(** [x == y] on floats. *)
Definition eqb (x y : float) : bool := SFeqb x y.

Definition is_nan (x : float) : bool :=
  match x with S754_nan => true | _ => false end.

Definition is_finite (x : float) : bool :=
  match x with S754_zero _ | S754_finite _ _ _ => true | _ => false end.

(** [min(a, b)] keeps its first argument unless the second is smaller, and
    [max(a, b)] keeps its first argument unless the second is greater. *)
Definition min (a b : float) : float := if lt b a then b else a.
Definition max (a b : float) : float := if gt b a then b else a.

(** The conversion of an [int] to a [float] when it meets a float in an
    arithmetic operation: correctly rounded, [OverflowError] when the integer
    is too large. *)
Definition of_int (n : Z) : result float :=
  match binary_normalize prec emax n 0 false with
  | S754_infinity _ => Raise OverflowError
  | x => Ok x
  end.

(** [a / n] for a float [a] and an int [n]. *)
Definition truediv_int (a : float) (n : Z) : result float :=
  b <- of_int n ;;
  match b with
  | S754_zero _ => Raise ZeroDivisionError
  | _ => Ok (div a b)
  end.

(** [sign * m * 10^e] as the nearest float, ties to even; [m] is not
    negative.  A value too large becomes an infinity and one too small a zero. *)
Definition of_decimal (sign : bool) (m e : Z) : float :=
  match m with
  | Zpos p =>
      if 0 <=? e
      then binary_normalize prec emax ((if sign then Z.opp else id) (m * 10 ^ e)) 0 false
      else
        let '(q, e', l) := SFdiv_core_binary prec emax m 0 (10 ^ (- e)) 0 in
        binary_round_aux prec emax sign q e' l
  | _ => S754_zero sign
  end.

End PyFloat.

(** ** Characters and strings *)

Module PyStr.

Definition code (c : ascii) : N := N_of_ascii c.

Definition NUL : ascii := ascii_of_N 0.
Definition LF : ascii := ascii_of_N 10.
Definition CR : ascii := ascii_of_N 13.
(** The double quote, [csv]'s default quote character. *)
Definition DQUOTE : ascii := ascii_of_N 34.

Definition between (lo hi : N) (c : ascii) : bool :=
  ((lo <=? code c) && (code c <=? hi))%N.

(** [str.isspace] on one character (Py_UNICODE_ISSPACE), below code point
    256: tab to carriage return, the four separators 28 to 31, space, NEL
    and the no-break space. *)
Definition isspace (c : ascii) : bool :=
  between 9 13 c || between 28 32 c || (code c =? 133)%N || (code c =? 160)%N.

(** C's [isspace] in the C locale (Py_ISSPACE), used by [float()]. *)
Definition c_isspace (c : ascii) : bool :=
  between 9 13 c || (code c =? 32)%N.

Definition isdigit (c : ascii) : bool := between 48 57 c.

(** ASCII lower case (Py_TOLOWER). *)
Definition tolower (c : ascii) : ascii :=
  if between 65 90 c then ascii_of_N (code c + 32) else c.

Fixpoint lstrip_with (p : ascii -> bool) (s : string) : string :=
  match s with
  | String c r => if p c then lstrip_with p r else s
  | EmptyString => EmptyString
  end.

Fixpoint rstrip_with (p : ascii -> bool) (s : string) : string :=
  match s with
  | String c r =>
      match rstrip_with p r with
      | EmptyString => if p c then EmptyString else String c EmptyString
      | r' => String c r'
      end
  | EmptyString => EmptyString
  end.

(** [s.strip()]. *)
Definition strip (s : string) : string :=
  rstrip_with isspace (lstrip_with isspace s).

Fixpoint all_chars (p : ascii -> bool) (s : string) : bool :=
  match s with
  | String c r => p c && all_chars p r
  | EmptyString => true
  end.

Fixpoint contains (c : ascii) (s : string) : bool :=
  match s with
  | String c' r => (c' =? c)%char || contains c r
  | EmptyString => false
  end.

(** [x < y] on strings: lexicographic on code points. *)
Definition lt (x y : string) : bool := String.ltb x y.

End PyStr.

(** ** [float(s)] for a string [s]

    The conversion follows CPython: the string is first brought to ASCII
    (a space for each non-ASCII blank), underscores between digits are
    dropped, blanks around the text are skipped, and what is left has to be,
    as a whole, a decimal number or one of [inf], [infinity] and [nan]. *)

Module FloatFromString.

Import PyStr.

(** The number a string of digits denotes. *)
Fixpoint digits_value (acc : Z) (s : string) : Z :=
  match s with
  | String c r => digits_value (10 * acc + (Z.of_N (code c) - 48)) r
  | EmptyString => acc
  end.

Definition strlen (s : string) : Z := Z.of_nat (String.length s).

(** The longest prefix of [s] whose characters satisfy [p], and the rest. *)
Fixpoint take_while (p : ascii -> bool) (s : string) : string :=
  match s with
  | String c r => if p c then String c (take_while p r) else EmptyString
  | EmptyString => EmptyString
  end.

Definition drop_while (p : ascii -> bool) (s : string) : string :=
  lstrip_with p s.

Definition is_zero_digit (c : ascii) : bool := (c =? "0")%char.
Definition is_sign (c : ascii) : bool := (c =? "+")%char || (c =? "-")%char.
Definition is_exp_mark (c : ascii) : bool := (c =? "e")%char || (c =? "E")%char.

(** An optional sign: whether it is a minus, and the rest. *)
Definition scan_sign (s : string) : bool * string :=
  match s with
  | String c r =>
      if (c =? "-")%char then (true, r)
      else if (c =? "+")%char then (false, r)
      else (false, s)
  | EmptyString => (false, s)
  end.

Definition MAX_DIGITS : Z := 1000000000.
Definition MAX_ABS_EXP : Z := 1100000000.

(** The exponent part: [e] or [E], an optional sign and at least one digit.
    Without a digit nothing is consumed.  An exponent of ten digits or more
    (leading zeros apart) counts as [MAX_ABS_EXP]. *)
Definition scan_exponent (s : string) : Z * string :=
  match s with
  | String c r =>
      if is_exp_mark c then
        let (esign, r1) := scan_sign r in
        let ds := take_while isdigit r1 in
        match ds with
        | EmptyString => (0, s)
        | _ =>
            let v := digits_value 0 ds in
            let e := if 1000000000 <=? v then MAX_ABS_EXP else v in
            (if esign then - e else e, drop_while isdigit r1)
        end
      else (0, s)
  | EmptyString => (0, s)
  end.

(** The decimal number at the start of a string (_Py_dg_strtod): its value
    and the text after it, or [None] when no number starts there. *)
Definition _Py_dg_strtod (s00 : string) : option (PyFloat.float * string) :=
  let (sign, s) := scan_sign s00 in
  let ipart := take_while isdigit s in
  let s1 := drop_while isdigit s in
  let '(fpart, s2) :=
    match s1 with
    | String c r =>
        if (c =? ".")%char
        then (take_while isdigit r, drop_while isdigit r)
        else (EmptyString, s1)
    | EmptyString => (EmptyString, s1)
    end in
  let digits := (ipart ++ fpart)%string in
  match digits with
  | EmptyString => None
  | _ =>
      let ndigits := strlen (drop_while is_zero_digit digits) in
      let fraclen := strlen fpart in
      if (MAX_DIGITS <? ndigits) || (MAX_DIGITS <? fraclen) then None
      else
        let (e, s3) := scan_exponent s2 in
        Some (PyFloat.of_decimal sign (digits_value 0 digits) (e - fraclen), s3)
  end.

(** [t] is lower case; the text after [t] when [s] starts with [t] in any
    letter case. *)
Fixpoint case_insensitive_match (s t : string) {struct t} : option string :=
  match t with
  | EmptyString => Some s
  | String ct t' =>
      match s with
      | String cs s' =>
          if (tolower cs =? ct)%char then case_insensitive_match s' t' else None
      | EmptyString => None
      end
  end.

Definition _Py_parse_inf_or_nan (p : string) : option (PyFloat.float * string) :=
  let (negate, s) := scan_sign p in
  match case_insensitive_match s "inf" with
  | Some s1 =>
      let s2 := match case_insensitive_match s1 "inity" with
                | Some s2 => s2
                | None => s1
                end in
      Some (if negate then PyFloat.neg_inf else PyFloat.inf, s2)
  | None =>
      match case_insensitive_match s "nan" with
      | Some s1 => Some (PyFloat.nan, s1)
      | None => None
      end
  end.

Definition _PyOS_ascii_strtod (s : string) : option (PyFloat.float * string) :=
  match _Py_dg_strtod s with
  | Some r => Some r
  | None => _Py_parse_inf_or_nan s
  end.

(** Blanks around the text are skipped; the number has to end where the
    text ends. *)
Definition float_from_string_inner (s : string) : option PyFloat.float :=
  match lstrip_with c_isspace s with
  | EmptyString => None
  | String c r =>
      match _PyOS_ascii_strtod (String c (rstrip_with c_isspace r)) with
      | Some (x, EmptyString) => Some x
      | _ => None
      end
  end.

(** Underscores are dropped; one is allowed only between two digits
    ([prev] is the character before [s]). *)
Fixpoint drop_underscores (prev : ascii) (s : string) : option string :=
  match s with
  | EmptyString => if (prev =? "_")%char then None else Some EmptyString
  | String c r =>
      if (c =? "_")%char then
        if isdigit prev then drop_underscores c r else None
      else if (prev =? "_")%char && negb (isdigit c) then None
      else option_map (String c) (drop_underscores c r)
  end.

Definition _Py_string_to_number_with_underscores (s : string) : option PyFloat.float :=
  if contains "_" s then
    match drop_underscores NUL s with
    | Some dup => float_from_string_inner dup
    | None => None
    end
  else float_from_string_inner s.

(** A string with a code point from 127 on is rewritten: a blank becomes a
    space, and the text is cut at the first character that is neither a
    blank nor a decimal digit, a question mark taking its place (below 256 no
    such code point is a decimal digit). *)
Fixpoint transform_chars (s : string) : string :=
  match s with
  | String c r =>
      if (code c <? 127)%N then String c (transform_chars r)
      else if isspace c then String " " (transform_chars r)
      else String "?" EmptyString
  | EmptyString => EmptyString
  end.

Definition isascii (c : ascii) : bool := (code c <? 128)%N.

Definition _PyUnicode_TransformDecimalAndSpaceToASCII (s : string) : string :=
  if all_chars isascii s then s else transform_chars s.

(** [float(s)]: the float, or [ValueError]. *)
Definition float_of_str (s : string) : result PyFloat.float :=
  match _Py_string_to_number_with_underscores
          (_PyUnicode_TransformDecimalAndSpaceToASCII s) with
  | Some x => Ok x
  | None => Raise ValueError
  end.

End FloatFromString.

(** ** The format [.1f] *)

Module PyFormat.

Definition digit_char (d : Z) : ascii := ascii_of_N (48 + Z.to_N d).

Fixpoint decimal_digits (fuel : nat) (n : Z) (acc : string) : string :=
  match fuel with
  | O => acc
  | S fuel' =>
      let acc' := String (digit_char (n mod 10)) acc in
      if n <? 10 then acc' else decimal_digits fuel' (n / 10) acc'
  end.

(** The decimal digits of an integer that is not negative. *)
Definition str_of_nonneg (n : Z) : string :=
  decimal_digits (S (Z.to_nat (Z.log2 n))) n EmptyString.

(** [n / d] rounded to the nearest integer, ties to even. *)
Definition round_half_even (n d : Z) : Z :=
  let q := n / d in
  match (2 * (n mod d) ?= d) with
  | Lt => q
  | Gt => q + 1
  | Eq => if Z.even q then q else q + 1
  end.

(** [m * 2^e] in tenths, rounded to the nearest integer, ties to even. *)
Definition tenths (m : positive) (e : Z) : Z :=
  if 0 <=? e then Zpos m * 2 ^ e * 10
  else round_half_even (Zpos m * 10) (2 ^ (- e)).

Definition sign_str (s : bool) : string := if s then "-"%string else EmptyString.

(** [f"{x:.1f}"]: the correctly rounded decimal expansion of [x] with one
    digit after the point; an infinity or a NaN has no digits. *)
Definition format_1f (x : PyFloat.float) : string :=
  match x with
  | S754_nan => "nan"
  | S754_infinity s => sign_str s ++ "inf"
  | S754_zero s => sign_str s ++ "0.0"
  | S754_finite s m e =>
      let q := tenths m e in
      sign_str s ++ str_of_nonneg (q / 10) ++ "." ++ String (digit_char (q mod 10)) EmptyString
  end%string.

End PyFormat.

(** ** Reading the file: lines and [csv.reader]

    The file is opened in text mode with universal newlines, and iterated
    line by line.  [csv.reader(file, delimiter=';')] uses the [excel] dialect
    for the rest: the quote character is the double quote, a doubled quote
    inside a quoted field stands for one, there is no escape character, no
    initial space is skipped, and the reader is not strict.  The model follows
    the reader's state machine (CPython 3.11 and later); its three states for
    an escape character are left out, no character entering them. *)

Module Csv.

Import PyStr.

(** Universal newlines: CR LF and a lone CR become LF. *)
Fixpoint universal_newlines (s : string) : string :=
  match s with
  | String c r =>
      if (c =? CR)%char then
        String LF
          match r with
          | String c' r' => if (c' =? LF)%char then universal_newlines r' else universal_newlines r
          | EmptyString => EmptyString
          end
      else String c (universal_newlines r)
  | EmptyString => EmptyString
  end.

(** The lines of a text, each with its LF (the last one may have none). *)
Fixpoint split_lines (s : string) : list string :=
  match s with
  | String c r =>
      if (c =? LF)%char then String c EmptyString :: split_lines r
      else
        match split_lines r with
        | [] => [String c EmptyString]
        | l :: ls => String c l :: ls
        end
  | EmptyString => []
  end.

(** The lines that iterating over the open file yields. *)
Definition file_lines (text : string) : list string :=
  split_lines (universal_newlines text).

Inductive ParserState : Type :=
| START_RECORD
| START_FIELD
| IN_FIELD
| IN_QUOTED_FIELD
| QUOTE_IN_QUOTED_FIELD
| EAT_CRNL.

Definition ParserState_eqb (a b : ParserState) : bool :=
  match a, b with
  | START_RECORD, START_RECORD | START_FIELD, START_FIELD | IN_FIELD, IN_FIELD
  | IN_QUOTED_FIELD, IN_QUOTED_FIELD | QUOTE_IN_QUOTED_FIELD, QUOTE_IN_QUOTED_FIELD
  | EAT_CRNL, EAT_CRNL => true
  | _, _ => false
  end.

Definition delimiter : ascii := ";"%char.
Definition quotechar : ascii := DQUOTE.
(** [csv.field_size_limit()], 128 * 1024. *)
Definition field_limit : Z := 131072.

(** The reader: its state, the fields of the record so far, and the
    characters of the field being read, the last one first, with their number. *)
Record ReaderObj : Type := mkReader {
  state : ParserState;
  fields : list string;
  field : list ascii;
  field_len : Z
}.

Definition parse_reset : ReaderObj :=
  mkReader START_RECORD [] [] 0.

Definition set_state (self : ReaderObj) (st : ParserState) : ReaderObj :=
  mkReader st (fields self) (field self) (field_len self).

Definition parse_save_field (self : ReaderObj) : ReaderObj :=
  mkReader (state self)
    (fields self ++ [string_of_list_ascii (rev (field self))]) [] 0.

Definition parse_add_char (self : ReaderObj) (c : ascii) : result ReaderObj :=
  if field_limit <=? field_len self then Raise csv_Error
  else Ok (mkReader (state self) (fields self) (c :: field self) (field_len self + 1)).

Definition is_newline (c : ascii) : bool := (c =? LF)%char || (c =? CR)%char.

(** One step of the reader on the character [c]; [None] is the end of a
    line (EOL). *)
Definition parse_process_char (self : ReaderObj) (c : option ascii) : result ReaderObj :=
  let start_field (self : ReaderObj) :=
    match c with
    | None => Ok (set_state (parse_save_field self) START_RECORD)
    | Some ch =>
        if is_newline ch then Ok (set_state (parse_save_field self) EAT_CRNL)
        else if (ch =? quotechar)%char then Ok (set_state self IN_QUOTED_FIELD)
        else if (ch =? delimiter)%char then Ok (parse_save_field self)
        else self' <- parse_add_char self ch ;; Ok (set_state self' IN_FIELD)
    end in
  match state self with
  | START_RECORD =>
      match c with
      | None => Ok self
      | Some ch =>
          if is_newline ch then Ok (set_state self EAT_CRNL)
          else start_field (set_state self START_FIELD)
      end
  | START_FIELD => start_field self
  | IN_FIELD =>
      match c with
      | None => Ok (set_state (parse_save_field self) START_RECORD)
      | Some ch =>
          if is_newline ch then Ok (set_state (parse_save_field self) EAT_CRNL)
          else if (ch =? delimiter)%char then Ok (set_state (parse_save_field self) START_FIELD)
          else parse_add_char self ch
      end
  | IN_QUOTED_FIELD =>
      match c with
      | None => Ok self
      | Some ch =>
          if (ch =? quotechar)%char then Ok (set_state self QUOTE_IN_QUOTED_FIELD)
          else parse_add_char self ch
      end
  | QUOTE_IN_QUOTED_FIELD =>
      match c with
      | None => Ok (set_state (parse_save_field self) START_RECORD)
      | Some ch =>
          if (ch =? quotechar)%char then
            self' <- parse_add_char self ch ;; Ok (set_state self' IN_QUOTED_FIELD)
          else if (ch =? delimiter)%char then Ok (set_state (parse_save_field self) START_FIELD)
          else if is_newline ch then Ok (set_state (parse_save_field self) EAT_CRNL)
          else self' <- parse_add_char self ch ;; Ok (set_state self' IN_FIELD)
      end
  | EAT_CRNL =>
      match c with
      | None => Ok (set_state self START_RECORD)
      | Some ch => if is_newline ch then Ok self else Raise csv_Error
      end
  end.

(** The characters of one line, then EOL. *)
Fixpoint parse_line (self : ReaderObj) (line : string) : result ReaderObj :=
  match line with
  | String c r => self' <- parse_process_char self (Some c) ;; parse_line self' r
  | EmptyString => parse_process_char self None
  end.

(** What an iterator does: it yields [items], and then it is exhausted
    ([ending = None]) or it raises ([ending = Some e]). *)
Record stream (A : Type) : Type := mkStream {
  items : list A;
  ending : option exn
}.

Arguments mkStream {A} items ending.
Arguments items {A} s.
Arguments ending {A} s.

Definition yield {A : Type} (a : A) (s : stream A) : stream A :=
  mkStream (a :: items s) (ending s).

(** The records the reader yields over the lines [lines], [self] being the
    reader inside the current record.  A record ends with the line after
    which the state is [START_RECORD]; at the end of the input an unfinished
    quoted field ends the last record. *)
Fixpoint reader_from (self : ReaderObj) (lines : list string) : stream (list string) :=
  match lines with
  | line :: rest =>
      match parse_line self line with
      | Raise e => mkStream [] (Some e)
      | Ok self' =>
          if ParserState_eqb (state self') START_RECORD
          then yield (fields self') (reader_from parse_reset rest)
          else reader_from self' rest
      end
  | [] =>
      if negb (field_len self =? 0) || ParserState_eqb (state self) IN_QUOTED_FIELD
      then mkStream [fields (parse_save_field self)] None
      else mkStream [] None
  end.

(** [csv.reader(lines, delimiter=';')] as the stream of its rows. *)
Definition reader (lines : list string) : stream (list string) :=
  reader_from parse_reset lines.

End Csv.

(** ** Dictionaries

    A [dict] keeps its keys in the order of their first insertion; setting an
    existing key keeps its place. *)

Module PyDict.

Definition dict (V : Type) : Type := list (string * V).

Definition keys {V : Type} (d : dict V) : list string := map fst d.

(** [d.get(k)]. *)
Fixpoint get {V : Type} (d : dict V) (k : string) : option V :=
  match d with
  | (k', v) :: r => if (k' =? k)%string then Some v else get r k
  | [] => None
  end.

(** [d[k] = v]. *)
Fixpoint set {V : Type} (d : dict V) (k : string) (v : V) : dict V :=
  match d with
  | (k', v') :: r => if (k' =? k)%string then (k', v) :: r else (k', v') :: set r k v
  | [] => [(k, v)]
  end.

(** [d[k]] on a [defaultdict] whose factory returns [default]: a missing key
    is inserted with the default value. *)
Definition getitem_default {V : Type} (default : V) (d : dict V) (k : string) : V * dict V :=
  match get d k with
  | Some v => (v, d)
  | None => (default, set d k default)
  end.

(** [dict(items)]. *)
Definition of_items {V : Type} (l : list (string * V)) : dict V :=
  fold_left (fun d kv => set d (fst kv) (snd kv)) l [].

End PyDict.

(** ** [sorted]

    [sorted] is stable and compares with [<] only.  On a list of at most 64
    items CPython sorts by binary insertion, which is the function below; on a
    longer list it merges runs, with the same result whenever [<] is a strict
    total order on the items, as it is on the items of a dictionary. *)

Module PySort.

Section Sort.
Context {A : Type}.
Variable lt : A -> A -> bool.

(** [x] goes before the first item that is greater. *)
Fixpoint insert (x : A) (l : list A) : list A :=
  match l with
  | y :: r => if lt x y then x :: l else y :: insert x r
  | [] => [x]
  end.

Definition sorted (l : list A) : list A :=
  fold_left (fun acc x => insert x acc) l [].

End Sort.

End PySort.

(** ** The class [TemperatureProcessor] *)

Import PyDict.

(** The four dictionaries of an instance: [minimas] and [maximas] are
    [defaultdict]s whose factories return [inf] and [-inf], [somas] is a
    [defaultdict(float)] and [medicoes] a [Counter]. *)
Record TemperatureProcessor : Type := mkProcessor {
  path : string;
  minimas : dict PyFloat.float;
  maximas : dict PyFloat.float;
  somas : dict PyFloat.float;
  medicoes : dict Z
}.

(** What the program sends to [logging], in order. *)
Inductive log_record : Type :=
| INFO_iniciando (p : string)
| WARNING_linha_ignorada (row : list string) (e : exn)
| ERROR_ao_processar (e : exn)
| INFO_calculando.

(** The file behind a path: there is none, or [open] fails on it, or it
    opens and the reader over it yields a stream of rows. *)
Inductive source : Type :=
| Missing
| Inaccessible
| Readable (rows : Csv.stream (list string)).

(** The argument of the constructor: a [str], a [Path], or anything else. *)
Inductive path_arg : Type :=
| PathStr (p : string)
| PathObj (p : string)
| NotAPath.

Definition path_exists (src : source) : bool :=
  match src with Missing => false | _ => true end.

(** [TemperatureProcessor(path)], [src] being what is behind the path. *)
Definition __init__ (p : path_arg) (src : source) : result TemperatureProcessor :=
  match p with
  | NotAPath => Raise TypeError
  | PathStr s | PathObj s =>
      if negb (path_exists src) then Raise FileNotFoundError
      else Ok (mkProcessor s [] [] [] [])
  end.

Definition _parse_row (row : list string) : result (string * PyFloat.float) :=
  match row with
  | f0 :: f1 :: _ =>
      let nome_station := PyStr.strip f0 in
      temperatura <- FloatFromString.float_of_str f1 ;;
      Ok (nome_station, temperatura)
  | _ => Raise IndexError
  end.

(** [c.update([nome])] on a [Counter]. *)
Definition counter_update (c : dict Z) (nome : string) : dict Z :=
  set c nome (match get c nome with Some n => n | None => 0 end + 1).

Definition _atualizar_estatisticas (self : TemperatureProcessor) (nome : string)
    (temperatura : PyFloat.float) : TemperatureProcessor :=
  let medicoes' := counter_update (medicoes self) nome in
  let (mn, minimas1) := getitem_default PyFloat.inf (minimas self) nome in
  let minimas' := set minimas1 nome (PyFloat.min mn temperatura) in
  let (mx, maximas1) := getitem_default PyFloat.neg_inf (maximas self) nome in
  let maximas' := set maximas1 nome (PyFloat.max mx temperatura) in
  let (sm, somas1) := getitem_default PyFloat.zero (somas self) nome in
  let somas' := set somas1 nome (PyFloat.add sm temperatura) in
  mkProcessor (path self) minimas' maximas' somas' medicoes'.

(** An item of [resultados]: a station with its minimum, mean and maximum. *)
Definition stats : Type := PyFloat.float * PyFloat.float * PyFloat.float.

(** [<] on tuples of three floats: the first components that are not equal
    decide. *)
Definition stats_lt (a b : stats) : bool :=
  let '(a1, a2, a3) := a in
  let '(b1, b2, b3) := b in
  if negb (PyFloat.eqb a1 b1) then PyFloat.lt a1 b1
  else if negb (PyFloat.eqb a2 b2) then PyFloat.lt a2 b2
  else if negb (PyFloat.eqb a3 b3) then PyFloat.lt a3 b3
  else false.

(** [<] on the items [(station, (min, mean, max))]. *)
Definition item_lt (x y : string * stats) : bool :=
  if (fst x =? fst y)%string then stats_lt (snd x) (snd y)
  else PyStr.lt (fst x) (fst y).

Definition format_stats (s : stats) : string :=
  let '(min_t, mean_t, max_t) := s in
  (PyFormat.format_1f min_t ++ "/" ++ PyFormat.format_1f mean_t ++ "/"
     ++ PyFormat.format_1f max_t)%string.

(** The loop of [_gerar_resultados] over [self.medicoes.items()]. *)
Fixpoint gerar_loop (self : TemperatureProcessor) (its : list (string * Z))
    (resultados : dict stats) : TemperatureProcessor * result (dict stats) :=
  match its with
  | [] => (self, Ok resultados)
  | (station, qtd_medicoes) :: rest =>
      if qtd_medicoes =? 0 then gerar_loop self rest resultados
      else
        let (sm, somas') := getitem_default PyFloat.zero (somas self) station in
        let self1 := mkProcessor (path self) (minimas self) (maximas self) somas' (medicoes self) in
        match PyFloat.truediv_int sm qtd_medicoes with
        | Raise e => (self1, Raise e)
        | Ok mean_temp =>
            let (mn, minimas') := getitem_default PyFloat.inf (minimas self1) station in
            let (mx, maximas') := getitem_default PyFloat.neg_inf (maximas self1) station in
            let self2 := mkProcessor (path self) minimas' maximas' somas' (medicoes self) in
            gerar_loop self2 rest (set resultados station (mn, mean_temp, mx))
        end
  end.

Definition _gerar_resultados (self : TemperatureProcessor)
    : TemperatureProcessor * list log_record * result (dict string) :=
  let (self', r) := gerar_loop self (medicoes self) [] in
  (self', [INFO_calculando],
   resultados <- r ;;
   let sorted_results := of_items (PySort.sorted item_lt resultados) in
   Ok (of_items (map (fun kv => (fst kv, format_stats (snd kv))) sorted_results))).

(** [except (ValueError, IndexError)]. *)
Definition caught_in_loop (e : exn) : bool :=
  match e with
  | ValueError | IndexError => true
  | _ => false
  end.

(** The body of the [for] loop over the rows: a row that [_parse_row]
    refuses with [ValueError] or [IndexError] is logged and skipped; any
    other exception leaves the loop. *)
Fixpoint processar_rows (self : TemperatureProcessor) (rows : list (list string))
    : TemperatureProcessor * list log_record * option exn :=
  match rows with
  | [] => (self, [], None)
  | row :: rest =>
      match _parse_row row with
      | Ok (nome_station, temperatura) =>
          processar_rows (_atualizar_estatisticas self nome_station temperatura) rest
      | Raise e =>
          if caught_in_loop e then
            let '(self', log, exc) := processar_rows self rest in
            (self', WARNING_linha_ignorada row e :: log, exc)
          else (self, [], Some e)
      end
  end.

(** [self.processar()], [src] being what is behind [self.path] at the time
    of the call: the instance after the call, the log, and the report or the
    exception. *)
Definition processar (self : TemperatureProcessor) (src : source)
    : TemperatureProcessor * list log_record * result (dict string) :=
  let fatal (self' : TemperatureProcessor) (log : list log_record) (e : exn) :=
    (self', INFO_iniciando (path self) :: log ++ [ERROR_ao_processar e], Raise e) in
  match src with
  | Missing => fatal self [] FileNotFoundError
  | Inaccessible => fatal self [] OSError
  | Readable rows =>
      let '(self1, log1, exc) := processar_rows self (Csv.items rows) in
      match exc, Csv.ending rows with
      | Some e, _ | None, Some e => fatal self1 log1 e
      | None, None =>
          let '(self2, log2, r) := _gerar_resultados self1 in
          (self2, INFO_iniciando (path self) :: log1 ++ log2, r)
      end
  end.

(** The main block up to the report: the instance is built, then
    [processar] is called on it. *)
Definition run (p : path_arg) (src : source) : list log_record * result (dict string) :=
  match __init__ p src with
  | Raise e => ([], Raise e)
  | Ok processor => let '(_, log, r) := processar processor src in (log, r)
  end.

(** The lines the main block prints for a report. *)
Definition print_report (resultados : dict string) : list string :=
  map (fun kv => (fst kv ++ ": " ++ snd kv)%string) resultados.

(** What is behind the path of a readable file with the text [text]. *)
Definition file_source (text : string) : source :=
  Readable (Csv.reader (Csv.file_lines text)).

(** *** The main block *)

(** What the main block sends to [logging], the records of the processor
    among its own; the elapsed time of the closing message is left out. *)
Inductive main_record : Type :=
| MAIN_INFO_iniciando
| PROCESSOR (r : log_record)
| MAIN_INFO_concluido
| MAIN_EXCEPTION_falha_critica (e : exn).

(** The main block, [src] being what is behind [data/measurements.txt]: the
    lines it prints, and its log.  The report is printed once [processar]
    has returned it; an exception of the constructor or of [processar] is
    caught and logged. *)
Definition main (src : source) : list string * list main_record :=
  let (log, r) := run (PathObj "data/measurements.txt") src in
  match r with
  | Ok resultados =>
      (print_report resultados,
       MAIN_INFO_iniciando :: map PROCESSOR log ++ [MAIN_INFO_concluido])
  | Raise e =>
      ([], MAIN_INFO_iniciando :: map PROCESSOR log ++ [MAIN_EXCEPTION_falha_critica e])
  end.

(** *** The loop, one line at a time

    [csv.reader(file)] is an iterator over the open file, and [tqdm] hands
    its rows on one by one: the [for] loop asks for one row at a time, and
    the reader asks the file for one line at a time, and for another one as
    long as the record is not finished.  Between two lines the program holds
    the reader and the instance; the lines read and the rows processed are
    kept nowhere, the warnings going to the log. *)
Record LoopState : Type := mkLoop {
  csv_reader : Csv.ReaderObj;
  instance : TemperatureProcessor
}.

(** The body of the [for] loop on one row. *)
Definition loop_body (self : TemperatureProcessor) (row : list string)
    : TemperatureProcessor * list log_record * option exn :=
  match _parse_row row with
  | Ok (nome_station, temperatura) =>
      (_atualizar_estatisticas self nome_station temperatura, [], None)
  | Raise e =>
      if caught_in_loop e then (self, [WARNING_linha_ignorada row e], None)
      else (self, [], Some e)
  end.

(** One more line of the file: the reader takes it, and when the line ends
    a record, the record is the row of the next turn of the loop, before
    which the reader is reset. *)
Definition next_line (s : LoopState) (line : string)
    : LoopState * list log_record * option exn :=
  match Csv.parse_line (csv_reader s) line with
  | Raise e => (s, [], Some e)
  | Ok rd =>
      if Csv.ParserState_eqb (Csv.state rd) Csv.START_RECORD then
        let '(self', log, exc) := loop_body (instance s) (Csv.fields rd) in
        (mkLoop Csv.parse_reset self', log, exc)
      else (mkLoop rd (instance s), [], None)
  end.

(** The end of the file: a record that is not finished is the last row. *)
Definition end_of_file (s : LoopState) : LoopState * list log_record * option exn :=
  let rd := csv_reader s in
  if negb (Csv.field_len rd =? 0) || Csv.ParserState_eqb (Csv.state rd) Csv.IN_QUOTED_FIELD
  then
    let '(self', log, exc) := loop_body (instance s) (Csv.fields (Csv.parse_save_field rd)) in
    (mkLoop Csv.parse_reset self', log, exc)
  else (s, [], None).

(** The loop over the lines read so far; it stops at the first exception. *)
Fixpoint read_lines (s : LoopState) (lines : list string)
    : LoopState * list log_record * option exn :=
  match lines with
  | [] => (s, [], None)
  | line :: rest =>
      let '(s1, log1, exc) := next_line s line in
      match exc with
      | Some e => (s1, log1, Some e)
      | None =>
          let '(s2, log2, exc2) := read_lines s1 rest in
          (s2, log1 ++ log2, exc2)
      end
  end.

(** The loop over the whole file. *)
Definition read_file (s : LoopState) (lines : list string)
    : LoopState * list log_record * option exn :=
  let '(s1, log1, exc) := read_lines s lines in
  match exc with
  | Some e => (s1, log1, Some e)
  | None =>
      let '(s2, log2, exc2) := end_of_file s1 in
      (s2, log1 ++ log2, exc2)
  end.

(** ** Notions the properties are stated with *)

(** The value of [d[k]] on a [defaultdict]. *)
Definition lookup_or {V : Type} (default : V) (d : dict V) (k : string) : V :=
  match get d k with Some v => v | None => default end.

(** The same float, or two zeros: two floats none of which is smaller than
    the other are in this relation unless one is a NaN. *)
Definition same_number (x y : PyFloat.float) : Prop :=
  x = y \/ (exists s s', x = S754_zero s /\ y = S754_zero s').

(** A processor just built. *)
Definition fresh (p : string) : TemperatureProcessor := mkProcessor p [] [] [] [].

(** The records of a row stream that [_parse_row] accepts, as the pairs it
    returns. *)
Definition valid_records (rows : list (list string)) : list (string * PyFloat.float) :=
  flat_map (fun row => match _parse_row row with Ok kv => [kv] | Raise _ => [] end) rows.

(** The warnings for the rows that [_parse_row] refuses. *)
Definition warnings (rows : list (list string)) : list log_record :=
  flat_map (fun row => match _parse_row row with
                       | Ok _ => []
                       | Raise e => [WARNING_linha_ignorada row e]
                       end) rows.

(** The table after the valid records [recs] went through
    [_atualizar_estatisticas], in order. *)
Definition feed (self : TemperatureProcessor) (recs : list (string * PyFloat.float))
    : TemperatureProcessor :=
  fold_left (fun s kv => _atualizar_estatisticas s (fst kv) (snd kv)) recs self.

(** The values of the records with the key [k], in stream order. *)
Definition values_of (k : string) (recs : list (string * PyFloat.float)) : list PyFloat.float :=
  map snd (filter (fun kv => (fst kv =? k)%string) recs).

Definition or_default {V : Type} (dflt : V) (o : option V) : V :=
  match o with Some x => x | None => dflt end.

(** Keys in strictly ascending order. *)
Definition ascending (ks : list string) : Prop :=
  StronglySorted (fun a b => PyStr.lt a b = true) ks.

(** The statistics of a station with [qtd] measurements, as
    [_gerar_resultados] computes them: the values of the three
    [defaultdict]s at the station, the sum divided by the count. *)
Definition station_stats (self : TemperatureProcessor) (station : string) (qtd : Z)
    : result stats :=
  mean_temp <- PyFloat.truediv_int (lookup_or PyFloat.zero (somas self) station) qtd ;;
  Ok (lookup_or PyFloat.inf (minimas self) station, mean_temp,
      lookup_or PyFloat.neg_inf (maximas self) station).

(** The four dictionaries have the same keys in the same order. *)
Definition same_keys (self : TemperatureProcessor) : Prop :=
  keys (minimas self) = keys (medicoes self) /\
  keys (maximas self) = keys (medicoes self) /\
  keys (somas self) = keys (medicoes self).

(** A decimal text with exactly one digit after the point: an optional
    minus sign, at least one digit, the point, one digit. *)
Definition one_fraction_digit (s : string) : Prop :=
  exists (sg int : string) (d : ascii),
    s = (sg ++ int ++ "." ++ String d EmptyString)%string /\
    (sg = EmptyString \/ sg = "-"%string) /\
    int <> EmptyString /\
    PyStr.all_chars PyStr.isdigit int = true /\
    PyStr.isdigit d = true.

(** A line feed as a string. *)
Definition nl : string := String PyStr.LF EmptyString.

(** The five lines of the scenario, each ended by a line feed. *)
Definition scenario_text : string :=
  ("Hamburg;12.0" ++ nl ++ "Bulawayo;8.9" ++ nl ++ "Hamburg;14.0" ++ nl
   ++ "Palembang;38.8" ++ nl ++ "Hamburg;10.0" ++ nl)%string.

(** [same_number] on the values of a key that may be missing. *)
Definition opt_same_number (a b : option PyFloat.float) : Prop :=
  match a, b with
  | Some x, Some y => same_number x y
  | None, None => True
  | _, _ => False
  end.

(** [s.split(d)], the pieces of [s] between the delimiters [d]. *)
Fixpoint split_on (d : ascii) (s : string) : list string :=
  match s with
  | EmptyString => [EmptyString]
  | String c r =>
      if (c =? d)%char then EmptyString :: split_on d r
      else
        match split_on d r with
        | f :: fs => String c f :: fs
        | [] => [String c EmptyString]
        end
  end.

(** A line without double quote, carriage return and line feed, of at most
    [Csv.field_limit] characters. *)
Definition plain_char (c : ascii) : bool :=
  negb ((c =? PyStr.DQUOTE)%char || (c =? PyStr.CR)%char || (c =? PyStr.LF)%char).

Definition plain_line (line : string) : Prop :=
  PyStr.all_chars plain_char line = true /\
  Z.of_nat (String.length line) <= Csv.field_limit.

(** The fields of a plain line: none for the empty line, else the pieces
    between the semicolons. *)
Definition line_fields (line : string) : list string :=
  match line with
  | EmptyString => []
  | _ => split_on ";" line
  end.

Definition first_char (s : string) : option ascii :=
  match s with
  | String c _ => Some c
  | EmptyString => None
  end.

Fixpoint last_char (s : string) : option ascii :=
  match s with
  | EmptyString => None
  | String c EmptyString => Some c
  | String _ r => last_char r
  end.

(** The line of the quoted-field example: ["a;b";1] with its two double
    quotes. *)
Definition quoted_line : string :=
  (String PyStr.DQUOTE "a;b" ++ String PyStr.DQUOTE ";1")%string.

(** *** The texts [float()] accepts *)

Fixpoint lower (s : string) : string :=
  match s with
  | String c r => String (PyStr.tolower c) (lower r)
  | EmptyString => EmptyString
  end.

Definition all_digits (s : string) : Prop := PyStr.all_chars PyStr.isdigit s = true.

(** An optional sign. *)
Definition sign_text (s : string) : Prop :=
  s = EmptyString \/ s = "+"%string \/ s = "-"%string.

(** Digits with an optional fractional part: digits, or digits, a point
    and digits, with at least one digit in all. *)
Definition decimal_number (s : string) : Prop :=
  exists ip fp : string,
    all_digits ip /\ all_digits fp /\
    ((s = ip /\ fp = EmptyString) \/ s = (ip ++ "." ++ fp)%string) /\
    (ip ++ fp)%string <> EmptyString.

(** An optional exponent: [e] or [E], an optional sign, digits. *)
Definition exponent_part (s : string) : Prop :=
  s = EmptyString \/
  exists (c : ascii) (sg ds : string),
    s = String c (sg ++ ds) /\ FloatFromString.is_exp_mark c = true /\
    sign_text sg /\ all_digits ds /\ ds <> EmptyString.

(** [inf], [infinity] or [nan] in any letter case. *)
Definition special_text (s : string) : Prop :=
  lower s = "inf"%string \/ lower s = "infinity"%string \/ lower s = "nan"%string.

(** A float without blank and underscore: an optional sign, then a decimal
    number with an optional exponent, or an infinity or a NaN. *)
Definition float_text (s : string) : Prop :=
  exists sg b : string,
    s = (sg ++ b)%string /\ sign_text sg /\
    (special_text b \/
     exists n e : string, b = (n ++ e)%string /\ decimal_number n /\ exponent_part e).

(** [drop_us s t]: [t] is [s] without its underscores, each of which stands
    between two digits. *)
Inductive drop_us : string -> string -> Prop :=
| drop_us_nil : drop_us EmptyString EmptyString
| drop_us_char (c : ascii) (s t : string) :
    c <> "_"%char -> drop_us s t -> drop_us (String c s) (String c t)
| drop_us_under (c d : ascii) (s t : string) :
    PyStr.isdigit c = true -> PyStr.isdigit d = true ->
    drop_us (String d s) t ->
    drop_us (String c (String "_" (String d s))) (String c t).

(** The blanks [float()] skips around a number: tab to carriage return,
    space, NEL and the no-break space. *)
Definition float_blank (c : ascii) : bool :=
  PyStr.c_isspace c || (PyStr.code c =? 133)%N || (PyStr.code c =? 160)%N.

(** The texts [float()] accepts: underscores between digits apart, blanks,
    a float, blanks. *)
Definition float_literal (s : string) : Prop :=
  exists t w1 v w2 : string,
    drop_us s t /\ t = (w1 ++ v ++ w2)%string /\
    PyStr.all_chars float_blank w1 = true /\ PyStr.all_chars float_blank w2 = true /\
    float_text v.

(** The decimal literals of the specification: an optional sign, digits,
    and an optional fractional part made of a point and digits. *)
Definition decimal_literal (s : string) : Prop :=
  exists sg ip fr : string,
    s = (sg ++ ip ++ fr)%string /\ sign_text sg /\
    all_digits ip /\ ip <> EmptyString /\
    (fr = EmptyString \/
     exists fp, fr = ("." ++ fp)%string /\ all_digits fp /\ fp <> EmptyString).

(** The text [s] does not start with a character satisfying [p]. *)
Definition stops (p : ascii -> bool) (s : string) : Prop :=
  forall c, first_char s = Some c -> p c = false.

(** The characters of a float without blank and underscore. *)
Definition core_char (c : ascii) : bool :=
  PyStr.isdigit c || FloatFromString.is_sign c || (c =? ".")%char
  || FloatFromString.is_exp_mark c
  || (PyStr.tolower c =? "i")%char || (PyStr.tolower c =? "n")%char
  || (PyStr.tolower c =? "f")%char || (PyStr.tolower c =? "t")%char
  || (PyStr.tolower c =? "y")%char || (PyStr.tolower c =? "a")%char.

(** The letters of [inf], [infinity] and [nan]. *)
Definition special_letter (x : ascii) : bool :=
  (x =? "i")%char || (x =? "n")%char || (x =? "f")%char
  || (x =? "t")%char || (x =? "y")%char || (x =? "a")%char.

Fixpoint map_chars (f : ascii -> ascii) (s : string) : string :=
  match s with
  | String c r => String (f c) (map_chars f r)
  | EmptyString => EmptyString
  end.

(** NEL and the no-break space become a space. *)
Definition to_space (c : ascii) : ascii :=
  if (PyStr.code c =? 133)%N || (PyStr.code c =? 160)%N then " "%char else c.

(** The characters a text that [float()] accepts is made of, before and
    after it is brought to ASCII. *)
Definition literal_char (c : ascii) : bool :=
  float_blank c || (c =? "_")%char || core_char c.

Definition ascii_literal_char (c : ascii) : bool :=
  PyStr.c_isspace c || (c =? "_")%char || core_char c.

(** The characters of a decimal literal. *)
Definition decimal_char (c : ascii) : bool :=
  PyStr.isdigit c || FloatFromString.is_sign c || (c =? ".")%char.

(** *** Notions used in the proofs *)

(** Reading a [defaultdict] may insert a key, but changes the value of no
    key. *)
Definition same_lookups (a b : TemperatureProcessor) : Prop :=
  (forall k, lookup_or PyFloat.inf (minimas a) k = lookup_or PyFloat.inf (minimas b) k) /\
  (forall k, lookup_or PyFloat.neg_inf (maximas a) k = lookup_or PyFloat.neg_inf (maximas b) k) /\
  (forall k, lookup_or PyFloat.zero (somas a) k = lookup_or PyFloat.zero (somas b) k).

Definition add_entry (self0 : TemperatureProcessor) (d : dict stats) (kc : string * Z)
    : dict stats :=
  if snd kc =? 0 then d
  else match station_stats self0 (fst kc) (snd kc) with
       | Ok st => set d (fst kc) st
       | Raise _ => d
       end.

Definition attach (cur : string) (l : list string) : list string :=
  match l with
  | f :: fs => (cur ++ f)%string :: fs
  | [] => [cur]
  end.

(** *** Notions of the further properties *)

Definition is_warning (r : log_record) : bool :=
  match r with
  | WARNING_linha_ignorada _ _ => true
  | _ => false
  end.

(** The sum of the counts of a [Counter]. *)
Definition total_count (d : dict Z) : Z :=
  fold_right (fun kc acc => snd kc + acc) 0 d.

(** The values that are no NaN. *)
Definition not_nan (vs : list PyFloat.float) : list PyFloat.float :=
  filter (fun v => negb (PyFloat.is_nan v)) vs.

(** A stream of rows that ends without an error. *)
Definition rows_source (rows : list (list string)) : source :=
  Readable (Csv.mkStream rows None).

(** The text of the lines [lines], each followed by the line ending [eol]. *)
Definition join_lines (eol : string) (lines : list string) : string :=
  fold_right (fun l text => (l ++ eol ++ text)%string) EmptyString lines.

Definition crlf : string := String PyStr.CR (String PyStr.LF EmptyString).
Definition cr : string := String PyStr.CR EmptyString.

(** A line has no line break inside. *)
Definition one_line (l : string) : Prop :=
  PyStr.all_chars (fun c => negb (Csv.is_newline c)) l = true.

(** The text of [n] tenths with one digit after the point, [12.3] for 123,
    with a minus sign in front when [neg] is set. *)
Definition tenths_text (neg : bool) (n : Z) : string :=
  (PyFormat.sign_str neg ++ PyFormat.str_of_nonneg (n / 10) ++ "."
   ++ String (PyFormat.digit_char (n mod 10)) EmptyString)%string.

(** What becomes of the text [t] as the only measurement of a station:
    the text [.1f] prints for the number [float()] reads, and the three
    numbers of the Report. *)
Definition printed_back (t : string) : option (string * string) :=
  match FloatFromString.float_of_str t with
  | Ok x =>
      match PyFloat.truediv_int (PyFloat.add PyFloat.zero x) 1 with
      | Ok mean =>
          Some (PyFormat.format_1f x,
                format_stats (PyFloat.min PyFloat.inf x, mean, PyFloat.max PyFloat.neg_inf x))
      | Raise _ => None
      end
  | Raise _ => None
  end.

(** The text of [n] tenths is printed back as it is, the three numbers of
    the Report as well unless the text is [-0.0]. *)
Definition prints_back (neg : bool) (n : Z) : bool :=
  let t := tenths_text neg n in
  match printed_back t with
  | Some (a, b) =>
      (a =? t)%string && ((b =? t ++ "/" ++ t ++ "/" ++ t)%string || (neg && (n =? 0)))
  | None => false
  end.

(** [f] holds of the numbers below [n]. *)
Fixpoint all_below (f : Z -> bool) (n : nat) : bool :=
  match n with
  | O => true
  | S k => f (Z.of_nat k) && all_below f k
  end.

(** The string of [n] characters [c]. *)
Fixpoint replicate (n : nat) (c : ascii) : string :=
  match n with
  | O => EmptyString
  | S k => String c (replicate k c)
  end.

(** A character of a field of a plain line. *)
Definition field_char (c : ascii) : bool :=
  plain_char c && negb (c =? Csv.delimiter)%char.

(** The names of [l] that are not in [seen], each once, in the order of
    their first occurrence. *)
Fixpoint first_seen (seen l : list string) : list string :=
  match l with
  | [] => []
  | k :: r =>
      if in_dec string_dec k seen then first_seen seen r
      else k :: first_seen (k :: seen) r
  end.

(** A character of a quoted field that stands for itself: no double quote
    and no line break. *)
Definition quoted_char (c : ascii) : bool :=
  negb (c =? Csv.quotechar)%char && negb (Csv.is_newline c).

(** The characters the reader holds: those of the field it is in and of
    the fields of the record it is in. *)
Definition buffered (rd : Csv.ReaderObj) : nat :=
  List.length (Csv.field rd) + list_sum (map String.length (Csv.fields rd)).

(** The number of characters of the lines. *)
Definition total_length (lines : list string) : nat :=
  list_sum (map String.length lines).

(** The reader counts the characters of its field, which are not more than
    the limit, as those of the fields it has saved. *)
Definition reader_ok (rd : Csv.ReaderObj) : Prop :=
  Csv.field_len rd = Z.of_nat (List.length (Csv.field rd)) /\
  Csv.field_len rd <= Csv.field_limit /\
  Forall (fun f => Z.of_nat (String.length f) <= Csv.field_limit) (Csv.fields rd).

(** ** Tactics *)

Ltac float_cases :=
  repeat match goal with
         | s : bool |- _ => destruct s
         end;
  simpl; try discriminate; try reflexivity; try tauto.

Ltac compare_cases :=
  repeat match goal with
         | |- context [Pos.compare_cont Eq ?a ?b] =>
             change (Pos.compare_cont Eq a b) with (Pos.compare a b) in *
         | H : context [Pos.compare_cont Eq ?a ?b] |- _ =>
             change (Pos.compare_cont Eq a b) with (Pos.compare a b) in *
         end;
  repeat match goal with
         | |- context [Z.compare ?a ?b] => destruct (Z.compare_spec a b)
         | H : context [Z.compare ?a ?b] |- _ => destruct (Z.compare_spec a b)
         | |- context [Pos.compare ?a ?b] => destruct (Pos.compare_spec a b)
         | H : context [Pos.compare ?a ?b] |- _ => destruct (Pos.compare_spec a b)
         end;
  simpl in *; try discriminate; try reflexivity; try lia.

Ltac ascii_cases c :=
  destruct c as [[] [] [] [] [] [] [] []]; vm_compute; try discriminate; try tauto; auto.

Ltac reader_cases H :=
  repeat match type of H with
         | context [if ?b then _ else _] => destruct b
         | context [Csv.parse_add_char ?r ?c] =>
             let E := fresh "Eadd" in
             let r' := fresh "rd" in
             destruct (Csv.parse_add_char r c) as [r'|] eqn:E; simpl bind in H
         end.

(** * Properties *)

Import PyStr FloatFromString Csv.

(** ** Dictionaries *)

Section DictFacts.
Context {V : Type}.
Implicit Types (d : dict V) (k : string) (v : V).

Lemma get_set_same d k v : get (set d k v) k = Some v.
Proof.
  induction d as [|[k' v'] r IH]; simpl.
  - now rewrite String.eqb_refl.
  - destruct (String.eqb_spec k' k) as [->|Hne]; simpl.
    + now rewrite String.eqb_refl.
    + destruct (String.eqb_spec k' k); [contradiction|exact IH].
Qed.

Lemma get_set_other d k k' v : k <> k' -> get (set d k v) k' = get d k'.
Proof.
  intros Hne. induction d as [|[k0 v0] r IH]; simpl.
  - destruct (String.eqb_spec k k'); [contradiction|reflexivity].
  - destruct (String.eqb_spec k0 k) as [->|Hk]; simpl.
    + destruct (String.eqb_spec k k'); [contradiction|reflexivity].
    + now rewrite IH.
Qed.

Lemma get_None_iff d k : get d k = None <-> ~ In k (keys d).
Proof.
  induction d as [|[k' v'] r IH]; simpl.
  - tauto.
  - destruct (String.eqb_spec k' k) as [->|Hne].
    + split; [discriminate|]. intros H. exfalso. apply H. now left.
    + rewrite IH. split; intros H; [intros [E|E]; [contradiction|now apply H]|tauto].
Qed.

Lemma get_Some_In d k v : get d k = Some v -> In (k, v) d.
Proof.
  induction d as [|[k' v'] r IH]; simpl; [discriminate|].
  destruct (String.eqb_spec k' k) as [->|Hne].
  - intros [= ->]. now left.
  - intros H. right. now apply IH.
Qed.

Lemma In_get d k v : NoDup (keys d) -> In (k, v) d -> get d k = Some v.
Proof.
  induction d as [|[k' v'] r IH]; simpl; [intros _ []|].
  intros Hnd [E|Hin]; inversion Hnd as [|? ? Hnotin Hnd']; subst.
  - injection E as -> ->. now rewrite String.eqb_refl.
  - destruct (String.eqb_spec k' k) as [->|Hne].
    + exfalso. apply Hnotin. change k with (fst (k, v)). now apply in_map.
    + now apply IH.
Qed.

Lemma keys_set_present d k v : In k (keys d) -> keys (set d k v) = keys d.
Proof.
  induction d as [|[k' v'] r IH]; simpl; [intros []|].
  destruct (String.eqb_spec k' k) as [->|Hne]; simpl; [reflexivity|].
  intros [E|Hin]; [contradiction|]. now rewrite IH.
Qed.

Lemma keys_set_absent d k v : ~ In k (keys d) -> keys (set d k v) = keys d ++ [k].
Proof.
  induction d as [|[k' v'] r IH]; simpl; [reflexivity|].
  destruct (String.eqb_spec k' k) as [->|Hne]; simpl.
  - intros H. exfalso. apply H. now left.
  - intros H. rewrite IH; [reflexivity|tauto].
Qed.

Lemma set_set d k v v' : set (set d k v) k v' = set d k v'.
Proof.
  induction d as [|[k0 v0] r IH]; simpl.
  - now rewrite String.eqb_refl.
  - destruct (String.eqb_spec k0 k) as [->|Hne]; simpl.
    + now rewrite String.eqb_refl.
    + destruct (String.eqb_spec k0 k); [contradiction|]. now rewrite IH.
Qed.

Lemma set_absent d k v : ~ In k (keys d) -> set d k v = d ++ [(k, v)].
Proof.
  induction d as [|[k' v'] r IH]; simpl; [reflexivity|].
  destruct (String.eqb_spec k' k) as [->|Hne]; simpl.
  - intros H. exfalso. apply H. now left.
  - intros H. rewrite IH; [reflexivity|tauto].
Qed.

Lemma NoDup_keys_set d k v : NoDup (keys d) -> NoDup (keys (set d k v)).
Proof.
  intros Hnd. destruct (in_dec string_dec k (keys d)) as [Hin|Hnotin].
  - now rewrite keys_set_present.
  - rewrite keys_set_absent by assumption.
    apply NoDup_app; [assumption|repeat constructor; intros []| ].
    intros x Hx [<-|[]]. contradiction.
Qed.

Lemma of_items_acc (l : list (string * V)) d :
  NoDup (keys (d ++ l)) ->
  fold_left (fun d kv => set d (fst kv) (snd kv)) l d = d ++ l.
Proof.
  revert d. induction l as [|[k v] l IH]; intros d Hnd; simpl.
  - now rewrite app_nil_r.
  - assert (Hk : ~ In k (keys d)).
    { unfold keys in *. rewrite map_app in Hnd. simpl in Hnd.
      apply NoDup_remove_2 in Hnd. intros Hin. apply Hnd, in_or_app. now left. }
    rewrite set_absent by assumption. rewrite IH.
    + now rewrite <- app_assoc.
    + now rewrite <- app_assoc.
Qed.

Lemma of_items_NoDup (l : list (string * V)) : NoDup (keys l) -> of_items l = l.
Proof. intros H. unfold of_items. now rewrite of_items_acc. Qed.

End DictFacts.

Lemma getitem_default_fst {V : Type} (dflt : V) d k :
  fst (getitem_default dflt d k) = lookup_or dflt d k.
Proof. unfold getitem_default, lookup_or. now destruct (get d k). Qed.

Lemma set_getitem_default {V : Type} (dflt : V) d k v :
  set (snd (getitem_default dflt d k)) k v = set d k v.
Proof.
  unfold getitem_default. destruct (get d k); simpl; [reflexivity|apply set_set].
Qed.

Lemma lookup_or_getitem_default {V : Type} (dflt : V) d k k' :
  lookup_or dflt (snd (getitem_default dflt d k)) k' = lookup_or dflt d k'.
Proof.
  unfold getitem_default, lookup_or. destruct (get d k) eqn:E; simpl; [reflexivity|].
  destruct (string_dec k k') as [->|Hne].
  - now rewrite get_set_same, E.
  - now rewrite get_set_other.
Qed.

Lemma getitem_default_present {V : Type} (dflt : V) d k :
  In k (keys d) -> snd (getitem_default dflt d k) = d.
Proof.
  intros Hin. unfold getitem_default. destruct (get d k) eqn:E; [reflexivity|].
  apply get_None_iff in E. contradiction.
Qed.

(** ** The order of the floats *)

Lemma compare_cont_Eq (a b : positive) : Pos.compare_cont Eq a b = Pos.compare a b.
Proof. reflexivity. Qed.

Lemma lt_trans (x y z : PyFloat.float) :
  PyFloat.lt x y = true -> PyFloat.lt y z = true -> PyFloat.lt x z = true.
Proof.
  unfold PyFloat.lt, SFltb.
  destruct x as [sx|sx| |sx mx ex], y as [sy|sy| |sy my ey], z as [sz|sz| |sz mz ez];
    simpl; float_cases; rewrite ?compare_cont_Eq in *; intros; compare_cases.
Qed.

Lemma lt_irrefl (x : PyFloat.float) : PyFloat.lt x x = false.
Proof.
  unfold PyFloat.lt, SFltb.
  destruct x as [sx|sx| |sx mx ex]; simpl; float_cases;
    rewrite ?compare_cont_Eq in *; rewrite Z.compare_refl, Pos.compare_refl; reflexivity.
Qed.

Lemma not_lt_same_number (x y : PyFloat.float) :
  PyFloat.is_nan x = false -> PyFloat.is_nan y = false ->
  PyFloat.lt x y = false -> PyFloat.lt y x = false -> same_number x y.
Proof.
  unfold PyFloat.lt, SFltb, same_number.
  destruct x as [sx|sx| |sx mx ex], y as [sy|sy| |sy my ey];
    simpl; try discriminate; intros _ _; float_cases; eauto;
    rewrite ?compare_cont_Eq in *; intros; compare_cases; left; f_equal; lia.
Qed.

Lemma lt_inf_false (x : PyFloat.float) : PyFloat.lt PyFloat.inf x = false.
Proof. unfold PyFloat.lt, SFltb. destruct x as [sx|sx| |sx mx ex]; simpl; float_cases. Qed.

Lemma lt_neg_inf_false (x : PyFloat.float) : PyFloat.lt x PyFloat.neg_inf = false.
Proof. unfold PyFloat.lt, SFltb. destruct x as [sx|sx| |sx mx ex]; simpl; float_cases. Qed.

Lemma lt_nan_l (x : PyFloat.float) : PyFloat.lt PyFloat.nan x = false.
Proof. reflexivity. Qed.

Lemma lt_nan_r (x : PyFloat.float) : PyFloat.lt x PyFloat.nan = false.
Proof. unfold PyFloat.lt, SFltb. now destruct x. Qed.

(** The first value of a key: [min(inf, v)] and [max(-inf, v)] are [v]
    unless [v] is a NaN, and [0.0 + v] is [v] unless [v] is [-0.0]. *)
Lemma min_inf (v : PyFloat.float) :
  PyFloat.is_nan v = false -> PyFloat.min PyFloat.inf v = v.
Proof.
  unfold PyFloat.min, PyFloat.lt, SFltb.
  destruct v as [s|s| |s m e]; simpl; float_cases.
Qed.

Lemma max_neg_inf (v : PyFloat.float) :
  PyFloat.is_nan v = false -> PyFloat.max PyFloat.neg_inf v = v.
Proof.
  unfold PyFloat.max, PyFloat.gt, SFltb.
  destruct v as [s|s| |s m e]; simpl; float_cases.
Qed.

Lemma add_zero_l (v : PyFloat.float) :
  v <> PyFloat.neg_zero -> PyFloat.add PyFloat.zero v = v.
Proof.
  unfold PyFloat.add, PyFloat.neg_zero.
  destruct v as [s|s| |s m e]; simpl; try reflexivity.
  destruct s; [intros H; now elim H|reflexivity].
Qed.

(** ** One update of the table *)

Lemma atualizar_eq (self : TemperatureProcessor) (nome : string) (t : PyFloat.float) :
  _atualizar_estatisticas self nome t =
  mkProcessor (path self)
    (set (minimas self) nome (PyFloat.min (lookup_or PyFloat.inf (minimas self) nome) t))
    (set (maximas self) nome (PyFloat.max (lookup_or PyFloat.neg_inf (maximas self) nome) t))
    (set (somas self) nome (PyFloat.add (lookup_or PyFloat.zero (somas self) nome) t))
    (set (medicoes self) nome (lookup_or 0 (medicoes self) nome + 1)).
Proof.
  unfold _atualizar_estatisticas, counter_update.
  rewrite (surjective_pairing (getitem_default PyFloat.inf (minimas self) nome)).
  rewrite (surjective_pairing (getitem_default PyFloat.neg_inf (maximas self) nome)).
  rewrite (surjective_pairing (getitem_default PyFloat.zero (somas self) nome)).
  now rewrite !getitem_default_fst, !set_getitem_default.
Qed.

Lemma get_set {V : Type} (d : dict V) (k k' : string) (v : V) :
  get (set d k v) k' = if (k =? k')%string then Some v else get d k'.
Proof.
  destruct (String.eqb_spec k k') as [->|Hne].
  - apply get_set_same.
  - now apply get_set_other.
Qed.

(** What a stream of records does to one key of a dictionary that each
    record updates by [step]. *)
Section FeedKey.
Context {V : Type}.
Variable proj : TemperatureProcessor -> dict V.
Variable step : option V -> PyFloat.float -> V.
Hypothesis proj_update : forall self nome t k,
  get (proj (_atualizar_estatisticas self nome t)) k =
  if (nome =? k)%string then Some (step (get (proj self) k) t) else get (proj self) k.

Lemma get_feed (recs : list (string * PyFloat.float)) (self : TemperatureProcessor) (k : string) :
  get (proj (feed self recs)) k =
  fold_left (fun o v => Some (step o v)) (values_of k recs) (get (proj self) k).
Proof.
  revert self. unfold feed, values_of.
  induction recs as [|[nome t] recs IH]; intros self; simpl; [reflexivity|].
  rewrite IH, proj_update.
  destruct (nome =? k)%string; reflexivity.
Qed.

End FeedKey.

Lemma fold_left_Some {V : Type} (dflt : V) (g : V -> PyFloat.float -> V)
    (vs : list PyFloat.float) (a : V) :
  fold_left (fun o v => Some (g (or_default dflt o) v)) vs (Some a)
  = Some (fold_left g vs a).
Proof. revert a. induction vs as [|v vs IH]; intros a; simpl; [reflexivity|apply IH]. Qed.

Lemma fold_left_None {V : Type} (dflt : V) (g : V -> PyFloat.float -> V)
    (vs : list PyFloat.float) :
  fold_left (fun o v => Some (g (or_default dflt o) v)) vs None
  = match vs with [] => None | _ => Some (fold_left g vs dflt) end.
Proof. destruct vs as [|v vs]; simpl; [reflexivity|apply fold_left_Some]. Qed.

Lemma get_minimas_feed recs self k :
  get (minimas (feed self recs)) k =
  fold_left (fun o v => Some (PyFloat.min (or_default PyFloat.inf o) v))
    (values_of k recs) (get (minimas self) k).
Proof.
  apply (get_feed minimas (fun o v => PyFloat.min (or_default PyFloat.inf o) v)).
  intros. rewrite atualizar_eq. simpl. rewrite get_set. unfold lookup_or, or_default.
  destruct (String.eqb_spec nome k0) as [->|]; reflexivity.
Qed.

Lemma get_maximas_feed recs self k :
  get (maximas (feed self recs)) k =
  fold_left (fun o v => Some (PyFloat.max (or_default PyFloat.neg_inf o) v))
    (values_of k recs) (get (maximas self) k).
Proof.
  apply (get_feed maximas (fun o v => PyFloat.max (or_default PyFloat.neg_inf o) v)).
  intros. rewrite atualizar_eq. simpl. rewrite get_set. unfold lookup_or, or_default.
  destruct (String.eqb_spec nome k0) as [->|]; reflexivity.
Qed.

Lemma get_somas_feed recs self k :
  get (somas (feed self recs)) k =
  fold_left (fun o v => Some (PyFloat.add (or_default PyFloat.zero o) v))
    (values_of k recs) (get (somas self) k).
Proof.
  apply (get_feed somas (fun o v => PyFloat.add (or_default PyFloat.zero o) v)).
  intros. rewrite atualizar_eq. simpl. rewrite get_set. unfold lookup_or, or_default.
  destruct (String.eqb_spec nome k0) as [->|]; reflexivity.
Qed.

Lemma get_medicoes_feed recs self k :
  get (medicoes (feed self recs)) k =
  fold_left (fun o (_ : PyFloat.float) => Some (or_default 0 o + 1))
    (values_of k recs) (get (medicoes self) k).
Proof.
  apply (get_feed medicoes (fun o _ => or_default 0 o + 1)).
  intros. rewrite atualizar_eq. simpl. rewrite get_set. unfold lookup_or, or_default.
  destruct (String.eqb_spec nome k0) as [->|]; reflexivity.
Qed.

Lemma fold_count (vs : list PyFloat.float) (n : Z) :
  fold_left (fun c (_ : PyFloat.float) => c + 1) vs n = n + Z.of_nat (List.length vs).
Proof.
  revert n. induction vs as [|v vs IH]; intros n; simpl List.length; simpl fold_left.
  - lia.
  - rewrite IH. lia.
Qed.

(** The entry of a key in a table fed from scratch. *)
Lemma entry_fresh (p : string) (recs : list (string * PyFloat.float)) (k : string) :
  let self := feed (fresh p) recs in
  let vs := values_of k recs in
  match vs with
  | [] =>
      get (medicoes self) k = None /\ get (minimas self) k = None /\
      get (maximas self) k = None /\ get (somas self) k = None
  | _ =>
      get (medicoes self) k = Some (Z.of_nat (List.length vs)) /\
      get (minimas self) k = Some (fold_left PyFloat.min vs PyFloat.inf) /\
      get (maximas self) k = Some (fold_left PyFloat.max vs PyFloat.neg_inf) /\
      get (somas self) k = Some (fold_left PyFloat.add vs PyFloat.zero)
  end.
Proof.
  intros self vs. subst self.
  rewrite get_medicoes_feed, get_minimas_feed, get_maximas_feed, get_somas_feed.
  fold vs. simpl get.
  rewrite (fold_left_None 0 (fun c _ => c + 1)), !fold_left_None.
  destruct vs as [|v vs']; [tauto|].
  rewrite fold_count. repeat split.
Qed.

(** ** The minimum and the maximum of a stream of values *)

Lemma lt_negtrans_r (x y z : PyFloat.float) :
  PyFloat.is_nan y = false ->
  PyFloat.lt x z = true -> PyFloat.lt y z = false -> PyFloat.lt x y = true.
Proof.
  unfold PyFloat.lt, SFltb.
  destruct x as [sx|sx| |sx mx ex], y as [sy|sy| |sy my ey], z as [sz|sz| |sz mz ez];
    simpl; try discriminate; intros _; float_cases; intros; compare_cases.
Qed.

Lemma lt_negtrans_l (x y z : PyFloat.float) :
  PyFloat.is_nan y = false ->
  PyFloat.lt z x = true -> PyFloat.lt z y = false -> PyFloat.lt y x = true.
Proof.
  unfold PyFloat.lt, SFltb.
  destruct x as [sx|sx| |sx mx ex], y as [sy|sy| |sy my ey], z as [sz|sz| |sz mz ez];
    simpl; try discriminate; intros _; float_cases; intros; compare_cases.
Qed.

Lemma lt_not_nan (x y : PyFloat.float) :
  PyFloat.lt x y = true -> PyFloat.is_nan x = false /\ PyFloat.is_nan y = false.
Proof.
  unfold PyFloat.lt, SFltb. destruct x, y; simpl; try discriminate; auto.
Qed.

Lemma min_not_nan (a b : PyFloat.float) :
  PyFloat.is_nan a = false -> PyFloat.is_nan (PyFloat.min a b) = false.
Proof.
  unfold PyFloat.min. intros Ha. destruct (PyFloat.lt b a) eqn:E; [|assumption].
  now apply lt_not_nan in E.
Qed.

Lemma max_not_nan (a b : PyFloat.float) :
  PyFloat.is_nan a = false -> PyFloat.is_nan (PyFloat.max a b) = false.
Proof.
  unfold PyFloat.max, PyFloat.gt. intros Ha.
  destruct (SFltb a b) eqn:E; [|assumption].
  now apply (lt_not_nan a b) in E.
Qed.

(** The running minimum: it is the start value or one of the values, and
    none of them is smaller. *)
Lemma fold_min_spec (vs : list PyFloat.float) (m0 : PyFloat.float) :
  PyFloat.is_nan m0 = false ->
  let m := fold_left PyFloat.min vs m0 in
  PyFloat.is_nan m = false /\ (m = m0 \/ In m vs) /\
  PyFloat.lt m0 m = false /\ (forall x, In x vs -> PyFloat.lt x m = false).
Proof.
  revert m0. induction vs as [|v vs IH]; intros m0 Hm0; simpl.
  - repeat split; auto using lt_irrefl. intros x [].
  - destruct (IH (PyFloat.min m0 v) (min_not_nan m0 v Hm0)) as (Hn & Hin & Hle & Hall).
    set (m := fold_left PyFloat.min vs (PyFloat.min m0 v)) in *.
    unfold PyFloat.min in Hin, Hle.
    split; [assumption|].
    destruct (PyFloat.lt v m0) eqn:E.
    + split; [destruct Hin as [->|Hin]; auto|]. split.
      * destruct (PyFloat.lt m0 m) eqn:E'; [|reflexivity].
        now rewrite (lt_trans v m0 m E E') in Hle.
      * intros x [<-|Hx]; auto.
    + split; [destruct Hin as [->|Hin]; auto|]. split; [assumption|].
      intros x [<-|Hx]; [|auto].
      destruct (PyFloat.lt v m) eqn:E'; [|reflexivity].
      now rewrite (lt_negtrans_r v m0 m Hm0 E' Hle) in E.
Qed.

Lemma fold_max_spec (vs : list PyFloat.float) (m0 : PyFloat.float) :
  PyFloat.is_nan m0 = false ->
  let m := fold_left PyFloat.max vs m0 in
  PyFloat.is_nan m = false /\ (m = m0 \/ In m vs) /\
  PyFloat.lt m m0 = false /\ (forall x, In x vs -> PyFloat.gt x m = false).
Proof.
  revert m0. induction vs as [|v vs IH]; intros m0 Hm0; simpl.
  - repeat split; auto using lt_irrefl. intros x [].
  - destruct (IH (PyFloat.max m0 v) (max_not_nan m0 v Hm0)) as (Hn & Hin & Hle & Hall).
    set (m := fold_left PyFloat.max vs (PyFloat.max m0 v)) in *.
    unfold PyFloat.max, PyFloat.gt in Hin, Hle, Hall |- *.
    fold (PyFloat.lt m0 v) in Hin, Hle.
    split; [assumption|].
    destruct (PyFloat.lt m0 v) eqn:E.
    + split; [destruct Hin as [->|Hin]; auto|]. split.
      * destruct (PyFloat.lt m m0) eqn:E'; [|reflexivity].
        now rewrite (lt_trans m m0 v E' E) in Hle.
      * intros x [<-|Hx]; auto.
    + split; [destruct Hin as [->|Hin]; auto|]. split; [assumption|].
      intros x [<-|Hx]; [|auto].
      destruct (SFltb m v) eqn:E'; [|reflexivity].
      now rewrite (lt_negtrans_l v m0 m Hm0 E' Hle) in E.
Qed.

(** Over values with no NaN, the minimum from [inf] is a least value and the
    maximum from [-inf] a greatest one. *)
Lemma fold_min_least (v : PyFloat.float) (vs : list PyFloat.float) :
  Forall (fun x => PyFloat.is_nan x = false) (v :: vs) ->
  let m := fold_left PyFloat.min (v :: vs) PyFloat.inf in
  In m (v :: vs) /\ Forall (fun x => PyFloat.lt x m = false) (v :: vs).
Proof.
  intros Hnan m.
  destruct (fold_min_spec (v :: vs) PyFloat.inf eq_refl) as (_ & _ & _ & Hall).
  split; [|now apply Forall_forall].
  subst m. simpl. rewrite min_inf by now inversion Hnan.
  destruct (fold_min_spec vs v) as (_ & [->|Hin] & _); [now inversion Hnan|now left|now right].
Qed.

Lemma fold_max_greatest (v : PyFloat.float) (vs : list PyFloat.float) :
  Forall (fun x => PyFloat.is_nan x = false) (v :: vs) ->
  let m := fold_left PyFloat.max (v :: vs) PyFloat.neg_inf in
  In m (v :: vs) /\ Forall (fun x => PyFloat.gt x m = false) (v :: vs).
Proof.
  intros Hnan m.
  destruct (fold_max_spec (v :: vs) PyFloat.neg_inf eq_refl) as (_ & _ & _ & Hall).
  split; [|now apply Forall_forall].
  subst m. simpl. rewrite max_neg_inf by now inversion Hnan.
  destruct (fold_max_spec vs v) as (_ & [->|Hin] & _); [now inversion Hnan|now left|now right].
Qed.

(** ** The loop over the rows *)

Lemma parse_row_raises (row : list string) (e : exn) :
  _parse_row row = Raise e -> e = IndexError \/ e = ValueError.
Proof.
  unfold _parse_row. destruct row as [|f0 [|f1 rest]]; try (intros [= <-]; now left).
  unfold FloatFromString.float_of_str.
  destruct (FloatFromString._Py_string_to_number_with_underscores _); simpl;
    [discriminate|intros [= <-]; now right].
Qed.

Lemma parse_row_caught (row : list string) (e : exn) :
  _parse_row row = Raise e -> caught_in_loop e = true.
Proof. intros H. now destruct (parse_row_raises row e H) as [-> | ->]. Qed.

Lemma feed_app (self : TemperatureProcessor) (r1 r2 : list (string * PyFloat.float)) :
  feed self (r1 ++ r2) = feed (feed self r1) r2.
Proof. unfold feed. apply fold_left_app. Qed.

Lemma valid_records_app (r1 r2 : list (list string)) :
  valid_records (r1 ++ r2) = valid_records r1 ++ valid_records r2.
Proof. unfold valid_records. apply flat_map_app. Qed.

(** The loop feeds the table with the valid records, warns about each other
    row, and never raises. *)
Lemma processar_rows_eq (rows : list (list string)) (self : TemperatureProcessor) :
  processar_rows self rows = (feed self (valid_records rows), warnings rows, None).
Proof.
  revert self. induction rows as [|row rows IH]; intros self; simpl; [reflexivity|].
  destruct (_parse_row row) as [[nome t]|e] eqn:E.
  - rewrite IH. unfold feed. simpl. reflexivity.
  - rewrite (parse_row_caught row e E), IH. reflexivity.
Qed.

(** ** The conversion of a count to a float *)

Lemma digits2_pos_bound (p : positive) (n : Z) :
  0 <= n -> Zpos p < 2 ^ n -> Zpos (digits2_pos p) <= n.
Proof.
  revert n. induction p as [p IH|p IH|]; intros n Hn Hlt; simpl digits2_pos.
  - assert (n <> 0) by (intros ->; simpl in Hlt; lia).
    replace n with (Z.succ (n - 1)) in Hlt by lia. rewrite Z.pow_succ_r in Hlt by lia.
    specialize (IH (n - 1)). lia.
  - assert (n <> 0) by (intros ->; simpl in Hlt; lia).
    replace n with (Z.succ (n - 1)) in Hlt by lia. rewrite Z.pow_succ_r in Hlt by lia.
    specialize (IH (n - 1)). lia.
  - assert (n <> 0) by (intros ->; simpl in Hlt; lia). lia.
Qed.

Lemma digits2_pos_iter_xO (p k : positive) :
  digits2_pos (Pos.iter xO p k) = (digits2_pos p + k)%positive.
Proof.
  induction k as [|k IH] using Pos.peano_ind.
  - simpl. lia.
  - rewrite Pos.iter_succ. simpl. rewrite IH. lia.
Qed.

(** A positive count below 2^53 is converted exactly: the float is finite
    and not a zero. *)
Lemma of_int_small (c : Z) :
  0 < c < 2 ^ 53 ->
  exists m e, PyFloat.of_int c = Ok (S754_finite false m e).
Proof.
  intros [Hpos Hlt]. destruct c as [|p|p]; try lia.
  pose proof (digits2_pos_bound p 53 ltac:(lia) Hlt) as Hd.
  unfold PyFloat.of_int, binary_normalize, binary_round, shl_align.
  unfold fexp, emin, PyFloat.prec, PyFloat.emax.
  set (d := digits2_pos p) in *.
  replace (Z.max (Z.pos d + 0 - 53) (3 - 1024 - 53)) with (Z.pos d - 53) by lia.
  assert (Haux : forall mz ez, Zpos (digits2_pos mz) + ez = Z.pos d -> ez = Z.pos d - 53 ->
            binary_round_aux 53 1024 false (Z.pos mz) ez loc_Exact = S754_finite false mz ez).
  { intros mz ez H1 H2. unfold binary_round_aux, shr_fexp, fexp, emin. simpl Zdigits2.
    match goal with
    | |- context [shr ?r ez ?n] =>
        replace n with 0 by (change (0 = Z.max (Z.pos (digits2_pos mz) + ez - 53) (3 - 1024 - 53) - ez); lia)
    end.
    simpl.
    match goal with
    | |- context [shr ?r ez ?n] =>
        replace n with 0 by (change (0 = Z.max (Z.pos (digits2_pos mz) + ez - 53) (3 - 1024 - 53) - ez); lia)
    end.
    simpl. destruct (ez <=? 971) eqn:E; [reflexivity|lia]. }
  destruct (Z.pos d - 53 - 0) as [|q|q] eqn:Eq; try lia.
  - rewrite Haux by (fold d; lia). eauto.
  - rewrite Haux; [eauto| |lia]. rewrite digits2_pos_iter_xO. fold d. lia.
Qed.

Lemma truediv_int_small (a : PyFloat.float) (c : Z) :
  0 < c < 2 ^ 53 -> exists mean, PyFloat.truediv_int a c = Ok mean.
Proof.
  intros H. destruct (of_int_small c H) as (m & e & E).
  unfold PyFloat.truediv_int. rewrite E. simpl. eauto.
Qed.

(** ** The order of the keys and [sorted] *)

Lemma str_compare_refl (s : string) : String.compare s s = Eq.
Proof.
  induction s as [|c s IH]; simpl; [reflexivity|].
  unfold Ascii.compare. now rewrite N.compare_refl.
Qed.

Lemma str_compare_lt_trans (a b c : string) :
  String.compare a b = Lt -> String.compare b c = Lt -> String.compare a c = Lt.
Proof.
  revert b c. induction a as [|x a IH]; intros [|y b] [|z c]; simpl; try discriminate; auto.
  unfold Ascii.compare.
  destruct (N.compare_spec (N_of_ascii x) (N_of_ascii y)) as [Exy|Hxy|Hxy];
    destruct (N.compare_spec (N_of_ascii y) (N_of_ascii z)) as [Eyz|Hyz|Hyz];
    try discriminate; intros H1 H2.
  - rewrite Exy, Eyz, N.compare_refl. eauto.
  - rewrite Exy. now apply N.compare_lt_iff in Hyz as ->.
  - rewrite <- Eyz. now apply N.compare_lt_iff in Hxy as ->.
  - assert (Hxz : (N_of_ascii x < N_of_ascii z)%N) by lia.
    now apply N.compare_lt_iff in Hxz as ->.
Qed.

Lemma str_lt_trans (a b c : string) :
  PyStr.lt a b = true -> PyStr.lt b c = true -> PyStr.lt a c = true.
Proof.
  unfold PyStr.lt, String.ltb.
  destruct (String.compare a b) eqn:E1; try discriminate.
  destruct (String.compare b c) eqn:E2; try discriminate.
  now rewrite (str_compare_lt_trans a b c E1 E2).
Qed.

Lemma str_lt_irrefl (a : string) : PyStr.lt a a = false.
Proof. unfold PyStr.lt, String.ltb. now rewrite str_compare_refl. Qed.

Lemma str_lt_total (a b : string) :
  a <> b -> PyStr.lt a b = false -> PyStr.lt b a = true.
Proof.
  unfold PyStr.lt, String.ltb. intros Hne. rewrite (String.compare_antisym b a).
  destruct (String.compare a b) eqn:E; simpl; try discriminate; [|reflexivity].
  now apply String.compare_eq_iff in E.
Qed.

Lemma str_lt_asym (a b : string) : PyStr.lt a b = true -> PyStr.lt b a = false.
Proof.
  unfold PyStr.lt, String.ltb. rewrite (String.compare_antisym b a).
  now destruct (String.compare a b).
Qed.

Lemma ascending_NoDup (ks : list string) : ascending ks -> NoDup ks.
Proof.
  induction 1 as [|k ks Hs IH Hall]; constructor; [|assumption].
  intros Hin. rewrite Forall_forall in Hall. specialize (Hall k Hin).
  now rewrite str_lt_irrefl in Hall.
Qed.

(** Two ascending lists with the same elements are the same list. *)
Lemma ascending_unique (l1 l2 : list string) :
  ascending l1 -> ascending l2 -> (forall k, In k l1 <-> In k l2) -> l1 = l2.
Proof.
  intros H1. revert l2. induction H1 as [|a l1 Hs1 IH Hall1]; intros l2 H2 Heq.
  - destruct l2 as [|b l2]; [reflexivity|]. exfalso. apply (Heq b). now left.
  - destruct l2 as [|b l2]; [exfalso; apply (Heq a); now left|].
    inversion H2 as [|? ? Hs2 Hall2]; subst.
    rewrite Forall_forall in Hall1, Hall2.
    assert (a = b) as <-.
    { destruct (proj1 (Heq a) (or_introl eq_refl)) as [E|Hin]; [now symmetry|].
      destruct (proj2 (Heq b) (or_introl eq_refl)) as [E|Hin']; [assumption|].
      pose proof (Hall2 a Hin) as Hba. pose proof (Hall1 b Hin') as Hab.
      apply str_lt_asym in Hab. congruence. }
    f_equal. apply IH; [assumption|].
    intros k. split; intros Hk.
    + destruct (proj1 (Heq k) (or_intror Hk)) as [<-|Hin]; [|assumption].
      apply Hall1 in Hk. now rewrite str_lt_irrefl in Hk.
    + destruct (proj2 (Heq k) (or_intror Hk)) as [<-|Hin]; [|assumption].
      apply Hall2 in Hk. now rewrite str_lt_irrefl in Hk.
Qed.

Section SortFacts.
Context {A : Type}.
Variable lt : A -> A -> bool.

Lemma insert_perm (x : A) (l : list A) : Permutation (PySort.insert lt x l) (x :: l).
Proof.
  induction l as [|y r IH]; simpl; [reflexivity|].
  destruct (lt x y); [reflexivity|].
  rewrite IH. apply perm_swap.
Qed.

Lemma sorted_acc_perm (l acc : list A) :
  Permutation (fold_left (fun acc x => PySort.insert lt x acc) l acc) (acc ++ l).
Proof.
  revert acc. induction l as [|x l IH]; intros acc; simpl.
  - now rewrite app_nil_r.
  - rewrite IH, insert_perm. apply Permutation_middle.
Qed.

Lemma sorted_perm (l : list A) : Permutation (PySort.sorted lt l) l.
Proof. unfold PySort.sorted. now rewrite sorted_acc_perm. Qed.

End SortFacts.

(** Sorting items with pairwise different keys puts the keys in strictly
    ascending order, whatever the values are. *)
Section SortItems.
Context {V : Type}.
Variable lt : string * V -> string * V -> bool.
Hypothesis lt_keys : forall x y, fst x <> fst y -> lt x y = PyStr.lt (fst x) (fst y).

Lemma insert_ascending (x : string * V) (l : list (string * V)) :
  ~ In (fst x) (keys l) -> ascending (keys l) -> ascending (keys (PySort.insert lt x l)).
Proof.
  unfold ascending. induction l as [|y r IH]; intros Hnotin Hs; simpl.
  - repeat constructor.
  - simpl in Hnotin. inversion Hs as [|? ? Hs' Hall]; subst.
    assert (Hne : fst x <> fst y) by (intros E; apply Hnotin; now left).
    rewrite (lt_keys x y Hne).
    destruct (PyStr.lt (fst x) (fst y)) eqn:E; simpl.
    + constructor; [assumption|]. constructor; [assumption|].
      eapply Forall_impl; [|exact Hall]. intros k Hk. simpl in Hk.
      now apply (str_lt_trans (fst x) (fst y) k).
    + constructor; [apply IH; tauto|].
      apply Forall_forall. intros k Hk.
      assert (Hin : In k (fst x :: keys r)).
      { unfold keys in *. change (fst x :: map fst r) with (map fst (x :: r)).
        eapply Permutation_in; [|exact Hk].
        apply Permutation_map, insert_perm. }
      destruct Hin as [<-|Hin].
      * apply str_lt_total; [congruence|assumption].
      * rewrite Forall_forall in Hall. now apply Hall.
Qed.

Lemma sorted_acc_ascending (l acc : list (string * V)) :
  NoDup (keys (acc ++ l)) -> ascending (keys acc) ->
  ascending (keys (fold_left (fun acc x => PySort.insert lt x acc) l acc)).
Proof.
  revert acc. induction l as [|x l IH]; intros acc Hnd Hs; simpl; [assumption|].
  assert (Hx : ~ In (fst x) (keys acc)).
  { unfold keys in *. rewrite map_app in Hnd. simpl in Hnd.
    apply NoDup_remove_2 in Hnd. intros Hin. apply Hnd, in_or_app. now left. }
  apply IH; [|now apply insert_ascending].
  eapply Permutation_NoDup; [|exact Hnd].
  unfold keys. apply Permutation_map.
  change (acc ++ x :: l) with (acc ++ [x] ++ l).
  rewrite (app_assoc acc [x] l). apply Permutation_app_tail.
  symmetry. rewrite insert_perm. apply Permutation_cons_append.
Qed.

Lemma sorted_ascending (l : list (string * V)) :
  NoDup (keys l) -> ascending (keys (PySort.sorted lt l)).
Proof.
  intros Hnd. unfold PySort.sorted. apply sorted_acc_ascending; [assumption|constructor].
Qed.

End SortItems.

Lemma item_lt_keys (x y : string * stats) :
  fst x <> fst y -> item_lt x y = PyStr.lt (fst x) (fst y).
Proof.
  intros Hne. unfold item_lt. now destruct (String.eqb_spec (fst x) (fst y)).
Qed.

(** ** [_gerar_resultados] *)

Lemma same_lookups_refl (a : TemperatureProcessor) : same_lookups a a.
Proof. now repeat split. Qed.

Lemma gerar_loop_ok (its : list (string * Z)) (self0 self : TemperatureProcessor)
    (acc : dict stats) :
  same_lookups self0 self ->
  Forall (fun kc => snd kc = 0 \/ exists st, station_stats self0 (fst kc) (snd kc) = Ok st) its ->
  snd (gerar_loop self its acc) = Ok (fold_left (add_entry self0) its acc).
Proof.
  revert self acc. induction its as [|[station qtd] its IH]; intros self acc Hl Hok; simpl.
  - reflexivity.
  - inversion Hok as [|? ? Hhd Htl]; subst. simpl in Hhd.
    unfold add_entry at 2. simpl fst. simpl snd.
    destruct (qtd =? 0) eqn:Eq; [now apply IH|].
    destruct Hhd as [->|[st Hst]]; [discriminate|].
    rewrite Hst. unfold station_stats in Hst.
    destruct Hl as (Hmin & Hmax & Hsum).
    rewrite (surjective_pairing (getitem_default PyFloat.zero (somas self) station)).
    rewrite getitem_default_fst, <- Hsum.
    destruct (PyFloat.truediv_int (lookup_or PyFloat.zero (somas self0) station) qtd)
      as [mean|e]; [|discriminate].
    simpl in Hst. injection Hst as <-. simpl minimas. simpl maximas.
    rewrite (surjective_pairing (getitem_default PyFloat.inf (minimas self) station)).
    rewrite (surjective_pairing (getitem_default PyFloat.neg_inf (maximas self) station)).
    rewrite !getitem_default_fst, <- Hmin, <- Hmax.
    apply IH; [|assumption].
    repeat split; intros k; simpl; rewrite lookup_or_getitem_default; auto.
Qed.

(** On a table whose dictionaries have the same keys, the loop inserts
    nothing. *)
Lemma gerar_loop_state (its : list (string * Z)) (self : TemperatureProcessor)
    (acc : dict stats) :
  same_keys self -> incl (keys its) (keys (medicoes self)) ->
  fst (gerar_loop self its acc) = self.
Proof.
  intros (Kmin & Kmax & Ksum). revert acc.
  induction its as [|[station qtd] its IH]; intros acc Hin; simpl; [reflexivity|].
  assert (Hst : In station (keys (medicoes self))) by (apply Hin; now left).
  assert (Hin' : incl (keys its) (keys (medicoes self))).
  { intros k Hk. apply Hin. now right. }
  destruct (qtd =? 0); [now apply IH|].
  rewrite (surjective_pairing (getitem_default PyFloat.zero (somas self) station)).
  rewrite getitem_default_present by now rewrite Ksum.
  assert (Eself : mkProcessor (path self) (minimas self) (maximas self) (somas self)
                    (medicoes self) = self) by now destruct self.
  destruct (PyFloat.truediv_int _ qtd); simpl; [|assumption].
  rewrite (surjective_pairing (getitem_default PyFloat.inf (minimas self) station)).
  rewrite (surjective_pairing (getitem_default PyFloat.neg_inf (maximas self) station)).
  rewrite !getitem_default_present by (rewrite ?Kmin, ?Kmax; assumption).
  rewrite Eself. now apply IH.
Qed.

Lemma gerar_resultados_state (self : TemperatureProcessor) :
  same_keys self -> fst (fst (_gerar_resultados self)) = self.
Proof.
  intros H. unfold _gerar_resultados.
  rewrite (surjective_pairing (gerar_loop self (medicoes self) [])). simpl.
  apply gerar_loop_state; [assumption|apply incl_refl].
Qed.

(** The entries the loop builds, in the order of [medicoes]. *)
Lemma fold_add_entry (self0 : TemperatureProcessor) (f : string -> Z -> stats)
    (its : list (string * Z)) (acc : dict stats) :
  (forall k c, In (k, c) its -> c <> 0 -> station_stats self0 k c = Ok (f k c)) ->
  NoDup (keys acc ++ keys its) ->
  fold_left (add_entry self0) its acc =
  acc ++ map (fun kc => (fst kc, f (fst kc) (snd kc)))
             (filter (fun kc => negb (snd kc =? 0)) its).
Proof.
  revert acc. induction its as [|[k c] its IH]; intros acc Hf Hnd; simpl.
  - now rewrite app_nil_r.
  - assert (Hk : ~ In k (keys acc)).
    { simpl in Hnd. apply NoDup_remove_2 in Hnd. intros Hin. apply Hnd, in_or_app. now left. }
    assert (Hnd' : NoDup (keys acc ++ keys its)) by (simpl in Hnd; now apply NoDup_remove_1 in Hnd).
    unfold add_entry at 2. simpl fst. simpl snd.
    destruct (Z.eqb_spec c 0) as [->|Hc]; simpl.
    + apply IH; [|assumption]. intros k' c' Hin. apply Hf. now right.
    + rewrite (Hf k c (or_introl eq_refl) Hc), set_absent by assumption.
      rewrite IH.
      * now rewrite <- app_assoc.
      * intros k' c' Hin. apply Hf. now right.
      * unfold keys at 1. rewrite map_app. fold (keys acc). simpl.
        rewrite <- app_assoc. simpl. exact Hnd.
Qed.

(** ** The format [.1f] *)

Lemma isdigit_digit_char (d : Z) : 0 <= d < 10 -> PyStr.isdigit (PyFormat.digit_char d) = true.
Proof.
  intros H.
  assert (d = 0 \/ d = 1 \/ d = 2 \/ d = 3 \/ d = 4 \/ d = 5 \/ d = 6 \/ d = 7 \/ d = 8 \/ d = 9)
    as Hd by lia.
  repeat (destruct Hd as [->|Hd]; [reflexivity|]). now subst.
Qed.

Lemma decimal_digits_all (fuel : nat) (n : Z) (acc : string) :
  PyStr.all_chars PyStr.isdigit acc = true ->
  PyStr.all_chars PyStr.isdigit (PyFormat.decimal_digits fuel n acc) = true.
Proof.
  revert n acc. induction fuel as [|fuel IH]; intros n acc Hacc; simpl; [assumption|].
  assert (Hd : PyStr.isdigit (PyFormat.digit_char (n mod 10)) = true).
  { apply isdigit_digit_char. apply Z.mod_pos_bound. lia. }
  destruct (n <? 10); [|apply IH]; simpl; now rewrite Hd.
Qed.

Lemma decimal_digits_nonempty (fuel : nat) (n : Z) (acc : string) :
  PyFormat.decimal_digits (S fuel) n acc <> EmptyString.
Proof.
  revert n acc. induction fuel as [|fuel IH]; intros n acc.
  - simpl. destruct (n <? 10); discriminate.
  - change (PyFormat.decimal_digits (S (S fuel)) n acc)
      with (let acc' := String (PyFormat.digit_char (n mod 10)) acc in
            if n <? 10 then acc' else PyFormat.decimal_digits (S fuel) (n / 10) acc').
    simpl. destruct (n <? 10); [discriminate|apply IH].
Qed.

(** A finite float is printed with exactly one digit after the point. *)
Lemma format_1f_finite (x : PyFloat.float) :
  PyFloat.is_finite x = true -> one_fraction_digit (PyFormat.format_1f x).
Proof.
  destruct x as [s|s| |s m e]; try discriminate; intros _; simpl.
  - exists (PyFormat.sign_str s), "0"%string, "0"%char.
    repeat split; try reflexivity; [destruct s; auto|discriminate].
  - exists (PyFormat.sign_str s), (PyFormat.str_of_nonneg (PyFormat.tenths m e / 10)),
      (PyFormat.digit_char (PyFormat.tenths m e mod 10)).
    repeat split.
    + destruct s; auto.
    + apply decimal_digits_nonempty.
    + now apply decimal_digits_all.
    + apply isdigit_digit_char, Z.mod_pos_bound. lia.
Qed.

(** An infinity and a NaN are printed without any digit. *)
Lemma format_1f_not_finite (x : PyFloat.float) :
  PyFloat.is_finite x = false ->
  In (PyFormat.format_1f x) ["inf"; "-inf"; "nan"]%string.
Proof.
  destruct x as [s|s| |s m e]; try discriminate; intros _; simpl; [destruct s|]; simpl; auto.
Qed.

Lemma contains_app (c : ascii) (a b : string) :
  PyStr.contains c (a ++ b)%string = PyStr.contains c a || PyStr.contains c b.
Proof.
  induction a as [|x a IH]; simpl; [reflexivity|]. now rewrite IH, orb_assoc.
Qed.

Lemma one_fraction_digit_point (s : string) :
  one_fraction_digit s -> PyStr.contains "." s = true.
Proof.
  intros (sg & int & d & -> & _). rewrite !contains_app. simpl.
  now rewrite !orb_true_r.
Qed.

(** ** The tables a run can build *)

Lemma keys_set_congr {V W : Type} (d : dict V) (d' : dict W) (k : string) (v : V) (w : W) :
  keys d = keys d' -> keys (set d k v) = keys (set d' k w).
Proof.
  intros E. destruct (in_dec string_dec k (keys d)) as [Hin|Hnotin].
  - rewrite !keys_set_present; congruence.
  - rewrite !keys_set_absent; congruence.
Qed.

Lemma same_keys_fresh (p : string) : same_keys (fresh p).
Proof. now repeat split. Qed.

Lemma same_keys_atualizar (self : TemperatureProcessor) (nome : string) (t : PyFloat.float) :
  same_keys self -> same_keys (_atualizar_estatisticas self nome t).
Proof.
  intros (Kmin & Kmax & Ksum). rewrite atualizar_eq.
  repeat split; simpl; now apply keys_set_congr.
Qed.

Lemma same_keys_feed (recs : list (string * PyFloat.float)) (self : TemperatureProcessor) :
  same_keys self -> same_keys (feed self recs).
Proof.
  revert self. unfold feed. induction recs as [|[k v] recs IH]; intros self H; simpl.
  - assumption.
  - now apply IH, same_keys_atualizar.
Qed.

Lemma NoDup_medicoes_feed (recs : list (string * PyFloat.float)) (self : TemperatureProcessor) :
  NoDup (keys (medicoes self)) -> NoDup (keys (medicoes (feed self recs))).
Proof.
  revert self. unfold feed. induction recs as [|[k v] recs IH]; intros self H; simpl.
  - assumption.
  - apply IH. rewrite atualizar_eq. simpl. now apply NoDup_keys_set.
Qed.

Lemma values_of_nil_iff (k : string) (recs : list (string * PyFloat.float)) :
  values_of k recs = [] <-> ~ In k (map fst recs).
Proof.
  unfold values_of. induction recs as [|[k' v] recs IH]; simpl; [tauto|].
  destruct (String.eqb_spec k' k) as [->|Hne]; simpl.
  - split; [discriminate|]. intros H. exfalso. apply H. now left.
  - rewrite IH. tauto.
Qed.

Lemma values_of_app (k : string) (r1 r2 : list (string * PyFloat.float)) :
  values_of k (r1 ++ r2) = values_of k r1 ++ values_of k r2.
Proof. unfold values_of. now rewrite filter_app, map_app. Qed.

Lemma values_of_length (k : string) (recs : list (string * PyFloat.float)) :
  (List.length (values_of k recs) <= List.length recs)%nat.
Proof.
  unfold values_of. rewrite length_map. apply filter_length_le.
Qed.

(** The keys of a table fed from scratch are the keys of the records. *)
Lemma keys_feed_fresh (p : string) (recs : list (string * PyFloat.float)) (k : string) :
  In k (keys (medicoes (feed (fresh p) recs))) <-> In k (map fst recs).
Proof.
  pose proof (entry_fresh p recs k) as H. simpl in H.
  pose proof (values_of_nil_iff k recs) as Hn.
  pose proof (get_None_iff (medicoes (feed (fresh p) recs)) k) as Hg.
  destruct (values_of k recs) as [|v vs].
  - destruct H as (H & _). split; intros Hin.
    + now apply Hg in H.
    + exfalso. now apply Hn.
  - destruct H as (H & _). split; intros _.
    + destruct (in_dec string_dec k (map fst recs)) as [Hin|Hnotin]; [assumption|].
      now apply Hn in Hnotin.
    + destruct (in_dec string_dec k (keys (medicoes (feed (fresh p) recs)))) as [Hin|Hnotin];
        [assumption|].
      apply Hg in Hnotin. congruence.
Qed.

Lemma length_keys {V : Type} (d : dict V) : List.length (keys d) = List.length d.
Proof. apply length_map. Qed.

Lemma dict_size_feed_fresh (p : string) (recs : list (string * PyFloat.float)) :
  List.length (medicoes (feed (fresh p) recs)) =
  List.length (nodup string_dec (map fst recs)).
Proof.
  rewrite <- length_keys. apply Permutation_length, NoDup_Permutation.
  - apply NoDup_medicoes_feed. constructor.
  - apply NoDup_nodup.
  - intros k. rewrite nodup_In. apply keys_feed_fresh.
Qed.

(** The state a call of [processar] leaves: the table fed with the valid
    records. *)
Lemma processar_state (self : TemperatureProcessor) (rows : list (list string)) :
  same_keys self ->
  fst (fst (processar self (Readable (Csv.mkStream rows None)))) =
  feed self (valid_records rows).
Proof.
  intros H. unfold processar. simpl. rewrite processar_rows_eq.
  pose proof (gerar_resultados_state (feed self (valid_records rows))
                (same_keys_feed _ _ H)) as Hg.
  destruct (_gerar_resultados (feed self (valid_records rows))) as [[self2 log2] r].
  exact Hg.
Qed.

Lemma NoDup_keys_filter {V : Type} (f : string * V -> bool) (d : dict V) :
  NoDup (keys d) -> NoDup (keys (filter f d)).
Proof.
  unfold keys. induction d as [|kv d IH]; simpl; intros H; [constructor|].
  inversion H as [|? ? Hnotin Hnd]; subst.
  destruct (f kv); simpl; [|now apply IH].
  constructor; [|now apply IH].
  intros Hin. apply Hnotin. apply in_map_iff in Hin as (x & Ex & Hx).
  apply in_map_iff. exists x. split; [assumption|]. now apply filter_In in Hx.
Qed.

Lemma keys_map_snd {V W : Type} (g : string * V -> W) (d : dict V) :
  keys (map (fun kv => (fst kv, g kv)) d) = keys d.
Proof. unfold keys. rewrite map_map. reflexivity. Qed.

(** The Report of a table: the items of [medicoes] with a count that is not
    zero, sorted, each with its formatted statistics. *)
Lemma gerar_resultados_report (self : TemperatureProcessor) (f : string -> Z -> stats) :
  NoDup (keys (medicoes self)) ->
  (forall k c, In (k, c) (medicoes self) -> c <> 0 -> station_stats self k c = Ok (f k c)) ->
  snd (_gerar_resultados self) =
  Ok (map (fun kv => (fst kv, format_stats (snd kv)))
        (PySort.sorted item_lt
           (map (fun kc => (fst kc, f (fst kc) (snd kc)))
              (filter (fun kc => negb (snd kc =? 0)) (medicoes self))))).
Proof.
  intros Hnd Hf. unfold _gerar_resultados.
  rewrite (surjective_pairing (gerar_loop self (medicoes self) [])). simpl snd.
  rewrite (gerar_loop_ok (medicoes self) self self []).
  - rewrite (fold_add_entry self f) by (simpl; assumption). simpl app.
    set (ents := map _ (filter _ (medicoes self))).
    assert (Hents : NoDup (keys ents)).
    { subst ents. rewrite (keys_map_snd (fun kc => f (fst kc) (snd kc))).
      now apply NoDup_keys_filter. }
    assert (Hsorted : NoDup (keys (PySort.sorted item_lt ents))).
    { apply ascending_NoDup, sorted_ascending; [exact item_lt_keys|assumption]. }
    simpl. rewrite (of_items_NoDup (PySort.sorted item_lt ents)) by assumption.
    rewrite of_items_NoDup; [reflexivity|].
    now rewrite (keys_map_snd (fun kv => format_stats (snd kv))).
  - apply same_lookups_refl.
  - apply Forall_forall. intros [k c] Hin. simpl.
    destruct (Z.eq_dec c 0) as [->|Hc]; [now left|right]. eauto.
Qed.

(** What [_gerar_resultados] returns on a table with counts below 2^53. *)
Lemma gerar_resultados_spec (self : TemperatureProcessor) :
  NoDup (keys (medicoes self)) ->
  Forall (fun kc => 0 <= snd kc < 2 ^ 53) (medicoes self) ->
  exists report,
    snd (_gerar_resultados self) = Ok report /\
    (forall k, In k (keys report) <-> exists c, get (medicoes self) k = Some c /\ 0 < c) /\
    (forall k c, get (medicoes self) k = Some c -> 0 < c ->
       exists mean,
         PyFloat.truediv_int (lookup_or PyFloat.zero (somas self) k) c = Ok mean /\
         get report k =
           Some (PyFormat.format_1f (lookup_or PyFloat.inf (minimas self) k) ++ "/"
                 ++ PyFormat.format_1f mean ++ "/"
                 ++ PyFormat.format_1f (lookup_or PyFloat.neg_inf (maximas self) k))%string) /\
    ascending (keys report) /\
    (forall x, PyFloat.is_finite x = true -> one_fraction_digit (PyFormat.format_1f x)) /\
    (forall x, PyFloat.is_finite x = false ->
       In (PyFormat.format_1f x) ["inf"; "-inf"; "nan"]%string).
Proof.
  intros Hnd Hbound. rewrite Forall_forall in Hbound.
  set (f := fun k c => match station_stats self k c with
                       | Ok st => st
                       | Raise _ => (PyFloat.nan, PyFloat.nan, PyFloat.nan)
                       end).
  assert (Hf : forall k c, In (k, c) (medicoes self) -> c <> 0 ->
                           station_stats self k c = Ok (f k c)).
  { intros k c Hin Hc. specialize (Hbound (k, c) Hin). simpl in Hbound.
    destruct (truediv_int_small (lookup_or PyFloat.zero (somas self) k) c) as [mean Hm]; [lia|].
    unfold f, station_stats. now rewrite Hm. }
  set (ents := map (fun kc => (fst kc, f (fst kc) (snd kc)))
                 (filter (fun kc => negb (snd kc =? 0)) (medicoes self))).
  set (srt := PySort.sorted item_lt ents).
  assert (Hents : NoDup (keys ents)).
  { subst ents. rewrite (keys_map_snd (fun kc => f (fst kc) (snd kc))).
    now apply NoDup_keys_filter. }
  assert (Hasc : ascending (keys srt)).
  { apply sorted_ascending; [exact item_lt_keys|assumption]. }
  assert (Hin_ents : forall k st, In (k, st) ents <->
            exists c, In (k, c) (medicoes self) /\ c <> 0 /\ st = f k c).
  { intros k st. subst ents. rewrite in_map_iff. split.
    - intros ([k' c] & [= -> <-] & Hin). apply filter_In in Hin as [Hin Hc]. simpl in Hc.
      exists c. repeat split; [assumption|]. intros ->. discriminate.
    - intros (c & Hin & Hc & ->). exists (k, c). split; [reflexivity|].
      apply filter_In. split; [assumption|]. simpl. now destruct (Z.eqb_spec c 0). }
  assert (Hin_srt : forall kv, In kv srt <-> In kv ents).
  { intros kv. split; apply Permutation_in; [|symmetry]; apply sorted_perm. }
  exists (map (fun kv => (fst kv, format_stats (snd kv))) srt).
  split; [now apply gerar_resultados_report|].
  rewrite (keys_map_snd (fun kv => format_stats (snd kv))).
  split; [|split; [|split; [exact Hasc|split; [exact format_1f_finite|exact format_1f_not_finite]]]].
  - intros k. unfold keys. rewrite in_map_iff. split.
    + intros ([k' st] & <- & Hin). apply Hin_srt, Hin_ents in Hin as (c & Hin & Hc & _).
      exists c. split; [now apply In_get|].
      specialize (Hbound (k', c) Hin). simpl in *. lia.
    + intros (c & Hget & Hc). apply get_Some_In in Hget.
      exists (k, f k c). split; [reflexivity|].
      apply Hin_srt, Hin_ents. exists c. repeat split; [assumption|lia].
  - intros k c Hget Hc. apply get_Some_In in Hget.
    pose proof (Hf k c Hget ltac:(lia)) as Hst. unfold station_stats in Hst.
    destruct (PyFloat.truediv_int (lookup_or PyFloat.zero (somas self) k) c) as [mean|e];
      [|discriminate].
    exists mean. split; [reflexivity|]. simpl in Hst. injection Hst as Hst.
    apply In_get.
    + rewrite (keys_map_snd (fun kv => format_stats (snd kv))). now apply ascending_NoDup.
    + apply in_map_iff. exists (k, f k c). split.
      * simpl. now rewrite <- Hst.
      * apply Hin_srt, Hin_ents. exists c. repeat split; [assumption|lia].
Qed.

(** ** Reordering the records *)

Lemma values_of_perm (k : string) (r1 r2 : list (string * PyFloat.float)) :
  Permutation r1 r2 -> Permutation (values_of k r1) (values_of k r2).
Proof.
  unfold values_of. induction 1 as [|x l l' _ IH|x y l|l l' l'' _ IH1 _ IH2]; simpl.
  - constructor.
  - destruct (fst x =? k)%string; simpl; [now constructor|assumption].
  - destruct (fst x =? k)%string, (fst y =? k)%string; simpl;
      try reflexivity; apply perm_swap.
  - now transitivity (map snd (filter (fun kv => (fst kv =? k)%string) l')).
Qed.

Lemma valid_records_perm (rows1 rows2 : list (list string)) :
  Permutation rows1 rows2 -> Permutation (valid_records rows1) (valid_records rows2).
Proof. intros H. unfold valid_records. now rewrite H. Qed.

(** The minimum over a reordered stream is the same number. *)
Lemma fold_min_perm (vs1 vs2 : list PyFloat.float) :
  Permutation vs1 vs2 ->
  same_number (fold_left PyFloat.min vs1 PyFloat.inf) (fold_left PyFloat.min vs2 PyFloat.inf).
Proof.
  intros Hp.
  destruct (fold_min_spec vs1 PyFloat.inf eq_refl) as (N1 & I1 & _ & A1).
  destruct (fold_min_spec vs2 PyFloat.inf eq_refl) as (N2 & I2 & _ & A2).
  apply not_lt_same_number; try assumption.
  - destruct I1 as [->|Hin]; [apply lt_inf_false|].
    apply A2. now apply (Permutation_in _ Hp).
  - destruct I2 as [->|Hin]; [apply lt_inf_false|].
    apply A1. now apply (Permutation_in _ (Permutation_sym Hp)).
Qed.

Lemma same_number_sym (x y : PyFloat.float) : same_number x y -> same_number y x.
Proof.
  intros [->|(s & s' & -> & ->)]; [now left|right; eauto].
Qed.

Lemma fold_max_perm (vs1 vs2 : list PyFloat.float) :
  Permutation vs1 vs2 ->
  same_number (fold_left PyFloat.max vs1 PyFloat.neg_inf)
    (fold_left PyFloat.max vs2 PyFloat.neg_inf).
Proof.
  intros Hp.
  destruct (fold_max_spec vs1 PyFloat.neg_inf eq_refl) as (N1 & I1 & _ & A1).
  destruct (fold_max_spec vs2 PyFloat.neg_inf eq_refl) as (N2 & I2 & _ & A2).
  apply not_lt_same_number; try assumption.
  - destruct I2 as [->|Hin]; [apply lt_neg_inf_false|].
    apply (A1 _ (Permutation_in _ (Permutation_sym Hp) Hin)).
  - destruct I1 as [->|Hin]; [apply lt_neg_inf_false|].
    apply (A2 _ (Permutation_in _ Hp Hin)).
Qed.

(** Without a negative zero among the values, it is the same float. *)
Lemma fold_min_perm_eq (vs1 vs2 : list PyFloat.float) :
  Permutation vs1 vs2 ->
  Forall (fun v => v <> PyFloat.neg_zero) vs1 ->
  fold_left PyFloat.min vs1 PyFloat.inf = fold_left PyFloat.min vs2 PyFloat.inf.
Proof.
  intros Hp Hnz. rewrite Forall_forall in Hnz.
  destruct (fold_min_perm vs1 vs2 Hp) as [E|(s & s' & E1 & E2)]; [assumption|].
  destruct (fold_min_spec vs1 PyFloat.inf eq_refl) as (_ & I1 & _).
  destruct (fold_min_spec vs2 PyFloat.inf eq_refl) as (_ & I2 & _).
  rewrite E1 in I1 |- *. rewrite E2 in I2 |- *.
  destruct I1 as [I1|I1]; [discriminate|]. destruct I2 as [I2|I2]; [discriminate|].
  apply (Permutation_in _ (Permutation_sym Hp)) in I2.
  apply Hnz in I1. apply Hnz in I2.
  destruct s, s'; try reflexivity; now (elim I1 || elim I2).
Qed.

Lemma fold_max_perm_eq (vs1 vs2 : list PyFloat.float) :
  Permutation vs1 vs2 ->
  Forall (fun v => v <> PyFloat.neg_zero) vs1 ->
  fold_left PyFloat.max vs1 PyFloat.neg_inf = fold_left PyFloat.max vs2 PyFloat.neg_inf.
Proof.
  intros Hp Hnz. rewrite Forall_forall in Hnz.
  destruct (fold_max_perm vs1 vs2 Hp) as [E|(s & s' & E1 & E2)]; [assumption|].
  destruct (fold_max_spec vs1 PyFloat.neg_inf eq_refl) as (_ & I1 & _).
  destruct (fold_max_spec vs2 PyFloat.neg_inf eq_refl) as (_ & I2 & _).
  rewrite E1 in I1 |- *. rewrite E2 in I2 |- *.
  destruct I1 as [I1|I1]; [discriminate|]. destruct I2 as [I2|I2]; [discriminate|].
  apply (Permutation_in _ (Permutation_sym Hp)) in I2.
  apply Hnz in I1. apply Hnz in I2.
  destruct s, s'; try reflexivity; now (elim I1 || elim I2).
Qed.

Lemma values_of_In (k : string) (v : PyFloat.float) (recs : list (string * PyFloat.float)) :
  In v (values_of k recs) -> In (k, v) recs.
Proof.
  unfold values_of. rewrite in_map_iff. intros ([k' v'] & <- & Hin).
  apply filter_In in Hin as [Hin E]. simpl in E. apply String.eqb_eq in E. now subst.
Qed.

(** The counts of a table fed from scratch are positive and at most the
    number of records. *)
Lemma counts_feed_fresh (p : string) (recs : list (string * PyFloat.float)) (k : string) (c : Z) :
  In (k, c) (medicoes (feed (fresh p) recs)) -> 0 < c <= Z.of_nat (List.length recs).
Proof.
  intros Hin. apply In_get in Hin; [|apply NoDup_medicoes_feed; constructor].
  pose proof (entry_fresh p recs k) as H. simpl in H.
  pose proof (values_of_length k recs) as Hlen.
  destruct (values_of k recs) as [|v vs]; destruct H as (H & _); rewrite H in Hin.
  - discriminate.
  - injection Hin as <-. simpl List.length in *. lia.
Qed.

Lemma valid_records_length (rows : list (list string)) :
  (List.length (valid_records rows) <= List.length rows)%nat.
Proof.
  unfold valid_records. induction rows as [|row rows IH]; simpl; [lia|].
  rewrite length_app. destruct (_parse_row row); simpl; lia.
Qed.

(** Two dictionaries with the same keys in the same order and the same
    values are the same dictionary. *)
Lemma dict_ext {V : Type} (d1 d2 : dict V) :
  keys d1 = keys d2 -> NoDup (keys d1) -> (forall k, get d1 k = get d2 k) -> d1 = d2.
Proof.
  revert d2. induction d1 as [|[k v] d1 IH]; intros [|[k' v'] d2]; simpl;
    try discriminate; [reflexivity|].
  intros [= <- Hk] Hnd Hget. inversion Hnd as [|? ? Hnotin Hnd']; subst.
  pose proof (Hget k) as Hk0. rewrite String.eqb_refl in Hk0. injection Hk0 as <-.
  f_equal. apply IH; [assumption|assumption|].
  intros k0. specialize (Hget k0).
  destruct (String.eqb_spec k k0) as [E|Hne]; [subst k0|assumption].
  assert (H1 : get d1 k = None) by now apply get_None_iff.
  assert (H2 : get d2 k = None) by (apply get_None_iff; now rewrite <- Hk).
  congruence.
Qed.

Lemma processar_result (self : TemperatureProcessor) (rows : list (list string)) :
  snd (processar self (Readable (Csv.mkStream rows None))) =
  snd (_gerar_resultados (feed self (valid_records rows))).
Proof.
  unfold processar. simpl. rewrite processar_rows_eq.
  now destruct (_gerar_resultados (feed self (valid_records rows))) as [[self2 log2] r].
Qed.

(** The tables two orders of the same records build. *)
Lemma feed_perm (p : string) (recs1 recs2 : list (string * PyFloat.float)) (k : string) :
  Permutation recs1 recs2 ->
  let self1 := feed (fresh p) recs1 in
  let self2 := feed (fresh p) recs2 in
  get (medicoes self1) k = get (medicoes self2) k /\
  opt_same_number (get (minimas self1) k) (get (minimas self2) k) /\
  opt_same_number (get (maximas self1) k) (get (maximas self2) k) /\
  (Forall (fun kv => snd kv <> PyFloat.neg_zero) recs1 ->
   get (minimas self1) k = get (minimas self2) k /\
   get (maximas self1) k = get (maximas self2) k).
Proof.
  intros Hp self1 self2.
  pose proof (entry_fresh p recs1 k) as H1. pose proof (entry_fresh p recs2 k) as H2.
  simpl in H1, H2. fold self1 in H1. fold self2 in H2.
  pose proof (values_of_perm k recs1 recs2 Hp) as Hv.
  assert (Hnz : Forall (fun kv => snd kv <> PyFloat.neg_zero) recs1 ->
                Forall (fun v => v <> PyFloat.neg_zero) (values_of k recs1)).
  { intros H. rewrite Forall_forall in *. intros v Hin.
    apply (H (k, v)). now apply values_of_In. }
  destruct (values_of k recs1) as [|v1 vs1] eqn:E1.
  - apply Permutation_nil in Hv. rewrite Hv in H2.
    destruct H1 as (-> & -> & -> & _), H2 as (-> & -> & -> & _). simpl. auto.
  - destruct (values_of k recs2) as [|v2 vs2] eqn:E2.
    { symmetry in Hv. now apply Permutation_nil in Hv. }
    destruct H1 as (-> & -> & -> & _), H2 as (-> & -> & -> & _).
    rewrite (Permutation_length Hv). unfold opt_same_number.
    split; [reflexivity|]. split; [exact (fold_min_perm _ _ Hv)|].
    split; [exact (fold_max_perm _ _ Hv)|].
    intros H. specialize (Hnz H).
    now rewrite (fold_min_perm_eq _ _ Hv Hnz), (fold_max_perm_eq _ _ Hv Hnz).
Qed.

Lemma lookup_or_get {V : Type} (dflt : V) (d1 d2 : dict V) (k : string) :
  get d1 k = get d2 k -> lookup_or dflt d1 k = lookup_or dflt d2 k.
Proof. unfold lookup_or. now intros ->. Qed.

(** ** The reader on plain lines *)

Lemma split_on_nonempty (d : ascii) (s : string) : split_on d s <> [].
Proof.
  induction s as [|c r IH]; simpl; [discriminate|].
  destruct (c =? d)%char; [discriminate|]. now destruct (split_on d r).
Qed.

Lemma string_of_list_ascii_app (a b : list ascii) :
  string_of_list_ascii (a ++ b) = (string_of_list_ascii a ++ string_of_list_ascii b)%string.
Proof. induction a as [|x a IH]; simpl; [reflexivity|now rewrite IH]. Qed.

Lemma string_app_assoc (a b c : string) : ((a ++ b) ++ c = a ++ (b ++ c))%string.
Proof. induction a as [|x a IH]; simpl; [reflexivity|now rewrite IH]. Qed.

Lemma string_app_nil_r (a : string) : (a ++ "")%string = a.
Proof. induction a as [|x a IH]; simpl; [reflexivity|now rewrite IH]. Qed.

Lemma plain_char_spec (c : ascii) :
  plain_char c = true ->
  (c =? PyStr.DQUOTE)%char = false /\ is_newline c = false.
Proof.
  unfold plain_char, is_newline. 
  destruct (c =? PyStr.DQUOTE)%char, (c =? PyStr.CR)%char, (c =? PyStr.LF)%char;
    simpl; intros H; try discriminate; auto.
Qed.

(** Inside a record, the reader cuts a plain line at its semicolons. *)
Lemma parse_plain_line (line : string) (self : ReaderObj) (tail : string) :
  PyStr.all_chars plain_char line = true ->
  tail = EmptyString \/ tail = nl ->
  state self = IN_FIELD \/ (state self = START_FIELD /\ field self = []) ->
  field_len self = Z.of_nat (List.length (field self)) ->
  field_len self + Z.of_nat (String.length line) <= field_limit ->
  exists self',
    parse_line self (line ++ tail) = Ok self' /\
    state self' = START_RECORD /\
    fields self' = fields self
                   ++ attach (string_of_list_ascii (rev (field self))) (split_on ";" line).
Proof.
  revert self. induction line as [|c r IH]; intros [st fs fl n] Hplain Htail Hst Hlen Hlim;
    simpl state in *; simpl fields in *; simpl field in *; simpl field_len in *.
  - simpl String.append. simpl split_on. simpl attach. rewrite string_app_nil_r.
    destruct Htail as [-> | ->], Hst as [-> | [-> _]];
      eexists; (split; [reflexivity|split; reflexivity]).
  - simpl in Hplain. apply andb_true_iff in Hplain as [Hc Hr].
    destruct (plain_char_spec c Hc) as [Hq Hn].
    change ((String c r ++ tail)%string) with (String c (r ++ tail)%string).
    simpl split_on. simpl String.length in Hlim.
    destruct (c =? ";")%char eqn:Ed.
    + assert (Hstep : parse_process_char (mkReader st fs fl n) (Some c) =
                      Ok (mkReader START_FIELD (fs ++ [string_of_list_ascii (rev fl)]) [] 0)).
      { unfold parse_process_char, parse_save_field, set_state, delimiter, quotechar.
        destruct Hst as [-> | [-> _]]; simpl; rewrite ?Hn, ?Hq, Ed; reflexivity. }
      change (parse_line (mkReader st fs fl n) (String c (r ++ tail)))
        with (self' <- parse_process_char (mkReader st fs fl n) (Some c) ;;
              parse_line self' (r ++ tail)).
      rewrite Hstep. simpl bind.
      destruct (IH (mkReader START_FIELD (fs ++ [string_of_list_ascii (rev fl)]) [] 0))
        as (self' & E & S & F); try assumption; simpl; auto; try lia.
      exists self'. split; [exact E|]. split; [exact S|].
      rewrite F. simpl. rewrite string_app_nil_r, <- app_assoc. simpl.
      destruct (split_on ";" r) eqn:Es; [now apply split_on_nonempty in Es|reflexivity].
    + assert (Hadd : parse_add_char (mkReader st fs fl n) c =
                     Ok (mkReader st fs (c :: fl) (n + 1))).
      { unfold parse_add_char. simpl.
        destruct (field_limit <=? n) eqn:El; [lia|reflexivity]. }
      assert (Hstep : parse_process_char (mkReader st fs fl n) (Some c) =
                Ok (mkReader IN_FIELD fs (c :: fl) (n + 1))).
      { unfold parse_process_char, delimiter, quotechar.
        destruct Hst as [Hs | [Hs _]]; subst st; simpl state; cbv iota beta;
          rewrite ?Hn, ?Hq, Ed, Hadd; reflexivity. }
      change (parse_line (mkReader st fs fl n) (String c (r ++ tail)))
        with (self' <- parse_process_char (mkReader st fs fl n) (Some c) ;;
              parse_line self' (r ++ tail)).
      rewrite Hstep. simpl bind.
      destruct (IH (mkReader IN_FIELD fs (c :: fl) (n + 1)))
        as (self' & E & S & F); try assumption; simpl; auto; try lia.
      exists self'. split; [exact E|]. split; [exact S|].
      rewrite F. simpl. f_equal.
      destruct (split_on ";" r) eqn:Es; [now apply split_on_nonempty in Es|]. simpl.
      rewrite string_of_list_ascii_app, string_app_assoc. reflexivity.
Qed.

(** A plain line on its own is one record. *)
Lemma parse_plain_record (line tail : string) :
  plain_line line -> tail = EmptyString \/ tail = nl ->
  exists self',
    parse_line parse_reset (line ++ tail) = Ok self' /\
    state self' = START_RECORD /\ fields self' = line_fields line.
Proof.
  intros [Hplain Hlim] Htail. destruct line as [|c r].
  - destruct Htail as [-> | ->]; eexists; (split; [reflexivity|split; reflexivity]).
  - assert (E : parse_line parse_reset (String c r ++ tail) =
                parse_line (set_state parse_reset START_FIELD) (String c r ++ tail)).
    { simpl in Hplain. apply andb_true_iff in Hplain as [Hc _].
      destruct (plain_char_spec c Hc) as [Hq Hn].
      simpl. unfold parse_process_char. simpl. now rewrite Hn. }
    rewrite E.
    destruct (parse_plain_line (String c r) (set_state parse_reset START_FIELD) tail)
      as (self' & E' & S & F);
      [assumption|assumption|right; split; reflexivity|reflexivity|exact Hlim|].
    exists self'. split; [exact E'|]. split; [exact S|].
    change (line_fields (String c r)) with (split_on ";" (String c r)).
    destruct (split_on ";" (String c r)) eqn:Es; [now apply split_on_nonempty in Es|].
    rewrite F. reflexivity.
Qed.

Lemma reader_plain_lines (lines : list string) (last : list string) :
  Forall plain_line lines ->
  last = [] \/ (exists line, last = [line] /\ plain_line line /\ line <> EmptyString) ->
  reader (map (fun l => (l ++ nl)%string) lines ++ last) =
  mkStream (map line_fields (lines ++ last)) None.
Proof.
  intros Hall Hlast. unfold reader. induction Hall as [|line lines Hline _ IH].
  - simpl. destruct Hlast as [-> | (line & -> & Hline & Hne)]; [reflexivity|].
    simpl. destruct (parse_plain_record line EmptyString Hline (or_introl eq_refl))
      as (self' & E & S & F).
    rewrite string_app_nil_r in E. rewrite E, S. simpl. now rewrite F.
  - simpl. destruct (parse_plain_record line nl Hline (or_intror eq_refl))
      as (self' & E & S & F).
    rewrite E, S. simpl. rewrite IH. unfold yield. simpl. now rewrite F.
Qed.

(** ** Stripping *)

Lemma take_drop_while (p : ascii -> bool) (s : string) :
  s = (take_while p s ++ lstrip_with p s)%string.
Proof.
  induction s as [|c r IH]; simpl; [reflexivity|].
  destruct (p c); simpl; [now rewrite <- IH|reflexivity].
Qed.

Lemma take_while_all (p : ascii -> bool) (s : string) :
  all_chars p (take_while p s) = true.
Proof.
  induction s as [|c r IH]; simpl; [reflexivity|].
  destruct (p c) eqn:E; simpl; [now rewrite E|reflexivity].
Qed.

Lemma lstrip_first (p : ascii -> bool) (s : string) (c : ascii) :
  first_char (lstrip_with p s) = Some c -> p c = false.
Proof.
  induction s as [|x r IH]; simpl; [discriminate|].
  destruct (p x) eqn:E; [assumption|]. simpl. now intros [= <-].
Qed.

Lemma rstrip_spec (p : ascii -> bool) (s : string) :
  exists w, s = (rstrip_with p s ++ w)%string /\ all_chars p w = true /\
            (forall c, last_char (rstrip_with p s) = Some c -> p c = false).
Proof.
  induction s as [|x r (w & E & Hw & Hlast)]; simpl.
  - exists EmptyString. split; [reflexivity|]. split; [reflexivity|discriminate].
  - destruct (rstrip_with p r) as [|y r'] eqn:Er.
    + simpl in E. subst r. destruct (p x) eqn:Ex.
      * exists (String x w). simpl. rewrite Ex. split; [reflexivity|].
        split; [assumption|discriminate].
      * exists w. split; [reflexivity|]. split; [assumption|]. simpl. now intros c [= <-].
    + exists w. split; [now rewrite E at 1|]. split; [assumption|]. exact Hlast.
Qed.

Lemma rstrip_first (p : ascii -> bool) (s : string) (c : ascii) :
  first_char (rstrip_with p s) = Some c -> first_char s = Some c.
Proof.
  destruct s as [|x r]; simpl; [discriminate|].
  destruct (rstrip_with p r); [destruct (p x); [discriminate|]|]; simpl; auto.
Qed.

(** [s.strip()] is [s] without the blanks at its two ends. *)
Lemma strip_spec (s : string) :
  (exists w1 w2, s = (w1 ++ strip s ++ w2)%string /\
                 all_chars isspace w1 = true /\ all_chars isspace w2 = true) /\
  (forall c, first_char (strip s) = Some c -> isspace c = false) /\
  (forall c, last_char (strip s) = Some c -> isspace c = false).
Proof.
  unfold strip.
  destruct (rstrip_spec isspace (lstrip_with isspace s)) as (w2 & E & Hw2 & Hlast).
  split; [|split; [|exact Hlast]].
  - exists (take_while isspace s), w2. split; [|split; [apply take_while_all|assumption]].
    rewrite <- E. apply take_drop_while.
  - intros c Hc. apply rstrip_first in Hc. now apply lstrip_first in Hc.
Qed.

(** ** The texts [float()] accepts *)

(** *** Strings *)

Lemma all_chars_app (p : ascii -> bool) (a b : string) :
  all_chars p (a ++ b)%string = all_chars p a && all_chars p b.
Proof. induction a as [|x a IH]; simpl; [reflexivity|now rewrite IH, andb_assoc]. Qed.

Lemma length_app_str (a b : string) :
  String.length (a ++ b)%string = (String.length a + String.length b)%nat.
Proof. induction a as [|x a IH]; simpl; [reflexivity|now rewrite IH]. Qed.

Lemma app_eq_nil_str (a b : string) :
  (a ++ b)%string = EmptyString -> a = EmptyString /\ b = EmptyString.
Proof. destruct a; simpl; [auto|discriminate]. Qed.

Lemma take_while_app (p : ascii -> bool) (a b : string) :
  all_chars p a = true -> stops p b -> take_while p (a ++ b) = a.
Proof.
  intros Ha Hb. induction a as [|x a IH]; simpl in *.
  - destruct b as [|y b]; [reflexivity|]. simpl. now rewrite (Hb y eq_refl).
  - apply andb_true_iff in Ha as [Hx Ha]. now rewrite Hx, IH.
Qed.

Lemma lstrip_app (p : ascii -> bool) (a b : string) :
  all_chars p a = true -> stops p b -> lstrip_with p (a ++ b) = b.
Proof.
  intros Ha Hb. induction a as [|x a IH]; simpl in *.
  - destruct b as [|y b]; [reflexivity|]. simpl. now rewrite (Hb y eq_refl).
  - apply andb_true_iff in Ha as [Hx Ha]. now rewrite Hx, IH.
Qed.

Lemma stops_nil (p : ascii -> bool) : stops p EmptyString.
Proof. intros c. discriminate. Qed.

Lemma stops_cons (p : ascii -> bool) (c : ascii) (s : string) :
  p c = false -> stops p (String c s).
Proof. intros H x [= <-]. exact H. Qed.

Lemma stops_lstrip (p : ascii -> bool) (s : string) : stops p (lstrip_with p s).
Proof. intros c. apply lstrip_first. Qed.

Lemma take_while_self (p : ascii -> bool) (a : string) :
  all_chars p a = true -> take_while p a = a.
Proof.
  intros H. rewrite <- (string_app_nil_r a) at 1. apply take_while_app; [exact H|apply stops_nil].
Qed.

Lemma lstrip_self (p : ascii -> bool) (a : string) :
  all_chars p a = true -> lstrip_with p a = EmptyString.
Proof.
  intros H. rewrite <- (string_app_nil_r a) at 1. apply lstrip_app; [exact H|apply stops_nil].
Qed.

Lemma rstrip_app (p : ascii -> bool) (a w : string) :
  all_chars p w = true -> (forall c, last_char a = Some c -> p c = false) ->
  rstrip_with p (a ++ w) = a.
Proof.
  intros Hw. induction a as [|x a IH]; intros Hlast.
  - simpl. clear Hlast. induction w as [|y w IHw]; simpl in *; [reflexivity|].
    apply andb_true_iff in Hw as [Hy Hw]. now rewrite (IHw Hw), Hy.
  - change ((String x a ++ w)%string) with (String x (a ++ w)%string).
    simpl rstrip_with. destruct a as [|y a].
    + rewrite IH by discriminate. now rewrite (Hlast x eq_refl).
    + rewrite IH by (intros c Hc; apply Hlast; exact Hc). reflexivity.
Qed.

Lemma length_lstrip (p : ascii -> bool) (s : string) :
  (String.length (lstrip_with p s) <= String.length s)%nat.
Proof. induction s as [|c r IH]; simpl; [lia|]. destruct (p c); simpl; lia. Qed.

Lemma length_rstrip (p : ascii -> bool) (s : string) :
  (String.length (rstrip_with p s) <= String.length s)%nat.
Proof.
  induction s as [|c r IH]; simpl; [lia|].
  destruct (rstrip_with p r); [destruct (p c)|]; simpl in *; lia.
Qed.

(** *** Characters *)

Lemma core_char_facts (c : ascii) :
  core_char c = true ->
  c_isspace c = false /\ float_blank c = false /\ c <> "_"%char /\
  (code c <? 127)%N = true /\ isascii c = true.
Proof. ascii_cases c; intros _; repeat split; try reflexivity; discriminate. Qed.

Lemma isdigit_core (c : ascii) : isdigit c = true -> core_char c = true.
Proof. unfold core_char. now intros ->. Qed.

Lemma isdigit_facts (c : ascii) :
  isdigit c = true ->
  is_sign c = false /\ (c =? ".")%char = false /\ is_exp_mark c = false /\
  (c =? "-")%char = false /\ (c =? "+")%char = false /\ c <> "_"%char.
Proof. ascii_cases c; intros _; repeat split; try reflexivity; discriminate. Qed.

Lemma exp_mark_facts (c : ascii) :
  is_exp_mark c = true ->
  isdigit c = false /\ (c =? ".")%char = false /\ is_sign c = false /\ core_char c = true.
Proof. ascii_cases c. Qed.

Lemma letter_facts (c x : ascii) :
  x = "i"%char \/ x = "n"%char ->
  tolower c = x ->
  isdigit c = false /\ (c =? ".")%char = false /\
  (c =? "-")%char = false /\ (c =? "+")%char = false.
Proof. intros [-> | ->]; ascii_cases c. Qed.

Lemma tolower_core (c : ascii) :
  In (tolower c) ["i"; "n"; "f"; "t"; "y"; "a"]%char -> core_char c = true.
Proof.
  unfold core_char. simpl.
  intros [E|[E|[E|[E|[E|[E|[]]]]]]]; rewrite <- E, Ascii.eqb_refl, ?orb_true_r; reflexivity.
Qed.

(** *** The number at the start of a text *)

Lemma scan_sign_spec (s : string) :
  exists sg, s = (sg ++ snd (scan_sign s))%string /\ sign_text sg.
Proof.
  unfold scan_sign, sign_text. destruct s as [|c r]; [exists EmptyString; auto|].
  destruct (Ascii.eqb_spec c "-") as [->|_]; [exists "-"%string; auto|].
  destruct (Ascii.eqb_spec c "+") as [->|_]; [exists "+"%string; auto|].
  exists EmptyString; auto.
Qed.

Lemma scan_sign_app (sg rest : string) :
  sign_text sg -> stops is_sign rest -> snd (scan_sign (sg ++ rest)) = rest.
Proof.
  intros [-> | [-> | ->]] Hrest; try reflexivity.
  simpl. unfold scan_sign. destruct rest as [|c r]; [reflexivity|].
  specialize (Hrest c eq_refl). unfold is_sign in Hrest.
  apply orb_false_iff in Hrest as [H1 H2]. now rewrite H1, H2.
Qed.

Lemma scan_exponent_sound (s : string) (e : Z) :
  scan_exponent s = (e, EmptyString) -> exponent_part s.
Proof.
  unfold scan_exponent. destruct s as [|c r]; [now left|].
  destruct (is_exp_mark c) eqn:Ec; [|discriminate].
  destruct (scan_sign_spec r) as (sg & Er & Hsg).
  destruct (scan_sign r) as [esign r1]. simpl in Er.
  pose proof (take_drop_while isdigit r1) as Hr1.
  pose proof (take_while_all isdigit r1) as Hds.
  unfold drop_while. destruct (take_while isdigit r1) as [|d ds] eqn:Eds; [discriminate|].
  intros [= _ Hdrop]. rewrite Hdrop, string_app_nil_r in Hr1.
  right. exists c, sg, (String d ds). rewrite Er, Hr1.
  repeat split; try assumption. discriminate.
Qed.

Lemma scan_exponent_complete (s : string) :
  exponent_part s -> exists e, scan_exponent s = (e, EmptyString).
Proof.
  intros [-> | (c & sg & ds & -> & Hc & Hsg & Hds & Hne)]; [now exists 0|].
  unfold scan_exponent. rewrite Hc.
  assert (Hstop : stops is_sign ds).
  { destruct ds as [|d ds']; [contradiction|]. apply stops_cons.
    simpl in Hds. apply andb_true_iff in Hds as [Hd _]. now apply isdigit_facts in Hd. }
  pose proof (scan_sign_app sg ds Hsg Hstop) as Hs.
  destruct (scan_sign (sg ++ ds)) as [esign r1]. simpl in Hs. subst r1.
  unfold drop_while. rewrite (take_while_self isdigit ds Hds), (lstrip_self isdigit ds Hds).
  destruct ds; [contradiction|]. eauto.
Qed.

Lemma strtod_sound (v : string) (x : PyFloat.float) :
  _Py_dg_strtod v = Some (x, EmptyString) ->
  exists sg n e, v = (sg ++ n ++ e)%string /\ sign_text sg /\
                 decimal_number n /\ exponent_part e.
Proof.
  unfold _Py_dg_strtod.
  destruct (scan_sign_spec v) as (sg & Ev & Hsg).
  destruct (scan_sign v) as [sign s]. simpl in Ev.
  pose proof (take_drop_while isdigit s) as Hs.
  pose proof (take_while_all isdigit s) as Hip.
  unfold drop_while. set (ip := take_while isdigit s) in *.
  set (s1 := lstrip_with isdigit s) in *.
  assert (Hfr : exists fp s2,
            (if match s1 with String c _ => (c =? ".")%char | EmptyString => false end
             then s1 = ("." ++ fp ++ s2)%string else (s1 = s2 /\ fp = EmptyString)) /\
            all_digits fp /\
            match s1 with
            | String c r =>
                if (c =? ".")%char then (take_while isdigit r, lstrip_with isdigit r)
                else (EmptyString, s1)
            | EmptyString => (EmptyString, s1)
            end = (fp, s2)).
  { destruct s1 as [|c r]; [exists EmptyString, EmptyString; repeat split|].
    destruct (Ascii.eqb_spec c ".") as [->|Hc].
    - exists (take_while isdigit r), (lstrip_with isdigit r).
      split; [simpl; f_equal; apply take_drop_while|].
      split; [apply take_while_all|reflexivity].
    - exists EmptyString, (String c r). repeat split. }
  destruct Hfr as (fp & s2 & Hs1 & Hfp & ->).
  destruct (ip ++ fp)%string as [|d ds] eqn:Edig; [discriminate|].
  destruct (_ || _); [discriminate|].
  destruct (scan_exponent s2) as [e s3] eqn:Ee. intros [= _ ->].
  apply scan_exponent_sound in Ee.
  destruct s1 as [|c r].
  - destruct Hs1 as [<- ->]. exists sg, ip, EmptyString.
    rewrite Ev, Hs. repeat split; try assumption.
    exists ip, EmptyString. repeat split; auto. now rewrite Edig.
  - destruct (c =? ".")%char.
    + exists sg, (ip ++ "." ++ fp)%string, s2.
      rewrite Ev, Hs, Hs1, !string_app_assoc. repeat split; try assumption.
      exists ip, fp. repeat split; auto. now rewrite Edig.
    + destruct Hs1 as [<- ->]. exists sg, ip, (String c r).
      rewrite Ev, Hs. repeat split; try assumption.
      exists ip, EmptyString. repeat split; auto. now rewrite Edig.
Qed.

Lemma stops_digit_exponent (e : string) : exponent_part e -> stops isdigit e.
Proof.
  intros [-> | (c & sg & ds & -> & Hc & _)]; [apply stops_nil|].
  apply stops_cons. now apply exp_mark_facts in Hc.
Qed.

Lemma strtod_complete (sg n e : string) :
  sign_text sg -> decimal_number n -> exponent_part e ->
  Z.of_nat (String.length (sg ++ n ++ e)) <= MAX_DIGITS ->
  exists x, _Py_dg_strtod (sg ++ n ++ e) = Some (x, EmptyString).
Proof.
  intros Hsg (ip & fp & Hip & Hfp & Hn & Hne) He Hlen.
  rewrite !length_app_str in Hlen.
  destruct (scan_exponent_complete e He) as [ev Hev].
  pose proof (stops_digit_exponent e He) as Hstop_e.
  assert (Hlen_n : (String.length ip + String.length fp <= String.length n)%nat).
  { destruct Hn as [[-> ->] | ->]; rewrite ?length_app_str; simpl; lia. }
  assert (Hstop : stops is_sign (n ++ e)).
  { destruct ip as [|d ip'].
    - destruct Hn as [[-> ->] | ->]; [now elim Hne|]. simpl. now apply stops_cons.
    - simpl in Hip. apply andb_true_iff in Hip as [Hd _]. apply isdigit_facts in Hd.
      destruct Hn as [[-> ->] | ->]; simpl; now apply stops_cons. }
  unfold _Py_dg_strtod. pose proof (scan_sign_app sg (n ++ e) Hsg Hstop) as Hs.
  destruct (scan_sign (sg ++ n ++ e)) as [sign s]. simpl in Hs. subst s.
  unfold drop_while.
  assert (Hcheck : forall digits,
            (String.length digits <= String.length ip + String.length fp)%nat ->
            (MAX_DIGITS <? strlen (lstrip_with is_zero_digit digits))
            || (MAX_DIGITS <? strlen fp) = false).
  { intros digits Hd. unfold strlen.
    pose proof (length_lstrip is_zero_digit digits).
    apply orb_false_iff. split; apply Z.ltb_ge; lia. }
  destruct Hn as [[-> ->] | ->].
  - rewrite (take_while_app isdigit ip e Hip Hstop_e), (lstrip_app isdigit ip e Hip Hstop_e).
    assert (Hfr : match e with
                  | String c r =>
                      if (c =? ".")%char then (take_while isdigit r, lstrip_with isdigit r)
                      else (EmptyString, e)
                  | EmptyString => (EmptyString, e)
                  end = (EmptyString, e)).
    { destruct He as [-> | (c & sg' & ds & -> & Hc & _)]; [reflexivity|].
      apply exp_mark_facts in Hc as (_ & -> & _). reflexivity. }
    rewrite Hfr, string_app_nil_r. rewrite string_app_nil_r in Hne.
    destruct ip as [|d ip'] eqn:Eip; [contradiction|]. rewrite <- Eip in *.
    rewrite Hcheck by lia. rewrite Hev. subst ip. eauto.
  - rewrite !string_app_assoc.
    assert (Hstop1 : stops isdigit ("." ++ fp ++ e)) by now apply stops_cons.
    rewrite (take_while_app isdigit ip _ Hip Hstop1), (lstrip_app isdigit ip _ Hip Hstop1).
    simpl String.append at 1. cbv iota. simpl Ascii.eqb. cbv iota.
    rewrite (take_while_app isdigit fp e Hfp Hstop_e), (lstrip_app isdigit fp e Hfp Hstop_e).
    destruct (ip ++ fp)%string as [|d ds] eqn:Edig; [contradiction|]. rewrite <- Edig.
    rewrite Hcheck by (rewrite length_app_str; lia). rewrite Hev. eauto.
Qed.

(** *** Infinities and NaNs *)

Lemma lower_app (a b : string) : lower (a ++ b) = (lower a ++ lower b)%string.
Proof. induction a as [|x a IH]; simpl; [reflexivity|now rewrite IH]. Qed.

Lemma cim_sound (t s r : string) :
  case_insensitive_match s t = Some r ->
  exists t', s = (t' ++ r)%string /\ lower t' = t.
Proof.
  revert s. induction t as [|ct t IH]; intros s; simpl.
  - intros [= ->]. now exists EmptyString.
  - destruct s as [|cs s]; [discriminate|].
    destruct (Ascii.eqb_spec (tolower cs) ct) as [<-|_]; [|discriminate].
    intros H. apply IH in H as (t' & -> & <-). now exists (String cs t').
Qed.

Lemma cim_complete (b r : string) :
  case_insensitive_match (b ++ r) (lower b) = Some r.
Proof.
  induction b as [|c b IH]; simpl; [reflexivity|]. now rewrite Ascii.eqb_refl.
Qed.

Lemma lower_split (b t1 t2 : string) :
  lower b = (t1 ++ t2)%string ->
  exists b1 b2, b = (b1 ++ b2)%string /\ lower b1 = t1 /\ lower b2 = t2.
Proof.
  revert b. induction t1 as [|c t1 IH]; intros b; simpl.
  - intros H. now exists EmptyString, b.
  - destruct b as [|x b]; simpl; [discriminate|]. intros [= Hx Hb].
    destruct (IH b Hb) as (b1 & b2 & -> & <- & <-).
    exists (String x b1), b2. simpl. now rewrite Hx.
Qed.

Lemma inf_nan_sound (v : string) (x : PyFloat.float) :
  _Py_parse_inf_or_nan v = Some (x, EmptyString) ->
  exists sg b, v = (sg ++ b)%string /\ sign_text sg /\ special_text b.
Proof.
  unfold _Py_parse_inf_or_nan.
  destruct (scan_sign_spec v) as (sg & Ev & Hsg).
  destruct (scan_sign v) as [negate s]. simpl in Ev.
  destruct (case_insensitive_match s "inf") as [s1|] eqn:E1.
  - apply cim_sound in E1 as (t1 & -> & L1).
    destruct (case_insensitive_match s1 "inity") as [s2|] eqn:E2.
    + apply cim_sound in E2 as (t2 & -> & L2). intros [= _ ->].
      exists sg, (t1 ++ t2)%string. rewrite string_app_nil_r in Ev.
      repeat split; try assumption. right. left. now rewrite lower_app, L1, L2.
    + intros [= _ ->]. exists sg, t1. rewrite string_app_nil_r in Ev.
      repeat split; try assumption. now left.
  - destruct (case_insensitive_match s "nan") as [s1|] eqn:E2; [|discriminate].
    apply cim_sound in E2 as (t1 & -> & L1). intros [= _ ->].
    exists sg, t1. rewrite string_app_nil_r in Ev.
    repeat split; try assumption. right. now right.
Qed.

Lemma special_first (b : string) :
  special_text b ->
  exists c b', b = String c b' /\ (tolower c = "i"%char \/ tolower c = "n"%char).
Proof.
  intros [H | [H | H]]; destruct b as [|c b']; try discriminate H;
    injection H as Hc _; exists c, b'; auto.
Qed.

Lemma inf_nan_complete (sg b : string) :
  sign_text sg -> special_text b ->
  _Py_dg_strtod (sg ++ b) = None /\
  exists x, _Py_parse_inf_or_nan (sg ++ b) = Some (x, EmptyString).
Proof.
  intros Hsg Hb. destruct (special_first b Hb) as (c & b' & Eb & Hc).
  assert (Hfacts := letter_facts c (tolower c) Hc eq_refl).
  destruct Hfacts as (Hd & Hdot & Hm & Hp).
  assert (Hstop : stops is_sign b).
  { subst b. apply stops_cons. unfold is_sign. now rewrite Hm, Hp. }
  pose proof (scan_sign_app sg b Hsg Hstop) as Hs.
  unfold _Py_dg_strtod, _Py_parse_inf_or_nan.
  destruct (scan_sign (sg ++ b)) as [negate s]. simpl in Hs. subst s.
  split.
  - subst b. unfold drop_while. simpl. rewrite Hd, Hdot. reflexivity.
  - destruct Hb as [H | [H | H]].
    + rewrite <- (string_app_nil_r b), <- H, cim_complete. simpl. eauto.
    + change "infinity"%string with ("inf" ++ "inity")%string in H.
      apply lower_split in H as (b1 & b2 & -> & L1 & L2).
      rewrite <- L1, cim_complete.
      rewrite <- (string_app_nil_r b2), <- L2, cim_complete. eauto.
    + assert (E : case_insensitive_match b "inf" = None).
      { subst b. simpl in H. injection H as Hc' _. simpl. now rewrite Hc'. }
      rewrite E. rewrite <- (string_app_nil_r b), <- H, cim_complete. eauto.
Qed.

(** *** A float without blank and underscore *)

Lemma ascii_strtod_iff (v : string) :
  Z.of_nat (String.length v) <= MAX_DIGITS ->
  (exists x, _PyOS_ascii_strtod v = Some (x, EmptyString)) <-> float_text v.
Proof.
  intros Hlen. unfold _PyOS_ascii_strtod. split.
  - intros [x H]. destruct (_Py_dg_strtod v) as [[y r]|] eqn:E.
    + injection H as -> ->. apply strtod_sound in E as (sg & n & e & -> & Hsg & Hn & He).
      exists sg, (n ++ e)%string. repeat split; try assumption. right. eauto.
    + apply inf_nan_sound in H as (sg & b & -> & Hsg & Hb).
      exists sg, b. auto.
  - intros (sg & b & -> & Hsg & [Hb | (n & e & -> & Hn & He)]).
    + destruct (inf_nan_complete sg b Hsg Hb) as (-> & x & ->). eauto.
    + destruct (strtod_complete sg n e Hsg Hn He Hlen) as (x & ->). eauto.
Qed.

(** *** Blanks around the float *)

Lemma special_letter_core (c : ascii) :
  special_letter (tolower c) = true -> core_char c = true.
Proof.
  unfold special_letter, core_char.
  destruct (tolower c =? "i")%char, (tolower c =? "n")%char, (tolower c =? "f")%char,
    (tolower c =? "t")%char, (tolower c =? "y")%char, (tolower c =? "a")%char;
    simpl; rewrite ?orb_true_r; try reflexivity; discriminate.
Qed.

Lemma lower_core (b t : string) :
  lower b = t -> all_chars special_letter t = true -> all_chars core_char b = true.
Proof.
  revert t. induction b as [|c b IH]; intros t <-; simpl; [reflexivity|].
  intros H. apply andb_true_iff in H as [H1 H2].
  now rewrite (special_letter_core c H1), (IH _ eq_refl H2).
Qed.

Lemma all_digits_core (s : string) : all_digits s -> all_chars core_char s = true.
Proof.
  unfold all_digits. induction s as [|c s IH]; simpl; [reflexivity|].
  intros H. apply andb_true_iff in H as [Hc Hs]. now rewrite (isdigit_core c Hc), IH.
Qed.

Lemma sign_text_core (sg : string) : sign_text sg -> all_chars core_char sg = true.
Proof. now intros [-> | [-> | ->]]. Qed.

Lemma float_text_chars (v : string) :
  float_text v -> all_chars core_char v = true /\ v <> EmptyString.
Proof.
  intros (sg & b & -> & Hsg & Hb).
  assert (Hb' : all_chars core_char b = true /\ b <> EmptyString).
  { destruct Hb as [Hb | (n & e & -> & (ip & fp & Hip & Hfp & Hn & Hne) & He)].
    - split.
      + destruct Hb as [H | [H | H]]; now apply (lower_core b _ H).
      + destruct (special_first b Hb) as (c & b' & -> & _). discriminate.
    - assert (Hn' : all_chars core_char n = true /\ n <> EmptyString).
      { destruct Hn as [[-> ->] | ->].
        - rewrite string_app_nil_r in Hne. split; [now apply all_digits_core|assumption].
        - rewrite !all_chars_app, (all_digits_core ip Hip), (all_digits_core fp Hfp).
          split; [reflexivity|]. now destruct ip. }
      destruct Hn' as [Hn1 Hn2]. rewrite all_chars_app, Hn1. split.
      + destruct He as [-> | (c & sg' & ds & -> & Hc & Hsg' & Hds & _)]; [reflexivity|].
        simpl. apply exp_mark_facts in Hc as (_ & _ & _ & ->).
        now rewrite all_chars_app, (sign_text_core sg' Hsg'), (all_digits_core ds Hds).
      + now destruct n. }
  destruct Hb' as [Hb1 Hb2]. rewrite all_chars_app, (sign_text_core sg Hsg), Hb1.
  split; [reflexivity|]. destruct sg; [assumption|discriminate].
Qed.

Lemma all_chars_first (p : ascii -> bool) (s : string) (c : ascii) :
  all_chars p s = true -> first_char s = Some c -> p c = true.
Proof. destruct s; simpl; [discriminate|]. intros H [= <-]. now apply andb_true_iff in H. Qed.

Lemma all_chars_last (p : ascii -> bool) (s : string) (c : ascii) :
  all_chars p s = true -> last_char s = Some c -> p c = true.
Proof.
  induction s as [|x s IH]; [discriminate|]. intros H. simpl in H.
  apply andb_true_iff in H as [Hx Hs]. simpl. destruct s; [now intros [= <-]|now apply IH].
Qed.

Lemma inner_iff (t : string) :
  Z.of_nat (String.length t) <= MAX_DIGITS ->
  (exists x, float_from_string_inner t = Some x) <->
  (exists w1 v w2, t = (w1 ++ v ++ w2)%string /\
                   all_chars c_isspace w1 = true /\ all_chars c_isspace w2 = true /\
                   float_text v).
Proof.
  intros Hlen. unfold float_from_string_inner. split.
  - intros [x H].
    pose proof (take_drop_while c_isspace t) as Ht.
    pose proof (length_lstrip c_isspace t) as Hl1.
    destruct (lstrip_with c_isspace t) as [|c r]; [discriminate|].
    destruct (rstrip_spec c_isspace r) as (w2 & Er & Hw2 & _).
    pose proof (length_rstrip c_isspace r) as Hl2.
    destruct (_PyOS_ascii_strtod (String c (rstrip_with c_isspace r))) as [[y rest]|] eqn:E;
      [|discriminate].
    destruct rest; [|discriminate].
    exists (take_while c_isspace t), (String c (rstrip_with c_isspace r)), w2.
    split; [|split; [apply take_while_all|split; [assumption|]]].
    + rewrite Ht at 1. simpl. now rewrite <- Er.
    + apply ascii_strtod_iff; [simpl in *; lia|eauto].
  - intros (w1 & v & w2 & -> & Hw1 & Hw2 & Hv).
    destruct (float_text_chars v Hv) as [Hcore Hne].
    destruct v as [|c v0]; [contradiction|].
    assert (Hstop : stops c_isspace (String c v0 ++ w2)).
    { simpl. apply stops_cons. simpl in Hcore. apply andb_true_iff in Hcore as [Hc _].
      now apply core_char_facts in Hc. }
    rewrite (lstrip_app c_isspace w1 _ Hw1 Hstop). simpl.
    assert (Hr : rstrip_with c_isspace (v0 ++ w2) = v0).
    { apply rstrip_app; [assumption|]. intros x Hx.
      assert (Hx' : last_char (String c v0) = Some x) by (simpl; now destruct v0).
      apply (all_chars_last _ _ _ Hcore) in Hx'. now apply core_char_facts in Hx'. }
    rewrite Hr.
    assert (Hlen' : Z.of_nat (String.length (String c v0)) <= MAX_DIGITS).
    { rewrite !length_app_str in Hlen. lia. }
    apply (ascii_strtod_iff _ Hlen') in Hv as [x ->]. eauto.
Qed.

(** *** Underscores *)

Lemma drop_us_head (c : ascii) (s t : string) :
  drop_us (String c s) t -> exists t', t = String c t'.
Proof. intros H. inversion H; subst; eauto. Qed.

Lemma drop_us_length (s t : string) :
  drop_us s t -> (String.length t <= String.length s)%nat.
Proof. induction 1; simpl in *; lia. Qed.

(** [drop_underscores] computes [drop_us]. *)
Lemma drop_underscores_iff (t : string) (prev : ascii) (dup : string) :
  drop_underscores prev t = Some dup <->
  if (prev =? "_")%char
  then exists d r, t = String d r /\ isdigit d = true /\ drop_us t dup
  else drop_us (String prev t) (String prev dup).
Proof.
  revert prev dup. induction t as [|c r IH]; intros prev dup; simpl.
  - destruct (Ascii.eqb_spec prev "_") as [->|Hp].
    + split; [discriminate|]. intros (d & r & [=] & _).
    + split.
      * intros [= <-]. constructor; [assumption|constructor].
      * intros H. inversion H; subst. now inversion H4.
  - destruct (Ascii.eqb_spec c "_") as [->|Hc].
    + destruct (Ascii.eqb_spec prev "_") as [->|Hp].
      * simpl. split; [discriminate|]. intros (d & r' & [= <- <-] & Hd & _). discriminate.
      * destruct (isdigit prev) eqn:Hd.
        -- rewrite IH. simpl. split.
           ++ intros (d & r' & -> & Hd' & H). now constructor.
           ++ intros H. inversion H; subst.
              ** inversion H4; subst; [now elim H3|]. discriminate.
              ** eauto.
        -- split; [discriminate|]. intros H. inversion H; subst; [|congruence].
           inversion H4; subst; [now elim H3|discriminate].
    + destruct (Ascii.eqb_spec prev "_") as [->|Hp]; simpl.
      * destruct (isdigit c) eqn:Hd; simpl.
        -- split.
           ++ destruct (drop_underscores c r) as [dup'|] eqn:E; [|discriminate].
              intros [= <-]. exists c, r. repeat split; try assumption.
              apply (IH c dup') in E. destruct (Ascii.eqb_spec c "_"); [contradiction|assumption].
           ++ intros (d & r' & [= <- <-] & _ & H).
              destruct (drop_us_head _ _ _ H) as [dup' ->].
              assert (E : drop_underscores c r = Some dup').
              { apply IH. destruct (Ascii.eqb_spec c "_"); [contradiction|assumption]. }
              now rewrite E.
        -- split; [discriminate|]. intros (d & r' & [= <- <-] & Hd' & _). congruence.
      * split.
        -- destruct (drop_underscores c r) as [dup'|] eqn:E; [|discriminate].
           intros [= <-]. constructor; [assumption|].
           apply (IH c dup') in E. destruct (Ascii.eqb_spec c "_"); [contradiction|assumption].
        -- intros H. inversion H; subst.
           ++ destruct (drop_us_head _ _ _ H4) as [dup' ->].
              assert (E : drop_underscores c r = Some dup').
              { apply IH. destruct (Ascii.eqb_spec c "_"); [contradiction|assumption]. }
              now rewrite E.
           ++ contradiction.
Qed.

Lemma drop_us_no_underscore (t u : string) :
  contains "_" t = false -> (drop_us t u <-> u = t).
Proof.
  revert u. induction t as [|c r IH]; intros u; simpl.
  - intros _. split; [now inversion 1|intros ->; constructor].
  - intros H. apply orb_false_iff in H as [Hc Hr]. apply Ascii.eqb_neq in Hc.
    split.
    + intros H. inversion H; subst.
      * f_equal. now apply IH.
      * simpl in Hr. discriminate.
    + intros ->. constructor; [assumption|]. now apply IH.
Qed.

Lemma number_iff (t : string) :
  (exists x, _Py_string_to_number_with_underscores t = Some x) <->
  (exists u, drop_us t u /\ exists x, float_from_string_inner u = Some x).
Proof.
  unfold _Py_string_to_number_with_underscores.
  destruct (contains "_" t) eqn:Ec.
  - split.
    + intros [x H]. destruct (drop_underscores NUL t) as [dup|] eqn:E; [|discriminate].
      exists dup. split; [|eauto].
      apply drop_underscores_iff in E. simpl in E. now inversion E.
    + intros (u & Hu & x & Hx). exists x.
      assert (E : drop_underscores NUL t = Some u).
      { apply drop_underscores_iff. simpl. constructor; [discriminate|assumption]. }
      now rewrite E.
  - split.
    + intros [x H]. exists t. split; [now apply drop_us_no_underscore|eauto].
    + intros (u & Hu & x & Hx). apply (drop_us_no_underscore t u Ec) in Hu. subst u. eauto.
Qed.

(** *** Bringing the text to ASCII *)

Lemma map_chars_app (f : ascii -> ascii) (a b : string) :
  map_chars f (a ++ b) = (map_chars f a ++ map_chars f b)%string.
Proof. induction a as [|x a IH]; simpl; [reflexivity|now rewrite IH]. Qed.

Lemma map_chars_split (f : ascii -> ascii) (t a b : string) :
  map_chars f t = (a ++ b)%string ->
  exists t1 t2, t = (t1 ++ t2)%string /\ map_chars f t1 = a /\ map_chars f t2 = b.
Proof.
  revert t. induction a as [|c a IH]; intros t; simpl.
  - intros H. now exists EmptyString, t.
  - destruct t as [|x t]; simpl; [discriminate|]. intros [= Hx Ht].
    destruct (IH t Ht) as (t1 & t2 & -> & <- & <-).
    exists (String x t1), t2. simpl. now rewrite Hx.
Qed.

Lemma map_chars_length (f : ascii -> ascii) (s : string) :
  String.length (map_chars f s) = String.length s.
Proof. induction s as [|c s IH]; simpl; [reflexivity|now rewrite IH]. Qed.

Lemma to_space_facts (c : ascii) :
  (core_char c = true -> to_space c = c) /\
  (core_char (to_space c) = true -> to_space c = c) /\
  (c =? "_")%char = (to_space c =? "_")%char /\
  (isdigit c = true -> to_space c = c) /\
  (isdigit (to_space c) = true -> to_space c = c) /\
  (float_blank c = c_isspace (to_space c)) /\
  (isascii c = true -> to_space c = c) /\
  (literal_char c = true ->
   (if (code c <? 127)%N then c else if isspace c then " "%char else "?"%char) = to_space c) /\
  (literal_char c = true -> ascii_literal_char (to_space c) = true) /\
  (literal_char c = false ->
   ascii_literal_char c = false /\
   ((code c <? 127)%N = false -> isspace c = false)).
Proof. ascii_cases c; repeat split; try reflexivity; try discriminate. Qed.

Lemma ascii_literal_char_qmark : ascii_literal_char "?" = false.
Proof. reflexivity. Qed.

(** A text made of the characters of a literal is rewritten character by
    character. *)
Lemma transform_literal_chars (s : string) :
  all_chars literal_char s = true ->
  _PyUnicode_TransformDecimalAndSpaceToASCII s = map_chars to_space s.
Proof.
  intros H. unfold _PyUnicode_TransformDecimalAndSpaceToASCII.
  destruct (all_chars isascii s) eqn:Ea.
  - clear H. induction s as [|c s IH]; simpl in *; [reflexivity|].
    apply andb_true_iff in Ea as [Hc Hs].
    destruct (to_space_facts c) as (_ & _ & _ & _ & _ & _ & F & _).
    now rewrite (F Hc), <- IH.
  - clear Ea. induction s as [|c s IH]; simpl in *; [reflexivity|].
    apply andb_true_iff in H as [Hc Hs].
    destruct (to_space_facts c) as (_ & _ & _ & _ & _ & _ & _ & F & _).
    specialize (F Hc). rewrite <- F, <- (IH Hs).
    destruct (code c <? 127)%N; [reflexivity|].
    destruct (isspace c); [reflexivity|].
    exfalso. clear IH Hs. revert Hc. ascii_cases c.
Qed.

(** Any other text keeps, or gets, a character that is none of a literal. *)
Lemma transform_other_chars (s : string) :
  all_chars literal_char s = false ->
  all_chars ascii_literal_char (_PyUnicode_TransformDecimalAndSpaceToASCII s) = false.
Proof.
  intros H. unfold _PyUnicode_TransformDecimalAndSpaceToASCII.
  destruct (all_chars isascii s).
  - induction s as [|c s IH]; [discriminate|].
    simpl in H. simpl. apply andb_false_iff in H as [Hc|Hs]; apply andb_false_iff.
    + left. now apply (to_space_facts c).
    + right. now apply IH.
  - induction s as [|c s IH]; [discriminate|].
    simpl in H. simpl.
    destruct (literal_char c) eqn:Hc.
    + simpl in H. specialize (IH H).
      destruct (code c <? 127)%N; simpl; [apply andb_false_iff; now right|].
      destruct (isspace c); simpl; [assumption|reflexivity].
    + destruct (to_space_facts c) as (_ & _ & _ & _ & _ & _ & _ & _ & _ & F).
      destruct (F Hc) as [F1 F2].
      destruct (code c <? 127)%N; simpl; [apply andb_false_iff; now left|].
      rewrite (F2 eq_refl). reflexivity.
Qed.

Lemma drop_us_chars (p : ascii -> bool) (s t : string) :
  p "_"%char = true -> drop_us s t -> all_chars p t = true -> all_chars p s = true.
Proof.
  intros Hp. induction 1 as [|c s t Hc _ IH|c d s t Hc Hd _ IH]; simpl; intros H.
  - reflexivity.
  - apply andb_true_iff in H as [H1 H2]. now rewrite H1, IH.
  - apply andb_true_iff in H as [H1 H2]. rewrite H1, Hp. simpl. apply (IH H2).
Qed.

Lemma all_chars_impl (p q : ascii -> bool) (s : string) :
  (forall c, p c = true -> q c = true) -> all_chars p s = true -> all_chars q s = true.
Proof.
  intros Hpq. induction s as [|c s IH]; simpl; [reflexivity|].
  intros H. apply andb_true_iff in H as [H1 H2]. now rewrite (Hpq c H1), IH.
Qed.

(** The characters of an accepted text. *)
Lemma framed_chars (blank p : ascii -> bool) (s t w1 v w2 : string) :
  p "_"%char = true ->
  (forall c, blank c = true -> p c = true) ->
  (forall c, core_char c = true -> p c = true) ->
  drop_us s t -> t = (w1 ++ v ++ w2)%string ->
  all_chars blank w1 = true -> all_chars blank w2 = true -> float_text v ->
  all_chars p s = true.
Proof.
  intros Hus Hb Hc Hd -> Hw1 Hw2 Hv. apply (drop_us_chars p _ _ Hus Hd).
  rewrite !all_chars_app, (all_chars_impl blank p w1 Hb Hw1), (all_chars_impl blank p w2 Hb Hw2).
  now rewrite (all_chars_impl core_char p v Hc (proj1 (float_text_chars v Hv))).
Qed.

Lemma drop_us_map (s t : string) :
  drop_us s t -> drop_us (map_chars to_space s) (map_chars to_space t).
Proof.
  induction 1 as [|c s t Hc _ IH|c d s t Hc Hd _ IH]; simpl.
  - constructor.
  - constructor; [|assumption].
    destruct (to_space_facts c) as (_ & _ & F & _).
    intros E. apply Hc. apply Ascii.eqb_eq. rewrite F. now apply Ascii.eqb_eq.
  - destruct (to_space_facts c) as (_ & _ & _ & Fc & _).
    destruct (to_space_facts d) as (_ & _ & _ & Fd & _).
    simpl in IH. rewrite (Fc Hc), (Fd Hd) in *.
    change (to_space "_") with "_"%char. now constructor.
Qed.

Lemma drop_us_map_inv (ms u : string) :
  drop_us ms u -> forall s, ms = map_chars to_space s ->
  exists t, u = map_chars to_space t /\ drop_us s t.
Proof.
  induction 1 as [|c' ms' u' Hc _ IH|c' d' ms'' u' Hc Hd _ IH]; intros s Hs.
  - destruct s; [|discriminate]. exists EmptyString. split; [reflexivity|constructor].
  - destruct s as [|c s']; [discriminate|]. simpl in Hs. injection Hs as -> ->.
    destruct (IH s' eq_refl) as (t' & -> & Ht').
    exists (String c t'). split; [reflexivity|]. constructor; [|assumption].
    destruct (to_space_facts c) as (_ & _ & F & _).
    intros ->. now apply Hc.
  - destruct s as [|c [|x [|d s'']]]; try discriminate. simpl in Hs.
    injection Hs as -> Hx -> ->.
    destruct (to_space_facts c) as (_ & _ & _ & _ & Fc & _).
    destruct (to_space_facts d) as (_ & _ & _ & _ & Fd & _).
    destruct (to_space_facts x) as (_ & _ & Fx & _).
    assert (x = "_"%char) as ->.
    { apply Ascii.eqb_eq. rewrite Fx, <- Hx. reflexivity. }
    destruct (IH (String d s'') eq_refl) as (t' & -> & Ht').
    exists (String c t'). split; [reflexivity|].
    rewrite (Fc Hc) in Hc. rewrite (Fd Hd) in Hd. now constructor.
Qed.

Lemma map_chars_core (s : string) :
  all_chars core_char (map_chars to_space s) = true -> map_chars to_space s = s.
Proof.
  induction s as [|c s IH]; simpl; [reflexivity|].
  intros H. apply andb_true_iff in H as [Hc Hs].
  destruct (to_space_facts c) as (_ & F & _). now rewrite (F Hc), IH.
Qed.

Lemma map_chars_core_id (s : string) :
  all_chars core_char s = true -> map_chars to_space s = s.
Proof.
  induction s as [|c s IH]; simpl; [reflexivity|].
  intros H. apply andb_true_iff in H as [Hc Hs].
  destruct (to_space_facts c) as (F & _). now rewrite (F Hc), IH.
Qed.

Lemma map_chars_blank (s : string) :
  all_chars c_isspace (map_chars to_space s) = all_chars float_blank s.
Proof.
  induction s as [|c s IH]; simpl; [reflexivity|].
  destruct (to_space_facts c) as (_ & _ & _ & _ & _ & F & _). now rewrite F, IH.
Qed.

Lemma transform_length (s : string) :
  (String.length (_PyUnicode_TransformDecimalAndSpaceToASCII s) <= String.length s)%nat.
Proof.
  unfold _PyUnicode_TransformDecimalAndSpaceToASCII.
  destruct (all_chars isascii s); [lia|].
  induction s as [|c s IH]; simpl; [lia|].
  destruct (code c <? 127)%N; simpl; [lia|]. destruct (isspace c); simpl; lia.
Qed.

Lemma literal_char_cases :
  literal_char "_" = true /\ ascii_literal_char "_" = true /\
  (forall c, float_blank c = true -> literal_char c = true) /\
  (forall c, c_isspace c = true -> ascii_literal_char c = true) /\
  (forall c, core_char c = true -> literal_char c = true) /\
  (forall c, core_char c = true -> ascii_literal_char c = true).
Proof.
  unfold literal_char, ascii_literal_char.
  repeat split; try reflexivity; intros c ->; rewrite ?orb_true_r; reflexivity.
Qed.

(** [float(s)] succeeds exactly on the texts of [float_literal]. *)
Lemma float_of_str_iff (s : string) :
  Z.of_nat (String.length s) <= MAX_DIGITS ->
  (exists x, float_of_str s = Ok x) <-> float_literal s.
Proof.
  intros Hlen.
  destruct literal_char_cases as (L1 & L2 & L3 & L4 & L5 & L6).
  pose proof (transform_length s) as HT.
  assert (Hnum : (exists x, float_of_str s = Ok x) <->
                 exists x, _Py_string_to_number_with_underscores
                             (_PyUnicode_TransformDecimalAndSpaceToASCII s) = Some x).
  { unfold float_of_str.
    destruct (_Py_string_to_number_with_underscores _) as [y|]; split; intros [x H];
      try discriminate; eauto. }
  rewrite Hnum, number_iff. clear Hnum. split.
  - intros (u & Hu & Hx).
    pose proof (drop_us_length _ _ Hu) as Hlu.
    apply inner_iff in Hx; [|lia]. destruct Hx as (w1 & v & w2 & Eu & Hw1 & Hw2 & Hv).
    pose proof (framed_chars c_isspace ascii_literal_char _ _ _ _ _ L2 L4 L6 Hu Eu Hw1 Hw2 Hv)
      as Hchars.
    destruct (all_chars literal_char s) eqn:Es;
      [|now rewrite (transform_other_chars s Es) in Hchars].
    rewrite (transform_literal_chars s Es) in Hu.
    destruct (drop_us_map_inv _ _ Hu s eq_refl) as (t & Et & Ht).
    rewrite Eu in Et. symmetry in Et.
    apply map_chars_split in Et as (t1 & t' & -> & E1 & E').
    apply map_chars_split in E' as (t2 & t3 & -> & E2 & E3).
    assert (t2 = v) as ->.
    { rewrite <- E2. symmetry. apply map_chars_core. rewrite E2.
      apply (float_text_chars v Hv). }
    exists (t1 ++ v ++ t3)%string, t1, v, t3.
    repeat split; try assumption.
    + now rewrite <- map_chars_blank, E1.
    + now rewrite <- map_chars_blank, E3.
  - intros (t & w1 & v & w2 & Ht & Et & Hw1 & Hw2 & Hv).
    pose proof (framed_chars float_blank literal_char _ _ _ _ _ L1 L3 L5 Ht Et Hw1 Hw2 Hv)
      as Hchars.
    rewrite (transform_literal_chars s Hchars).
    exists (map_chars to_space t). split; [now apply drop_us_map|].
    pose proof (drop_us_length _ _ Ht) as Hlt.
    apply inner_iff; [rewrite map_chars_length; lia|].
    exists (map_chars to_space w1), v, (map_chars to_space w2).
    rewrite Et, !map_chars_app, !map_chars_blank.
    rewrite (map_chars_core_id v (proj1 (float_text_chars v Hv))). auto.
Qed.

(** *** The decimal literals of the specification *)

Lemma decimal_literal_chars (s : string) :
  decimal_literal s -> all_chars decimal_char s = true.
Proof.
  assert (Hd : forall ds, all_digits ds -> all_chars decimal_char ds = true).
  { intros ds. apply all_chars_impl. intros c Hc. unfold decimal_char. now rewrite Hc. }
  intros (sg & ip & fr & -> & Hsg & Hip & _ & Hfr).
  rewrite !all_chars_app, (Hd ip Hip).
  assert (all_chars decimal_char sg = true) as -> by now destruct Hsg as [-> | [-> | ->]].
  destruct Hfr as [-> | (fp & -> & Hfp & _)]; [reflexivity|].
  simpl. now rewrite (Hd fp Hfp).
Qed.

Lemma decimal_literal_accepted (s : string) : decimal_literal s -> float_literal s.
Proof.
  intros H. pose proof (decimal_literal_chars s H) as Hchars.
  destruct H as (sg & ip & fr & -> & Hsg & Hip & Hne & Hfr).
  set (s := (sg ++ ip ++ fr)%string) in *.
  assert (Hus : contains "_" s = false).
  { clearbody s. induction s as [|c s IH]; simpl in *; [reflexivity|].
    apply andb_true_iff in Hchars as [Hc Hs]. rewrite (IH Hs), orb_false_r.
    clear IH Hs. revert Hc. ascii_cases c. }
  exists s, EmptyString, s, EmptyString.
  split; [now apply drop_us_no_underscore|].
  split; [now rewrite string_app_nil_r|]. split; [reflexivity|]. split; [reflexivity|].
  exists sg, (ip ++ fr)%string. split; [reflexivity|]. split; [assumption|]. right.
  exists (ip ++ fr)%string, EmptyString. split; [now rewrite string_app_nil_r|].
  split; [|now left].
  destruct Hfr as [-> | (fp & -> & Hfp & _)].
  - exists ip, EmptyString. rewrite !string_app_nil_r.
    split; [assumption|]. split; [reflexivity|]. split; [now left|assumption].
  - exists ip, fp. split; [assumption|]. split; [assumption|]. split; [now right|].
    now destruct ip.
Qed.

(** ** The counts and the log of a call *)

Lemma processar_readable (self : TemperatureProcessor) (rows : list (list string)) :
  processar self (rows_source rows) =
  (fst (fst (_gerar_resultados (feed self (valid_records rows)))),
   INFO_iniciando (path self) :: warnings rows ++ [INFO_calculando],
   snd (_gerar_resultados (feed self (valid_records rows)))).
Proof.
  unfold processar, rows_source. simpl. rewrite processar_rows_eq.
  unfold _gerar_resultados.
  now destruct (gerar_loop (feed self (valid_records rows))
                  (medicoes (feed self (valid_records rows))) []) as [self2 r].
Qed.

Lemma gerar_loop_medicoes (its : list (string * Z)) (self : TemperatureProcessor)
    (acc : dict stats) :
  medicoes (fst (gerar_loop self its acc)) = medicoes self /\
  path (fst (gerar_loop self its acc)) = path self.
Proof.
  revert self acc. induction its as [|[station qtd] its IH]; intros self acc; simpl.
  - split; reflexivity.
  - destruct (qtd =? 0); [apply IH|].
    destruct (getitem_default PyFloat.zero (somas self) station) as [sm somas'].
    destruct (PyFloat.truediv_int sm qtd) as [mean|e]; [|split; reflexivity].
    simpl minimas. simpl maximas.
    destruct (getitem_default PyFloat.inf (minimas self) station) as [mn minimas'].
    destruct (getitem_default PyFloat.neg_inf (maximas self) station) as [mx maximas'].
    destruct (IH (mkProcessor (path self) minimas' maximas' somas' (medicoes self))
                 (set acc station (mn, mean, mx))) as [E1 E2].
    split; [exact E1|exact E2].
Qed.

Lemma gerar_resultados_medicoes (self : TemperatureProcessor) :
  medicoes (fst (fst (_gerar_resultados self))) = medicoes self /\
  path (fst (fst (_gerar_resultados self))) = path self.
Proof.
  unfold _gerar_resultados.
  pose proof (gerar_loop_medicoes (medicoes self) self []) as H.
  now destruct (gerar_loop self (medicoes self) []) as [self' r].
Qed.

Lemma total_count_update (d : dict Z) (k : string) :
  total_count (set d k (lookup_or 0 d k + 1)) = total_count d + 1.
Proof.
  unfold lookup_or. induction d as [|[k' c] d IH]; simpl; [lia|].
  destruct (k' =? k)%string; simpl; lia.
Qed.

Lemma total_count_feed (recs : list (string * PyFloat.float)) (self : TemperatureProcessor) :
  total_count (medicoes (feed self recs)) =
  total_count (medicoes self) + Z.of_nat (List.length recs).
Proof.
  revert self. unfold feed. induction recs as [|[k v] recs IH]; intros self.
  - simpl. lia.
  - simpl fold_left. rewrite IH, atualizar_eq. simpl medicoes.
    rewrite total_count_update. simpl List.length. lia.
Qed.

Lemma warnings_count (rows : list (list string)) :
  (List.length (filter is_warning (warnings rows)) + List.length (valid_records rows)
   = List.length rows)%nat.
Proof.
  unfold warnings, valid_records. induction rows as [|row rows IH]; simpl; [reflexivity|].
  destruct (_parse_row row); simpl; rewrite ?length_app; simpl; lia.
Qed.

Lemma filter_warnings_log (ws : list log_record) (p : string) :
  filter is_warning (INFO_iniciando p :: ws ++ [INFO_calculando]) = filter is_warning ws.
Proof. simpl. rewrite filter_app. simpl. apply app_nil_r. Qed.

Lemma processar_reader_error (self : TemperatureProcessor) (rows : list (list string))
    (e : exn) :
  processar self (Readable (Csv.mkStream rows (Some e))) =
  (feed self (valid_records rows),
   INFO_iniciando (path self) :: warnings rows ++ [ERROR_ao_processar e],
   Raise e).
Proof. unfold processar. simpl. now rewrite processar_rows_eq. Qed.

(** ** NaN among the values *)

Lemma is_nan_eq (x : PyFloat.float) : PyFloat.is_nan x = true -> x = PyFloat.nan.
Proof. now destruct x. Qed.

Lemma fold_min_not_nan (vs : list PyFloat.float) (m0 : PyFloat.float) :
  fold_left PyFloat.min vs m0 = fold_left PyFloat.min (not_nan vs) m0.
Proof.
  revert m0. unfold not_nan. induction vs as [|v vs IH]; intros m0; simpl; [reflexivity|].
  destruct (PyFloat.is_nan v) eqn:E; simpl; [|apply IH].
  apply is_nan_eq in E. subst v. unfold PyFloat.min at 2. rewrite lt_nan_l. apply IH.
Qed.

Lemma fold_max_not_nan (vs : list PyFloat.float) (m0 : PyFloat.float) :
  fold_left PyFloat.max vs m0 = fold_left PyFloat.max (not_nan vs) m0.
Proof.
  revert m0. unfold not_nan. induction vs as [|v vs IH]; intros m0; simpl; [reflexivity|].
  destruct (PyFloat.is_nan v) eqn:E; simpl; [|apply IH].
  apply is_nan_eq in E. subst v. unfold PyFloat.max at 2, PyFloat.gt.
  change (SFltb m0 PyFloat.nan) with (PyFloat.lt m0 PyFloat.nan).
  rewrite lt_nan_r. apply IH.
Qed.

Lemma not_nan_Forall (vs : list PyFloat.float) :
  Forall (fun x => PyFloat.is_nan x = false) (not_nan vs).
Proof.
  apply Forall_forall. intros x Hx. apply filter_In in Hx as [_ Hx].
  now destruct (PyFloat.is_nan x).
Qed.

Lemma add_nan_l (x : PyFloat.float) : PyFloat.add PyFloat.nan x = PyFloat.nan.
Proof. reflexivity. Qed.

Lemma add_nan_r (x : PyFloat.float) : PyFloat.add x PyFloat.nan = PyFloat.nan.
Proof. now destruct x. Qed.

Lemma fold_add_nan (vs : list PyFloat.float) :
  fold_left PyFloat.add vs PyFloat.nan = PyFloat.nan.
Proof. induction vs as [|v vs IH]; simpl; [reflexivity|exact IH]. Qed.

Lemma fold_add_In_nan (vs : list PyFloat.float) (a : PyFloat.float) :
  In PyFloat.nan vs -> fold_left PyFloat.add vs a = PyFloat.nan.
Proof.
  revert a. induction vs as [|v vs IH]; intros a; simpl; [intros []|].
  intros [-> | Hin]; [|now apply IH].
  rewrite add_nan_r. apply fold_add_nan.
Qed.

Lemma In_values_of (k : string) (v : PyFloat.float) (recs : list (string * PyFloat.float)) :
  In (k, v) recs -> In v (values_of k recs).
Proof.
  intros Hin. unfold values_of. apply in_map_iff. exists (k, v). split; [reflexivity|].
  apply filter_In. split; [assumption|]. simpl. apply String.eqb_refl.
Qed.

Lemma div_nan_l (m : positive) (e : Z) :
  PyFloat.div PyFloat.nan (S754_finite false m e) = PyFloat.nan.
Proof. reflexivity. Qed.

(** ** Calls of [processar] one after the other *)

Lemma path_feed (recs : list (string * PyFloat.float)) (self : TemperatureProcessor) :
  path (feed self recs) = path self.
Proof.
  revert self. unfold feed. induction recs as [|[k v] recs IH]; intros self; simpl;
    [reflexivity|].
  rewrite IH. now rewrite atualizar_eq.
Qed.

Lemma processar_fresh (p : string) (rows : list (list string)) :
  processar (fresh p) (rows_source rows) =
  (feed (fresh p) (valid_records rows),
   INFO_iniciando p :: warnings rows ++ [INFO_calculando],
   snd (_gerar_resultados (feed (fresh p) (valid_records rows)))).
Proof.
  rewrite processar_readable.
  now rewrite gerar_resultados_state by apply same_keys_feed, same_keys_fresh.
Qed.

(** ** The stations of the Report *)

(** The Report of a run on a new processor. *)
Lemma fresh_report (p : string) (rows : list (list string)) :
  Z.of_nat (List.length rows) < 2 ^ 53 ->
  let out := processar (fresh p) (rows_source rows) in
  Forall (fun kc => 1 <= snd kc) (medicoes (fst (fst out))) /\
  exists report,
    snd out = Ok report /\
    (forall k, In k (keys report) <-> In k (map fst (valid_records rows))) /\
    List.length report = List.length (medicoes (fst (fst out))) /\
    List.length report = List.length (nodup string_dec (map fst (valid_records rows))).
Proof.
  intros Hlen out. subst out. rewrite processar_fresh. cbn [fst snd].
  set (recs := valid_records rows). set (self := feed (fresh p) recs).
  assert (Hnd : NoDup (keys (medicoes self))) by (apply NoDup_medicoes_feed; constructor).
  assert (Hc : forall k c, In (k, c) (medicoes self) -> 0 < c < 2 ^ 53).
  { intros k c Hkc. apply counts_feed_fresh in Hkc.
    pose proof (valid_records_length rows). fold recs in H. lia. }
  split.
  { apply Forall_forall. intros [k c] Hkc. specialize (Hc k c Hkc). simpl. lia. }
  assert (Hb : Forall (fun kc => 0 <= snd kc < 2 ^ 53) (medicoes self)).
  { apply Forall_forall. intros [k c] Hkc. specialize (Hc k c Hkc). simpl. lia. }
  destruct (gerar_resultados_spec self Hnd Hb) as (report & Hr & Hkeys & _ & Hasc & _).
  exists report. split; [exact Hr|].
  assert (Hiff : forall k, In k (keys report) <-> In k (keys (medicoes self))).
  { intros k. rewrite Hkeys. split.
    - intros (c & Hget & _). apply get_Some_In in Hget.
      apply in_map_iff. now exists (k, c).
    - intros Hin. apply in_map_iff in Hin as ([k' c] & <- & Hkc).
      exists c. split; [now apply In_get|]. specialize (Hc k' c Hkc). lia. }
  assert (Hlen' : List.length report = List.length (medicoes self)).
  { rewrite <- !length_keys. apply Permutation_length, NoDup_Permutation;
      [now apply ascending_NoDup|assumption|exact Hiff]. }
  split; [|split; [exact Hlen'|]].
  - intros k. rewrite Hiff. apply keys_feed_fresh.
  - rewrite Hlen'. apply dict_size_feed_fresh.
Qed.

(** ** The order of the keys of the table *)

Lemma first_seen_ext (seen seen' l : list string) :
  (forall k, In k seen <-> In k seen') -> first_seen seen l = first_seen seen' l.
Proof.
  revert seen seen'. induction l as [|k r IH]; intros seen seen' H; simpl; [reflexivity|].
  destruct (in_dec string_dec k seen) as [Hin|Hnotin],
           (in_dec string_dec k seen') as [Hin'|Hnotin'].
  - now apply IH.
  - exfalso. now apply Hnotin', H.
  - exfalso. now apply Hnotin, H.
  - f_equal. apply IH. intros k0. simpl. now rewrite H.
Qed.

Lemma keys_medicoes_feed (recs : list (string * PyFloat.float)) (self : TemperatureProcessor) :
  keys (medicoes (feed self recs)) =
  keys (medicoes self) ++ first_seen (keys (medicoes self)) (map fst recs).
Proof.
  revert self. unfold feed. induction recs as [|[k v] recs IH]; intros self.
  - simpl. now rewrite app_nil_r.
  - simpl fold_left. rewrite IH, atualizar_eq. simpl medicoes. simpl map. simpl first_seen.
    destruct (in_dec string_dec k (keys (medicoes self))) as [Hin|Hnotin].
    + now rewrite keys_set_present.
    + rewrite keys_set_absent by assumption. rewrite <- app_assoc. simpl. f_equal. f_equal.
      apply first_seen_ext. intros k0. rewrite in_app_iff. simpl. tauto.
Qed.

(** ** A count without values, and a count of zero *)

Lemma div_zero_l (m : positive) (e : Z) :
  PyFloat.div PyFloat.zero (S754_finite false m e) = PyFloat.zero.
Proof. reflexivity. Qed.

(** ** The name of the station *)

Lemma lstrip_blanks (p : ascii -> bool) (w s : string) :
  all_chars p w = true -> lstrip_with p (w ++ s) = lstrip_with p s.
Proof.
  induction w as [|x w IH]; simpl; [reflexivity|].
  intros H. apply andb_true_iff in H as [Hx Hw]. rewrite Hx. now apply IH.
Qed.

Lemma rstrip_blanks (p : ascii -> bool) (s w : string) :
  all_chars p w = true -> rstrip_with p (s ++ w) = rstrip_with p s.
Proof.
  intros Hw. induction s as [|x s IH].
  - apply (rstrip_app p EmptyString w Hw). discriminate.
  - change ((String x s ++ w)%string) with (String x (s ++ w)%string).
    simpl. now rewrite IH.
Qed.

Lemma strip_blanks (w1 s w2 : string) :
  all_chars isspace w1 = true -> all_chars isspace w2 = true ->
  strip (w1 ++ s ++ w2) = strip s.
Proof.
  intros H1 H2. unfold strip. rewrite (lstrip_blanks isspace w1 _ H1).
  induction s as [|x s IH].
  - simpl. now rewrite (lstrip_self isspace w2 H2).
  - change ((String x s ++ w2)%string) with (String x (s ++ w2)%string).
    simpl lstrip_with. destruct (isspace x); [exact IH|].
    change (String x (s ++ w2)%string) with ((String x s ++ w2)%string).
    now apply rstrip_blanks.
Qed.

Lemma strip_strip (s : string) : strip (strip s) = strip s.
Proof.
  destruct (strip_spec s) as (_ & Hfirst & Hlast).
  assert (E : lstrip_with isspace (strip s) = strip s)
    by exact (lstrip_app isspace EmptyString (strip s) eq_refl Hfirst).
  unfold strip at 1. rewrite E.
  rewrite <- (string_app_nil_r (strip s)) at 1. now apply rstrip_app.
Qed.

(** ** Measurements with one digit after the point *)

Lemma all_below_spec (f : Z -> bool) (n : nat) :
  all_below f n = true -> forall i, 0 <= i < Z.of_nat n -> f i = true.
Proof.
  induction n as [|n IH]; simpl; intros H i Hi; [lia|].
  apply andb_true_iff in H as [Hn H].
  destruct (Z.eq_dec i (Z.of_nat n)) as [->|Hne]; [exact Hn|].
  apply IH; [exact H|lia].
Qed.

Lemma prints_back_below_1000 :
  all_below (prints_back false) (Z.to_nat 1000) = true /\
  all_below (prints_back true) (Z.to_nat 1000) = true.
Proof. split; vm_compute; reflexivity. Qed.

Lemma single_row_report (p k f1 : string) (x mean : PyFloat.float) :
  float_of_str f1 = Ok x ->
  PyFloat.truediv_int (PyFloat.add PyFloat.zero x) 1 = Ok mean ->
  snd (processar (fresh p) (rows_source [[k; f1]])) =
  Ok [(strip k,
       format_stats (PyFloat.min PyFloat.inf x, mean, PyFloat.max PyFloat.neg_inf x))].
Proof.
  intros Hx Hmean. rewrite processar_fresh. cbn [snd].
  unfold valid_records. simpl flat_map. unfold _parse_row. rewrite Hx. simpl bind.
  set (nome := strip k). simpl app.
  set (self := feed (fresh p) [(nome, x)]).
  assert (Eself : self = mkProcessor p [(nome, PyFloat.min PyFloat.inf x)]
                           [(nome, PyFloat.max PyFloat.neg_inf x)]
                           [(nome, PyFloat.add PyFloat.zero x)] [(nome, 1)]).
  { subst self. unfold feed. cbn [fold_left fst snd]. rewrite atualizar_eq. reflexivity. }
  rewrite (gerar_resultados_report self
             (fun _ _ => (PyFloat.min PyFloat.inf x, mean, PyFloat.max PyFloat.neg_inf x))).
  - rewrite Eself. reflexivity.
  - rewrite Eself. simpl. constructor; [intros []|constructor].
  - rewrite Eself. intros k0 c [[= <- <-]|[]] _.
    unfold station_stats, lookup_or. cbn [somas minimas maximas get].
    rewrite String.eqb_refl, Hmean. reflexivity.
Qed.

(** ** The main block *)

Lemma map_PROCESSOR_app (a b : list log_record) :
  map PROCESSOR (a ++ b) = map PROCESSOR a ++ map PROCESSOR b.
Proof. apply map_app. Qed.

Lemma run_readable (p : string) (rows : Csv.stream (list string)) :
  run (PathObj p) (Readable rows) =
  (snd (fst (processar (fresh p) (Readable rows))), snd (processar (fresh p) (Readable rows))).
Proof.
  unfold run. simpl __init__. change (mkProcessor p [] [] [] []) with (fresh p).
  cbv iota beta. now destruct (processar (fresh p) (Readable rows)) as [[self log] r].
Qed.

(** ** The lines of the file *)

Lemma one_line_cons (c : ascii) (l : string) :
  one_line (String c l) -> (c =? LF)%char = false /\ (c =? CR)%char = false /\ one_line l.
Proof.
  unfold one_line, is_newline. simpl. intros H. apply andb_true_iff in H as [Hc Hl].
  destruct (c =? LF)%char, (c =? CR)%char; try discriminate. auto.
Qed.

Lemma universal_newlines_line (l rest : string) :
  one_line l -> universal_newlines (l ++ rest) = (l ++ universal_newlines rest)%string.
Proof.
  induction l as [|c l IH]; intros H; [reflexivity|].
  apply one_line_cons in H as (_ & Hcr & Hl).
  change ((String c l ++ rest)%string) with (String c (l ++ rest)%string).
  simpl. rewrite Hcr. now rewrite IH.
Qed.

Lemma split_lines_line (l rest : string) :
  one_line l -> split_lines (l ++ nl ++ rest) = (l ++ nl)%string :: split_lines rest.
Proof.
  induction l as [|c l IH]; intros H; [reflexivity|].
  apply one_line_cons in H as (Hlf & _ & Hl).
  change ((String c l ++ nl ++ rest)%string) with (String c (l ++ nl ++ rest)%string).
  cbn [split_lines]. rewrite Hlf. now rewrite IH.
Qed.

Lemma join_lines_cons (eol l : string) (lines : list string) :
  join_lines eol (l :: lines) = (l ++ eol ++ join_lines eol lines)%string.
Proof. reflexivity. Qed.

Lemma split_lines_join (lines : list string) :
  Forall one_line lines ->
  split_lines (join_lines nl lines) = map (fun l => (l ++ nl)%string) lines.
Proof.
  induction 1 as [|l lines Hl _ IH]; [reflexivity|].
  rewrite join_lines_cons, split_lines_line, IH by assumption. reflexivity.
Qed.

(** The text after a line ending [cr] does not start with a line feed. *)
Lemma join_lines_cr_first (lines : list string) :
  Forall one_line lines ->
  forall c, first_char (join_lines cr lines) = Some c -> (c =? LF)%char = false.
Proof.
  intros H. destruct H as [|l lines Hl _]; [discriminate|].
  rewrite join_lines_cons. destruct l as [|x l]; simpl.
  - now intros c [= <-].
  - intros c [= <-]. now apply one_line_cons in Hl.
Qed.

Lemma universal_newlines_join (lines : list string) :
  Forall one_line lines ->
  universal_newlines (join_lines nl lines) = join_lines nl lines /\
  universal_newlines (join_lines crlf lines) = join_lines nl lines /\
  universal_newlines (join_lines cr lines) = join_lines nl lines.
Proof.
  induction 1 as [|l lines Hl Hlines (IH1 & IH2 & IH3)]; [repeat split|].
  rewrite !join_lines_cons.
  rewrite (universal_newlines_line l (nl ++ join_lines nl lines) Hl).
  rewrite (universal_newlines_line l (crlf ++ join_lines crlf lines) Hl).
  rewrite (universal_newlines_line l (cr ++ join_lines cr lines) Hl).
  split; [|split].
  - change (universal_newlines (nl ++ join_lines nl lines))
      with (nl ++ universal_newlines (join_lines nl lines))%string.
    now rewrite IH1.
  - change (universal_newlines (crlf ++ join_lines crlf lines))
      with (nl ++ universal_newlines (join_lines crlf lines))%string.
    now rewrite IH2.
  - pose proof (join_lines_cr_first lines Hlines) as Hfirst.
    rewrite <- IH3.
    destruct (join_lines cr lines) as [|c r] eqn:E; [reflexivity|].
    change (universal_newlines (cr ++ String c r))
      with (nl ++ (if (c =? LF)%char then universal_newlines r
                   else universal_newlines (String c r)))%string.
    now rewrite (Hfirst c eq_refl).
Qed.

Lemma file_lines_join (lines : list string) :
  Forall one_line lines ->
  file_lines (join_lines nl lines) = map (fun l => (l ++ nl)%string) lines /\
  file_lines (join_lines crlf lines) = map (fun l => (l ++ nl)%string) lines /\
  file_lines (join_lines cr lines) = map (fun l => (l ++ nl)%string) lines.
Proof.
  intros H. unfold file_lines.
  destruct (universal_newlines_join lines H) as (-> & -> & ->).
  now rewrite split_lines_join.
Qed.

Lemma plain_line_one_line (l : string) : plain_line l -> one_line l.
Proof.
  intros [H _]. unfold one_line. revert H. apply all_chars_impl.
  intros c Hc. apply plain_char_spec in Hc as [_ Hc]. now rewrite Hc.
Qed.

(** The rows of a file of plain lines. *)
Lemma file_source_plain (lines : list string) :
  Forall plain_line lines ->
  file_source (join_lines nl lines) = rows_source (map line_fields lines).
Proof.
  intros H. unfold file_source, rows_source.
  assert (H1 : Forall one_line lines).
  { revert H. apply Forall_impl. exact plain_line_one_line. }
  destruct (file_lines_join lines H1) as (-> & _).
  pose proof (reader_plain_lines lines [] H (or_introl eq_refl)) as E.
  rewrite !app_nil_r in E. now rewrite E.
Qed.

Lemma warnings_blank (n : nat) :
  warnings (repeat [] n) = repeat (WARNING_linha_ignorada [] IndexError) n /\
  valid_records (repeat [] n) = [].
Proof.
  unfold warnings, valid_records. induction n as [|n [IH1 IH2]]; simpl; [split; reflexivity|].
  now rewrite IH1, IH2.
Qed.

(** ** The limit on the length of a field *)

Lemma field_char_spec (c : ascii) :
  field_char c = true ->
  (c =? quotechar)%char = false /\ is_newline c = false /\ (c =? delimiter)%char = false.
Proof.
  unfold field_char. intros H. apply andb_true_iff in H as [Hp Hd].
  apply plain_char_spec in Hp as [Hq Hn]. unfold quotechar.
  destruct (c =? delimiter)%char; [discriminate|]. auto.
Qed.

(** Inside a field, the reader refuses the character that would make the
    field longer than the limit. *)
Lemma long_field_overflows (s : string) (self : ReaderObj) (tail : string) :
  all_chars field_char s = true ->
  state self = IN_FIELD ->
  field_len self <= field_limit ->
  field_limit < field_len self + Z.of_nat (String.length s) ->
  parse_line self (s ++ tail) = Raise csv_Error.
Proof.
  revert self. induction s as [|c r IH]; intros [st fs fl n] Hs Hst Hle Hlt;
    simpl state in *; simpl field_len in *; subst st.
  - simpl String.length in Hlt. lia.
  - simpl in Hs. apply andb_true_iff in Hs as [Hc Hr].
    destruct (field_char_spec c Hc) as (Hq & Hn & Hd).
    change ((String c r ++ tail)%string) with (String c (r ++ tail)%string).
    change (parse_line (mkReader IN_FIELD fs fl n) (String c (r ++ tail)))
      with (self' <- parse_process_char (mkReader IN_FIELD fs fl n) (Some c) ;;
            parse_line self' (r ++ tail)).
    assert (Hstep : parse_process_char (mkReader IN_FIELD fs fl n) (Some c) =
                    parse_add_char (mkReader IN_FIELD fs fl n) c).
    { unfold parse_process_char. simpl state. cbv iota beta. now rewrite Hn, Hd. }
    rewrite Hstep. unfold parse_add_char. simpl field_len.
    destruct (field_limit <=? n) eqn:El; [reflexivity|].
    simpl bind. apply IH; cbn [state field_len]; try assumption; try reflexivity.
    + apply Z.leb_gt in El. lia.
    + simpl String.length in Hlt. lia.
Qed.

Lemma long_line_overflows (long tail : string) :
  all_chars field_char long = true ->
  field_limit < Z.of_nat (String.length long) ->
  parse_line parse_reset (long ++ tail) = Raise csv_Error.
Proof.
  intros Hs Hlt. destruct long as [|c r]; [simpl in Hlt; unfold field_limit in Hlt; lia|].
  simpl in Hs. apply andb_true_iff in Hs as [Hc Hr].
  destruct (field_char_spec c Hc) as (Hq & Hn & Hd).
  change ((String c r ++ tail)%string) with (String c (r ++ tail)%string).
  change (parse_line parse_reset (String c (r ++ tail)))
    with (self' <- parse_process_char parse_reset (Some c) ;; parse_line self' (r ++ tail)).
  assert (Hstep : parse_process_char parse_reset (Some c) =
                  Ok (mkReader IN_FIELD [] [c] 1)).
  { unfold parse_process_char, parse_reset. simpl.
    rewrite Hn. unfold quotechar, delimiter in *. rewrite Hq, Hd. reflexivity. }
  rewrite Hstep. simpl bind.
  apply long_field_overflows; cbn [state field_len]; try assumption; try reflexivity.
  - unfold field_limit. lia.
  - simpl String.length in Hlt. lia.
Qed.

(** The reader over plain lines followed by more lines. *)
Lemma reader_plain_prefix (lines more : list string) :
  Forall plain_line lines ->
  reader (map (fun l => (l ++ nl)%string) lines ++ more) =
  mkStream (map line_fields lines ++ items (reader more)) (ending (reader more)).
Proof.
  intros Hall. unfold reader. induction Hall as [|line lines Hline _ IH].
  - simpl. now destruct (reader_from parse_reset more).
  - simpl. destruct (parse_plain_record line nl Hline (or_intror eq_refl))
      as (self' & E & S & F).
    rewrite E, S. simpl. rewrite IH. unfold yield. simpl. now rewrite F.
Qed.

(** ** A quoted first field *)

Lemma quoted_char_spec (c : ascii) :
  quoted_char c = true -> (c =? quotechar)%char = false /\ is_newline c = false.
Proof.
  unfold quoted_char. destruct (c =? quotechar)%char, (is_newline c); simpl;
    intros H; try discriminate; auto.
Qed.

(** Inside a quoted field the reader keeps every character that is no
    double quote. *)
Lemma parse_quoted_chars (s : string) (self : ReaderObj) (rest : string) :
  all_chars quoted_char s = true ->
  state self = IN_QUOTED_FIELD ->
  field_len self + Z.of_nat (String.length s) <= field_limit ->
  parse_line self (s ++ rest) =
  parse_line (mkReader IN_QUOTED_FIELD (fields self)
                (rev (list_ascii_of_string s) ++ field self)
                (field_len self + Z.of_nat (String.length s))) rest.
Proof.
  revert self. induction s as [|c r IH]; intros [st fs fl n] Hs Hst Hlim;
    simpl state in *; simpl fields in *; simpl field in *; simpl field_len in *; subst st.
  - simpl. now rewrite Z.add_0_r.
  - simpl in Hs. apply andb_true_iff in Hs as [Hc Hr].
    destruct (quoted_char_spec c Hc) as [Hq Hn].
    change ((String c r ++ rest)%string) with (String c (r ++ rest)%string).
    change (parse_line (mkReader IN_QUOTED_FIELD fs fl n) (String c (r ++ rest)))
      with (self' <- parse_process_char (mkReader IN_QUOTED_FIELD fs fl n) (Some c) ;;
            parse_line self' (r ++ rest)).
    assert (Hstep : parse_process_char (mkReader IN_QUOTED_FIELD fs fl n) (Some c) =
                    Ok (mkReader IN_QUOTED_FIELD fs (c :: fl) (n + 1))).
    { unfold parse_process_char. simpl state. cbv iota beta. rewrite Hq.
      unfold parse_add_char. simpl field_len.
      simpl String.length in Hlim.
      destruct (field_limit <=? n) eqn:El; [apply Z.leb_le in El; lia|reflexivity]. }
    rewrite Hstep. simpl bind.
    rewrite IH; cbn [state fields field field_len]; try assumption; try reflexivity.
    + simpl list_ascii_of_string. simpl rev. rewrite <- app_assoc. simpl app.
      simpl String.length. do 2 f_equal. lia.
    + simpl String.length in Hlim. lia.
Qed.

Lemma string_of_rev_rev (s : string) :
  string_of_list_ascii (rev (rev (list_ascii_of_string s) ++ [])) = s.
Proof. now rewrite app_nil_r, rev_involutive, string_of_list_ascii_of_string. Qed.

Lemma parse_quoted_line (name rest : string) :
  all_chars quoted_char name = true ->
  Z.of_nat (String.length name) <= field_limit ->
  plain_line rest ->
  exists self',
    parse_line parse_reset
      ((String quotechar name ++ String quotechar (String delimiter rest)) ++ nl) = Ok self' /\
    state self' = START_RECORD /\ fields self' = name :: split_on ";" rest.
Proof.
  intros Hname Hlen [Hplain Hlim].
  assert (E1 : ((String quotechar name ++ String quotechar (String delimiter rest)) ++ nl)%string
               = String quotechar (name ++ String quotechar (String delimiter (rest ++ nl)))).
  { simpl. f_equal. now rewrite string_app_assoc. }
  rewrite E1.
  change (parse_line parse_reset
            (String quotechar (name ++ String quotechar (String delimiter (rest ++ nl)))))
    with (parse_line (mkReader IN_QUOTED_FIELD [] [] 0)
            (name ++ String quotechar (String delimiter (rest ++ nl)))).
  assert (Hlen' : field_len (mkReader IN_QUOTED_FIELD [] [] 0)
                  + Z.of_nat (String.length name) <= field_limit) by (simpl; lia).
  rewrite (parse_quoted_chars name (mkReader IN_QUOTED_FIELD [] [] 0) _ Hname eq_refl Hlen').
  cbn [state fields field field_len].
  match goal with
  | |- context [parse_line ?r (String quotechar (String delimiter (rest ++ nl)))] =>
      change (parse_line r (String quotechar (String delimiter (rest ++ nl))))
        with (parse_line (mkReader START_FIELD
                [string_of_list_ascii (rev (rev (list_ascii_of_string name) ++ []))]
                [] 0) (rest ++ nl))
  end.
  rewrite string_of_rev_rev.
  destruct (parse_plain_line rest (mkReader START_FIELD [name] [] 0) nl Hplain
              (or_intror eq_refl) (or_intror (conj eq_refl eq_refl)) eq_refl Hlim)
    as (self' & E & S & F).
  exists self'. split; [exact E|]. split; [exact S|].
  rewrite F. simpl.
  destruct (split_on ";" rest) as [|f fs] eqn:Es; [now apply split_on_nonempty in Es|].
  reflexivity.
Qed.

(** ** The loop, one line at a time *)

Lemma loop_body_eq (self : TemperatureProcessor) (row : list string) :
  loop_body self row = (feed self (valid_records [row]), warnings [row], None).
Proof.
  unfold loop_body, valid_records, warnings, feed. simpl.
  destruct (_parse_row row) as [[nome t]|e] eqn:E; simpl; [reflexivity|].
  now rewrite (parse_row_caught row e E).
Qed.

Lemma valid_records_cons (row : list string) (rows : list (list string)) :
  valid_records (row :: rows) = valid_records [row] ++ valid_records rows.
Proof. exact (valid_records_app [row] rows). Qed.

Lemma warnings_cons (row : list string) (rows : list (list string)) :
  warnings (row :: rows) = warnings [row] ++ warnings rows.
Proof. unfold warnings. simpl. now rewrite app_nil_r. Qed.

(** *** What the reader holds *)

Lemma length_string_of_list_ascii (l : list ascii) :
  String.length (string_of_list_ascii l) = List.length l.
Proof. induction l as [|c l IH]; simpl; [reflexivity|now rewrite IH]. Qed.

Lemma reader_ok_reset : reader_ok parse_reset.
Proof. unfold reader_ok, parse_reset, field_limit. simpl. repeat split; [lia|constructor]. Qed.

Lemma reader_ok_set_state (rd : ReaderObj) (st : ParserState) :
  reader_ok rd -> reader_ok (set_state rd st).
Proof. intros H. exact H. Qed.

Lemma reader_ok_save (rd : ReaderObj) : reader_ok rd -> reader_ok (parse_save_field rd).
Proof.
  intros (Hlen & Hlim & Hall). unfold reader_ok, parse_save_field. simpl.
  split; [reflexivity|]. split; [unfold field_limit; lia|].
  apply Forall_app. split; [assumption|]. constructor; [|constructor].
  rewrite length_string_of_list_ascii, length_rev. lia.
Qed.

Lemma reader_ok_add (rd rd' : ReaderObj) (c : ascii) :
  reader_ok rd -> parse_add_char rd c = Ok rd' -> reader_ok rd'.
Proof.
  intros (Hlen & Hlim & Hall). unfold parse_add_char.
  destruct (field_limit <=? field_len rd) eqn:E; [discriminate|]. intros [= <-].
  apply Z.leb_gt in E. unfold reader_ok. simpl.
  split; [lia|]. split; [lia|assumption].
Qed.

Lemma buffered_set_state (rd : ReaderObj) (st : ParserState) :
  buffered (set_state rd st) = buffered rd.
Proof. reflexivity. Qed.

Lemma buffered_save (rd : ReaderObj) : buffered (parse_save_field rd) = buffered rd.
Proof.
  unfold buffered, parse_save_field. simpl.
  rewrite map_app, list_sum_app. simpl.
  rewrite length_string_of_list_ascii, length_rev. lia.
Qed.

Lemma buffered_add (rd rd' : ReaderObj) (c : ascii) :
  parse_add_char rd c = Ok rd' -> buffered rd' = S (buffered rd).
Proof.
  unfold parse_add_char. destruct (field_limit <=? field_len rd); [discriminate|].
  now intros [= <-].
Qed.

(** One character more, or the end of a line: the reader stays in order
    and holds one character more at most. *)
Lemma parse_process_char_ok (rd rd' : ReaderObj) (c : option ascii) :
  parse_process_char rd c = Ok rd' ->
  (reader_ok rd -> reader_ok rd') /\
  (buffered rd' <= buffered rd + match c with Some _ => 1 | None => 0 end)%nat.
Proof.
  intros H. unfold parse_process_char in H.
  destruct (state rd), c as [ch|]; reader_cases H; try discriminate;
    injection H as <-;
    (split;
     [intros Hok;
      repeat match goal with
             | |- reader_ok (set_state _ _) => apply reader_ok_set_state
             | |- reader_ok (parse_save_field _) => apply reader_ok_save
             | |- reader_ok _ => first [exact Hok | eapply reader_ok_add; [|eassumption]]
             end
     |rewrite ?buffered_set_state, ?buffered_save;
      try (erewrite buffered_add by eassumption);
      rewrite ?buffered_set_state, ?buffered_save; lia]).
Qed.

(** At the end of a line the reader is between two records or inside a
    quoted field. *)
Lemma parse_process_eol_state (rd rd' : ReaderObj) :
  parse_process_char rd None = Ok rd' ->
  state rd' = START_RECORD \/ state rd' = IN_QUOTED_FIELD.
Proof.
  unfold parse_process_char. destruct (state rd) eqn:E; intros [= <-]; simpl; auto.
Qed.

Lemma parse_line_ok (line : string) (rd rd' : ReaderObj) :
  parse_line rd line = Ok rd' ->
  (reader_ok rd -> reader_ok rd') /\
  (buffered rd' <= buffered rd + String.length line)%nat /\
  (state rd' = START_RECORD \/ state rd' = IN_QUOTED_FIELD).
Proof.
  revert rd. induction line as [|c r IH]; intros rd H.
  - simpl in H. destruct (parse_process_char_ok rd rd' None H) as [Hok Hb].
    split; [exact Hok|]. split; [simpl; lia|]. now apply parse_process_eol_state in H.
  - change (parse_line rd (String c r))
      with (self' <- parse_process_char rd (Some c) ;; parse_line self' r) in H.
    destruct (parse_process_char rd (Some c)) as [rd1|] eqn:E; [|discriminate].
    simpl bind in H. destruct (parse_process_char_ok rd rd1 (Some c) E) as [Hok1 Hb1].
    destruct (IH rd1 H) as (Hok & Hb & Hst).
    split; [auto|]. split; [simpl; lia|exact Hst].
Qed.

(** *** The loop and the reader *)

Lemma read_file_nil (s : LoopState) : read_file s [] = end_of_file s.
Proof.
  unfold read_file. simpl. now destruct (end_of_file s) as [[s2 log2] exc2].
Qed.

Lemma read_file_cons (s : LoopState) (line : string) (rest : list string) :
  read_file s (line :: rest) =
  let '(s1, log1, exc) := next_line s line in
  match exc with
  | Some e => (s1, log1, Some e)
  | None =>
      let '(s2, log2, exc2) := read_file s1 rest in
      (s2, log1 ++ log2, exc2)
  end.
Proof.
  unfold read_file. simpl.
  destruct (next_line s line) as [[s1 log1] [e|]]; [reflexivity|].
  destruct (read_lines s1 rest) as [[s2 log2] [e|]]; [reflexivity|].
  destruct (end_of_file s2) as [[s3 log3] exc3]. now rewrite app_assoc.
Qed.

(** The loop one line at a time is the loop over the rows of the reader. *)
Lemma read_file_reader (lines : list string) (rd : ReaderObj) (self : TemperatureProcessor) :
  instance (fst (fst (read_file (mkLoop rd self) lines))) =
    feed self (valid_records (items (reader_from rd lines))) /\
  snd (fst (read_file (mkLoop rd self) lines)) = warnings (items (reader_from rd lines)) /\
  snd (read_file (mkLoop rd self) lines) = ending (reader_from rd lines).
Proof.
  revert rd self. induction lines as [|line rest IH]; intros rd self.
  - rewrite read_file_nil. unfold end_of_file. cbn [csv_reader instance reader_from].
    destruct (negb (field_len rd =? 0) || ParserState_eqb (state rd) IN_QUOTED_FIELD).
    + rewrite loop_body_eq. repeat split.
    + repeat split.
  - rewrite read_file_cons. unfold next_line. cbn [csv_reader instance reader_from].
    destruct (parse_line rd line) as [rd'|e]; [|repeat split].
    destruct (ParserState_eqb (state rd') START_RECORD).
    + rewrite loop_body_eq.
      destruct (IH parse_reset (feed self (valid_records [fields rd']))) as (E1 & E2 & E3).
      destruct (read_file (mkLoop parse_reset (feed self (valid_records [fields rd']))) rest)
        as [[s2 log2] exc2]. cbn [fst snd] in *.
      unfold yield. cbn [items ending].
      rewrite (valid_records_cons (fields rd') (items (reader_from parse_reset rest))).
      rewrite (warnings_cons (fields rd') (items (reader_from parse_reset rest))), feed_app.
      rewrite E1, E2, E3. repeat split.
    + destruct (IH rd' self) as (E1 & E2 & E3).
      destruct (read_file (mkLoop rd' self) rest) as [[s2 log2] exc2]. cbn [fst snd] in *.
      rewrite E1, E2, E3. repeat split.
Qed.

Lemma valid_records_keys (rows : list (list string)) (k : string) :
  In k (map fst (valid_records rows)) ->
  exists f0 f1 rest, In (f0 :: f1 :: rest) rows /\ k = strip f0.
Proof.
  unfold valid_records. rewrite in_map_iff. intros ([k' v] & <- & Hin).
  apply in_flat_map in Hin as (row & Hrow & Hin).
  destruct row as [|f0 [|f1 rest]]; simpl in Hin; try contradiction.
  destruct (float_of_str f1) as [x|e]; simpl in Hin; [|contradiction].
  destruct Hin as [[= <- <-]|[]]. simpl. eauto.
Qed.

Lemma length_strip (s : string) : (String.length (strip s) <= String.length s)%nat.
Proof.
  unfold strip. pose proof (length_rstrip isspace (lstrip_with isspace s)).
  pose proof (length_lstrip isspace s). lia.
Qed.

Lemma total_length_cons (line : string) (lines : list string) :
  total_length (line :: lines) = (String.length line + total_length lines)%nat.
Proof. reflexivity. Qed.

(** What the loop holds after the lines read so far. *)
Lemma read_lines_spec (lines : list string) (rd : ReaderObj) (self : TemperatureProcessor) :
  reader_ok rd ->
  exists rows last,
    items (reader_from rd lines) = rows ++ last /\ (List.length last <= 1)%nat /\
    instance (fst (fst (read_lines (mkLoop rd self) lines))) = feed self (valid_records rows) /\
    snd (fst (read_lines (mkLoop rd self) lines)) = warnings rows /\
    (List.length rows <= List.length lines)%nat /\
    Forall (Forall (fun f => Z.of_nat (String.length f) <= field_limit)) rows /\
    (buffered (csv_reader (fst (fst (read_lines (mkLoop rd self) lines))))
     <= buffered rd + total_length lines)%nat.
Proof.
  revert rd self. induction lines as [|line rest IH]; intros rd self Hok.
  - exists [], (items (reader_from rd [])).
    split; [reflexivity|]. split.
    { simpl. destruct (negb (field_len rd =? 0) || ParserState_eqb (state rd) IN_QUOTED_FIELD);
        simpl; lia. }
    split; [reflexivity|]. split; [reflexivity|]. split; [simpl; lia|].
    split; [constructor|]. unfold total_length. simpl. lia.
  - simpl read_lines. unfold next_line. simpl csv_reader. simpl instance. simpl reader_from.
    rewrite total_length_cons.
    destruct (parse_line rd line) as [rd'|e] eqn:E.
    + destruct (parse_line_ok line rd rd' E) as (Hok' & Hb & _). specialize (Hok' Hok).
      destruct (ParserState_eqb (state rd') START_RECORD).
      * rewrite loop_body_eq.
        destruct (IH parse_reset (feed self (valid_records [fields rd'])) reader_ok_reset)
          as (rows & last & Hitems & Hlast & Hinst & Hlog & Hlen & Hall & Hbuf).
        destruct (read_lines (mkLoop parse_reset (feed self (valid_records [fields rd']))) rest)
          as [[s2 log2] exc2]. cbn [fst snd] in *.
        exists (fields rd' :: rows), last. unfold yield. simpl items.
        rewrite Hitems, Hinst, Hlog.
        rewrite (valid_records_cons (fields rd') rows), (warnings_cons (fields rd') rows), feed_app.
        split; [reflexivity|]. split; [assumption|]. split; [reflexivity|].
        split; [reflexivity|]. split; [simpl; lia|].
        split; [constructor; [apply Hok'|assumption]|].
        unfold buffered at 2 in Hbuf. simpl in Hbuf. lia.
      * destruct (IH rd' self Hok')
          as (rows & last & Hitems & Hlast & Hinst & Hlog & Hlen & Hall & Hbuf).
        destruct (read_lines (mkLoop rd' self) rest) as [[s2 log2] exc2]. cbn [fst snd] in *.
        exists rows, last.
        split; [assumption|]. split; [assumption|]. split; [assumption|].
        split; [assumption|]. split; [simpl; lia|]. split; [assumption|]. lia.
    + exists [], [].
      split; [reflexivity|]. split; [simpl; lia|]. split; [reflexivity|].
      split; [reflexivity|]. split; [simpl; lia|]. split; [constructor|]. simpl. lia.
Qed.

Lemma next_line_reader (s : LoopState) (line : string) :
  (buffered (csv_reader (fst (fst (next_line s line))))
   <= buffered (csv_reader s) + String.length line)%nat /\
  (csv_reader (fst (fst (next_line s line))) = parse_reset \/
   state (csv_reader (fst (fst (next_line s line)))) = IN_QUOTED_FIELD \/
   fst (fst (next_line s line)) = s).
Proof.
  unfold next_line. destruct (parse_line (csv_reader s) line) as [rd|e] eqn:E.
  - destruct (parse_line_ok line (csv_reader s) rd E) as (_ & Hb & Hst).
    destruct (ParserState_eqb (state rd) START_RECORD) eqn:Es.
    + rewrite loop_body_eq. cbn [fst snd csv_reader]. split; [|now left].
      unfold buffered, parse_reset. simpl. lia.
    + cbn [fst snd csv_reader]. split; [exact Hb|]. right. left.
      destruct Hst as [Hst|Hst]; [|exact Hst]. now rewrite Hst in Es.
  - cbn [fst snd]. split; [lia|]. now right; right.
Qed.

(** Over lines without double quote the reader is empty after every line. *)
Lemma read_lines_plain (ls : list string) (self : TemperatureProcessor) :
  Forall plain_line ls ->
  csv_reader (fst (fst (read_lines (mkLoop parse_reset self)
                          (map (fun l => (l ++ nl)%string) ls)))) = parse_reset.
Proof.
  intros Hall. revert self. induction Hall as [|l ls Hl _ IH]; intros self; [reflexivity|].
  cbn [map read_lines]. unfold next_line. cbn [csv_reader instance].
  destruct (parse_plain_record l nl Hl (or_intror eq_refl)) as (rd & E & S & _).
  rewrite E, S. cbn [ParserState_eqb]. rewrite loop_body_eq.
  specialize (IH (feed self (valid_records [fields rd]))).
  now destruct (read_lines (mkLoop parse_reset (feed self (valid_records [fields rd])))
                  (map (fun l0 => (l0 ++ nl)%string) ls)) as [[s2 log2] exc2].
Qed.

(** ** A line that is too long *)

Lemma all_chars_replicate (p : ascii -> bool) (c : ascii) (n : nat) :
  p c = true -> all_chars p (replicate n c) = true.
Proof. intros H. induction n as [|n IH]; simpl; [reflexivity|now rewrite H, IH]. Qed.

Lemma length_replicate (c : ascii) (n : nat) : String.length (replicate n c) = n.
Proof. induction n as [|n IH]; simpl; [reflexivity|now rewrite IH]. Qed.

(** The file of one line that holds a field longer than the limit. *)
Lemma file_source_long_line (long : string) :
  all_chars field_char long = true ->
  field_limit < Z.of_nat (String.length long) ->
  file_source (long ++ nl) = Readable (mkStream [] (Some csv_Error)).
Proof.
  intros Hs Hlt. unfold file_source.
  assert (Hone : Forall one_line [long]).
  { constructor; [|constructor]. unfold one_line. revert Hs. apply all_chars_impl.
    intros c Hc. apply field_char_spec in Hc as (_ & Hn & _). now rewrite Hn. }
  destruct (file_lines_join [long] Hone) as (E & _).
  change (join_lines nl [long]) with (long ++ nl)%string in E. rewrite E.
  unfold reader. cbn [map reader_from].
  now rewrite (long_line_overflows long nl Hs Hlt).
Qed.

(** * The claims *)

(** C1 (as stated) fails: the row [A;nan] is a valid record, and as the
    first record of its key it leaves the minimum at [inf] and the maximum
    at [-inf], which are not its value; the row [A;-0.0] leaves the sum at
    [0.0], which prints differently from its value. *)
Lemma first_record_not_the_value :
  _parse_row ["A"; "nan"]%string = Ok ("A"%string, PyFloat.nan) /\
  get (minimas (_atualizar_estatisticas (fresh "f") "A" PyFloat.nan)) "A" = Some PyFloat.inf /\
  get (maximas (_atualizar_estatisticas (fresh "f") "A" PyFloat.nan)) "A" = Some PyFloat.neg_inf /\
  PyFloat.inf <> PyFloat.nan /\ PyFloat.neg_inf <> PyFloat.nan /\
  PyFloat.eqb PyFloat.inf PyFloat.nan = false /\
  _parse_row ["A"; "-0.0"]%string = Ok ("A"%string, PyFloat.neg_zero) /\
  get (somas (_atualizar_estatisticas (fresh "f") "A" PyFloat.neg_zero)) "A" = Some PyFloat.zero /\
  PyFloat.zero <> PyFloat.neg_zero /\
  ~ (forall row nome v, _parse_row row = Ok (nome, v) ->
       get (minimas (_atualizar_estatisticas (fresh "f") nome v)) nome = Some v).
Proof.
  repeat split; try reflexivity; try discriminate.
  intros H. specialize (H ["A"; "nan"]%string "A"%string PyFloat.nan eq_refl).
  discriminate H.
Qed.

(** C1 (amended): in a table fed from scratch with any valid records, a
    further record [(nome, v)] sets the count of [nome] to the count so far
    (0 for a new key) plus 1, its minimum to [min(m, v)], its maximum to
    [max(m, v)] and its sum to [s + v], where [m] and [s] are the values so
    far, and [inf], [-inf] and [0.0] for a new key; for a new key this is
    count 1, and minimum = maximum = v unless [v] is a NaN, and sum = v
    unless [v] is [-0.0].  The other keys are left alone.  Hence the entry of
    every key with records has as count their number, as sum their
    floating-point sum in stream order from [0.0], as minimum and maximum the
    folds of [min] from [inf] and of [max] from [-inf], which are a least and
    a greatest value when none of them is a NaN; a key without record has no
    entry. *)
Theorem aggregation_table_entries (p : string) (recs : list (string * PyFloat.float))
    (nome : string) (v : PyFloat.float) :
  let self := feed (fresh p) recs in
  let self' := _atualizar_estatisticas self nome v in
  (get (medicoes self') nome = Some (or_default 0 (get (medicoes self) nome) + 1) /\
   get (minimas self') nome =
     Some (PyFloat.min (or_default PyFloat.inf (get (minimas self) nome)) v) /\
   get (maximas self') nome =
     Some (PyFloat.max (or_default PyFloat.neg_inf (get (maximas self) nome)) v) /\
   get (somas self') nome =
     Some (PyFloat.add (or_default PyFloat.zero (get (somas self) nome)) v)) /\
  (values_of nome recs = [] ->
   get (medicoes self) nome = None /\ get (medicoes self') nome = Some 1 /\
   (PyFloat.is_nan v = false ->
    get (minimas self') nome = Some v /\ get (maximas self') nome = Some v) /\
   (v <> PyFloat.neg_zero -> get (somas self') nome = Some v)) /\
  (forall k, k <> nome ->
   get (medicoes self') k = get (medicoes self) k /\
   get (minimas self') k = get (minimas self) k /\
   get (maximas self') k = get (maximas self) k /\
   get (somas self') k = get (somas self) k) /\
  (forall k,
   match values_of k recs with
   | [] =>
       get (medicoes self) k = None /\ get (minimas self) k = None /\
       get (maximas self) k = None /\ get (somas self) k = None
   | vs =>
       get (medicoes self) k = Some (Z.of_nat (List.length vs)) /\
       get (somas self) k = Some (fold_left PyFloat.add vs PyFloat.zero) /\
       get (minimas self) k = Some (fold_left PyFloat.min vs PyFloat.inf) /\
       get (maximas self) k = Some (fold_left PyFloat.max vs PyFloat.neg_inf) /\
       (Forall (fun x => PyFloat.is_nan x = false) vs ->
        In (fold_left PyFloat.min vs PyFloat.inf) vs /\
        Forall (fun x => PyFloat.lt x (fold_left PyFloat.min vs PyFloat.inf) = false) vs /\
        In (fold_left PyFloat.max vs PyFloat.neg_inf) vs /\
        Forall (fun x => PyFloat.gt x (fold_left PyFloat.max vs PyFloat.neg_inf) = false) vs)
   end).
Proof.
  intros self self'.
  assert (Hstep :
    get (medicoes self') nome = Some (or_default 0 (get (medicoes self) nome) + 1) /\
    get (minimas self') nome =
      Some (PyFloat.min (or_default PyFloat.inf (get (minimas self) nome)) v) /\
    get (maximas self') nome =
      Some (PyFloat.max (or_default PyFloat.neg_inf (get (maximas self) nome)) v) /\
    get (somas self') nome =
      Some (PyFloat.add (or_default PyFloat.zero (get (somas self) nome)) v)).
  { subst self'. rewrite atualizar_eq. simpl. now rewrite !get_set_same. }
  split; [exact Hstep|]. split; [|split].
  - intros Hnil. pose proof (entry_fresh p recs nome) as H. simpl in H.
    rewrite Hnil in H. fold self in H. destruct H as (Hc & Hmn & Hmx & Hs).
    destruct Hstep as (Sc & Smn & Smx & Ss).
    rewrite Hc in Sc. rewrite Hmn in Smn. rewrite Hmx in Smx. rewrite Hs in Ss.
    unfold or_default in Sc, Smn, Smx, Ss. repeat split; try assumption.
    + now rewrite Smn, min_inf.
    + now rewrite Smx, max_neg_inf.
    + intros Hv. now rewrite Ss, add_zero_l.
  - intros k Hk. subst self'. rewrite atualizar_eq. simpl.
    rewrite !get_set_other by congruence. repeat split.
  - intros k. pose proof (entry_fresh p recs k) as H. simpl in H. fold self in H.
    destruct (values_of k recs) as [|x vs]; [exact H|].
    destruct H as (Hc & Hmn & Hmx & Hs). repeat split; try assumption.
    + now apply fold_min_least.
    + now apply fold_min_least.
    + now apply fold_max_greatest.
    + now apply fold_max_greatest.
Qed.

(** C2: the five-line scenario returns exactly the three entries of the
    expected Report, in that order, and the main block prints them as the
    three expected lines. *)
Theorem five_line_scenario :
  snd (run (PathObj "data/measurements.txt") (file_source scenario_text)) =
    Ok [("Bulawayo", "8.9/8.9/8.9"); ("Hamburg", "10.0/12.0/14.0");
        ("Palembang", "38.8/38.8/38.8")]%string /\
  print_report [("Bulawayo", "8.9/8.9/8.9"); ("Hamburg", "10.0/12.0/14.0");
                ("Palembang", "38.8/38.8/38.8")]%string =
    ["Bulawayo: 8.9/8.9/8.9"; "Hamburg: 10.0/12.0/14.0"; "Palembang: 38.8/38.8/38.8"]%string.
Proof. split; vm_compute; reflexivity. Qed.

(** C3 (as stated) fails: a line of 131073 characters without a semicolon
    is a record of one field, which [_parse_row] would refuse, but the
    reader refuses the line before the loop sees a row: the run logs no
    warning, does not go on, and fails with [csv.Error] instead of returning
    the empty Report, although the only record of the input is malformed. *)
Lemma one_field_over_the_limit_is_fatal :
  let long := replicate (Z.to_nat 131073) "x" in
  _parse_row [long] = Raise IndexError /\
  file_source (long ++ nl) = Readable (Csv.mkStream [] (Some csv_Error)) /\
  run (PathObj "data/measurements.txt") (file_source (long ++ nl)) =
    ([INFO_iniciando "data/measurements.txt"; ERROR_ao_processar csv_Error],
     Raise csv_Error).
Proof.
  intros long.
  assert (E : file_source (long ++ nl) = Readable (Csv.mkStream [] (Some csv_Error))).
  { apply file_source_long_line.
    - now apply all_chars_replicate.
    - unfold long. rewrite length_replicate, Z2Nat.id; unfold field_limit; lia. }
  split; [reflexivity|]. split; [exact E|].
  rewrite E, run_readable, processar_reader_error. reflexivity.
Qed.

(** C3 (amended): over every stream of rows that the reader yields to its
    end without an error, as it does over every file of lines without
    double quote and of at most 131072 characters, a row that [_parse_row]
    refuses -- fewer than 2 fields ([IndexError]) or a second field
    [float()] refuses ([ValueError]) -- is sent to the log as a warning and
    changes no statistics, and the loop goes on with the rows after it: the
    loop never raises, the table is the one the valid records alone build,
    and the log holds one warning per refused row, in order; when every row
    is refused, a run on a new processor returns the empty Report and leaves
    the table empty.  When the reader fails after some rows, [processar] logs
    the error and raises it, without a Report. *)
Theorem malformed_rows_are_skipped (self : TemperatureProcessor) (rows : list (list string)) :
  ((forall row, _parse_row row = Raise IndexError <-> (List.length row < 2)%nat) /\
   (forall row, _parse_row row = Raise ValueError <->
      exists f0 f1 rest, row = f0 :: f1 :: rest /\
                         FloatFromString.float_of_str f1 = Raise ValueError) /\
   (forall row e, _parse_row row = Raise e -> e = IndexError \/ e = ValueError) /\
   (forall row e rest, _parse_row row = Raise e ->
      processar_rows self (row :: rest) =
      (fst (fst (processar_rows self rest)),
       WARNING_linha_ignorada row e :: snd (fst (processar_rows self rest)),
       snd (processar_rows self rest))) /\
   processar_rows self rows = (feed self (valid_records rows), warnings rows, None) /\
   (forall row, In row rows -> forall e, _parse_row row = Raise e ->
      In (WARNING_linha_ignorada row e) (warnings rows)) /\
   (Forall (fun row => exists e, _parse_row row = Raise e) rows ->
    valid_records rows = [] /\
    fst (fst (processar_rows self rows)) = self /\
    forall p,
      processar (fresh p) (Readable (Csv.mkStream rows None)) =
      (fresh p, INFO_iniciando p :: warnings rows ++ [INFO_calculando], Ok []))) /\
  (forall lines, Forall plain_line lines ->
     file_source (join_lines nl lines) = Readable (Csv.mkStream (map line_fields lines) None)) /\
  (forall e,
     processar self (Readable (Csv.mkStream rows (Some e))) =
     (feed self (valid_records rows),
      INFO_iniciando (path self) :: warnings rows ++ [ERROR_ao_processar e],
      Raise e)).
Proof.
  assert (Hidx : forall row, _parse_row row = Raise IndexError <-> (List.length row < 2)%nat).
  { intros [|f0 [|f1 rest]]; simpl; split; intros H; try reflexivity; try lia.
    unfold FloatFromString.float_of_str in H.
    destruct (FloatFromString._Py_string_to_number_with_underscores _); discriminate. }
  assert (Hval : forall row, _parse_row row = Raise ValueError <->
     exists f0 f1 rest, row = f0 :: f1 :: rest /\
                        FloatFromString.float_of_str f1 = Raise ValueError).
  { intros [|f0 [|f1 rest]]; simpl; split; try discriminate.
    - intros (? & ? & ? & [=] & _).
    - intros (? & ? & ? & [=] & _).
    - intros H. exists f0, f1, rest. split; [reflexivity|].
      destruct (FloatFromString.float_of_str f1); [discriminate|]. simpl in H.
      now injection H as ->.
    - intros (? & ? & ? & [= <- <- <-] & ->). reflexivity. }
  assert (Hnil : Forall (fun row => exists e, _parse_row row = Raise e) rows ->
                 valid_records rows = []).
  { induction 1 as [|row rows' [e He] _ IH]; [reflexivity|].
    unfold valid_records in *. simpl. now rewrite He, IH. }
  split; [|split; [exact file_source_plain|intros e; apply processar_reader_error]].
  split; [exact Hidx|]. split; [exact Hval|]. split; [exact parse_row_raises|].
  split; [|split; [|split]].
  - intros row e rest He. simpl. rewrite He, (parse_row_caught row e He).
    now destruct (processar_rows self rest) as [[s l] x].
  - apply processar_rows_eq.
  - intros row Hin e He. unfold warnings. apply in_flat_map. exists row.
    split; [assumption|]. rewrite He. now left.
  - intros H. split; [now apply Hnil|]. split.
    + rewrite processar_rows_eq. simpl. now rewrite (Hnil H).
    + intros p. unfold processar. simpl. rewrite processar_rows_eq, (Hnil H). reflexivity.
Qed.

(** C4 (as stated) fails: [1e5], [inf], [nan], [1_000] and [ 1.5] (with a
    space in front) are no decimal literals with an optional sign and an
    optional fractional part, and yet [_parse_row] accepts each of them as
    the second field. *)
Lemma more_than_decimal_literals :
  ~ decimal_literal "1e5" /\
  _parse_row ["A"; "1e5"]%string = Ok ("A"%string, PyFloat.of_decimal false 1 5) /\
  ~ decimal_literal "inf" /\
  _parse_row ["A"; "inf"]%string = Ok ("A"%string, PyFloat.inf) /\
  ~ decimal_literal "nan" /\
  _parse_row ["A"; "nan"]%string = Ok ("A"%string, PyFloat.nan) /\
  ~ decimal_literal "1_000" /\
  _parse_row ["A"; "1_000"]%string = Ok ("A"%string, PyFloat.of_decimal false 1000 0) /\
  ~ decimal_literal " 1.5" /\
  _parse_row ["A"; " 1.5"]%string = Ok ("A"%string, PyFloat.of_decimal false 15 (-1)).
Proof.
  repeat split; try (vm_compute; reflexivity);
    intros H; apply decimal_literal_chars in H; discriminate H.
Qed.

(** C4 (amended): for every row of two fields or more whose second field
    is made of characters below code point 256, as the strings of this
    development are, and of at most 10^9 of them, [_parse_row] succeeds
    exactly when the second field is a text [float()] accepts, and fails
    with [ValueError] exactly when it is not.  These texts are, underscores
    between two digits and blanks around apart: an optional sign followed by
    a decimal number (digits with an optional point, with at least one
    digit) with an optional exponent, or by [inf], [infinity] or [nan] in
    any letter case.  Every decimal literal with an optional sign and an
    optional fractional part is one of them. *)
Theorem second_field_number (f0 f1 : string) (rest : list string) :
  Z.of_nat (String.length f1) <= MAX_DIGITS ->
  ((exists kv, _parse_row (f0 :: f1 :: rest) = Ok kv) <-> float_literal f1) /\
  (_parse_row (f0 :: f1 :: rest) = Raise ValueError <-> ~ float_literal f1) /\
  (decimal_literal f1 -> float_literal f1).
Proof.
  intros Hlen. pose proof (float_of_str_iff f1 Hlen) as Hiff.
  split; [|split; [|apply decimal_literal_accepted]].
  - rewrite <- Hiff. simpl. split.
    + intros [kv H]. destruct (float_of_str f1) as [x|e]; [eauto|discriminate].
    + intros [x ->]. simpl. eauto.
  - rewrite <- Hiff. simpl. split.
    + intros H [x Hx]. rewrite Hx in H. discriminate.
    + intros H. unfold float_of_str in *.
      destruct (_Py_string_to_number_with_underscores _) as [x|]; [|reflexivity].
      exfalso. apply H. eauto.
Qed.

(** The second field [-12.5]. *)
Lemma second_field_number_witness :
  Z.of_nat (String.length "-12.5") <= MAX_DIGITS /\
  ((exists kv, _parse_row ["Hamburg"; "-12.5"]%string = Ok kv) <-> float_literal "-12.5") /\
  (_parse_row ["Hamburg"; "-12.5"]%string = Raise ValueError <-> ~ float_literal "-12.5") /\
  (decimal_literal "-12.5" -> float_literal "-12.5").
Proof.
  assert (H : Z.of_nat (String.length "-12.5") <= MAX_DIGITS).
  { simpl. unfold MAX_DIGITS. lia. }
  split; [exact H|]. exact (second_field_number "Hamburg" "-12.5" [] H).
Defined.

(** C5 (as stated) fails: in the line ["a;b";1] the semicolon between the
    double quotes is no delimiter; the reader yields the two fields [a;b]
    and [1], a valid record, where cutting the line at its semicolons gives
    three pieces, the second of which is no number. *)
Lemma quoted_semicolon_is_no_delimiter :
  Csv.reader [(quoted_line ++ nl)%string] = Csv.mkStream [["a;b"; "1"]%string] None /\
  _parse_row ["a;b"; "1"]%string = Ok ("a;b"%string, PyFloat.of_decimal false 1 0) /\
  split_on ";" quoted_line =
    [String DQUOTE "a"; ("b" ++ String DQUOTE "")%string; "1"%string] /\
  _parse_row (split_on ";" quoted_line) = Raise ValueError.
Proof. repeat split; vm_compute; reflexivity. Qed.

(** C5 (amended): over lines without double quote and carriage return
    inside, of at most 131072 characters each, the reader yields one record
    per line, whose fields are the pieces of the line between its semicolons
    (no field for an empty line), the last line ending with a line feed or
    not; in every record of two fields or more, [_parse_row] takes the first
    field, without the blanks at its two ends, as the key, hands the second
    field to [float()], and ignores the fields after the second. *)
Theorem row_parser_fields (lines : list string) (f0 f1 : string) (rest : list string) :
  Forall plain_line lines ->
  Csv.reader (map (fun l => (l ++ nl)%string) lines) =
    Csv.mkStream (map line_fields lines) None /\
  (forall line, plain_line line -> line <> EmptyString ->
     Csv.reader (map (fun l => (l ++ nl)%string) lines ++ [line]) =
     Csv.mkStream (map line_fields (lines ++ [line])) None) /\
  _parse_row (f0 :: f1 :: rest) =
    (temperatura <- float_of_str f1 ;; Ok (strip f0, temperatura)) /\
  _parse_row (f0 :: f1 :: rest) = _parse_row [f0; f1] /\
  (exists w1 w2, f0 = (w1 ++ strip f0 ++ w2)%string /\
                 all_chars isspace w1 = true /\ all_chars isspace w2 = true) /\
  (forall c, first_char (strip f0) = Some c -> isspace c = false) /\
  (forall c, last_char (strip f0) = Some c -> isspace c = false).
Proof.
  intros Hall. split; [|split; [|split; [reflexivity|split; [reflexivity|apply strip_spec]]]].
  - pose proof (reader_plain_lines lines [] Hall (or_introl eq_refl)) as H.
    now rewrite !app_nil_r in H.
  - intros line Hline Hne. apply reader_plain_lines; [assumption|]. right. eauto.
Qed.

(** Three lines of a file, the second one empty. *)
Lemma row_parser_fields_witness :
  Forall plain_line ["Hamburg;12.0"; ""; " a ;1;x"]%string /\
  Csv.reader (map (fun l => (l ++ nl)%string) ["Hamburg;12.0"; ""; " a ;1;x"]%string) =
    Csv.mkStream [["Hamburg"; "12.0"]; []; [" a "; "1"; "x"]]%string None /\
  _parse_row [" a "; "1"; "x"]%string = _parse_row [" a "; "1"]%string.
Proof.
  assert (H : Forall plain_line ["Hamburg;12.0"; ""; " a ;1;x"]%string).
  { repeat constructor; simpl; unfold Csv.field_limit; lia. }
  split; [exact H|]. split.
  - apply (row_parser_fields ["Hamburg;12.0"; ""; " a ;1;x"]%string " a " "1" ["x"]%string H).
  - apply (row_parser_fields ["Hamburg;12.0"; ""; " a ;1;x"]%string " a " "1" ["x"]%string H).
Defined.

(** C6 (as stated) fails: the row [A;inf] is a valid record, and its Report
    entry is [inf/inf/inf], three numbers printed without a fractional
    digit. *)
Lemma infinite_value_has_no_fraction_digit :
  snd (run (PathObj "data/measurements.txt") (file_source "A;inf")) =
    Ok [("A", "inf/inf/inf")]%string /\
  PyFormat.format_1f PyFloat.inf = "inf"%string /\
  ~ one_fraction_digit (PyFormat.format_1f PyFloat.inf).
Proof.
  split; [vm_compute; reflexivity|]. split; [reflexivity|].
  intros H. apply one_fraction_digit_point in H. discriminate H.
Qed.

(** C6 (amended): for every table whose counts are not negative and below
    2^53, [_gerar_resultados] returns a Report; its keys are exactly the keys
    with count > 0, in strictly ascending order of their code points; the
    entry of a key is [<minimum>/<mean>/<maximum>] where the mean is the sum
    divided by the count as floats and each number is printed by the format
    [.1f]: with exactly one fractional digit when it is finite, and as [inf],
    [-inf] or [nan] otherwise. *)
Theorem report_of_table (self : TemperatureProcessor) :
  NoDup (keys (medicoes self)) ->
  Forall (fun kc => 0 <= snd kc < 2 ^ 53) (medicoes self) ->
  exists report,
    snd (_gerar_resultados self) = Ok report /\
    (forall k, In k (keys report) <-> exists c, get (medicoes self) k = Some c /\ 0 < c) /\
    (forall k c, get (medicoes self) k = Some c -> 0 < c ->
       exists mean,
         PyFloat.truediv_int (lookup_or PyFloat.zero (somas self) k) c = Ok mean /\
         get report k =
           Some (PyFormat.format_1f (lookup_or PyFloat.inf (minimas self) k) ++ "/"
                 ++ PyFormat.format_1f mean ++ "/"
                 ++ PyFormat.format_1f (lookup_or PyFloat.neg_inf (maximas self) k))%string) /\
    ascending (keys report) /\
    (forall x, PyFloat.is_finite x = true -> one_fraction_digit (PyFormat.format_1f x)) /\
    (forall x, PyFloat.is_finite x = false ->
       In (PyFormat.format_1f x) ["inf"; "-inf"; "nan"]%string).
Proof. exact (gerar_resultados_spec self). Qed.

(** A table with two stations and a key whose count is zero: the Report
    skips the latter. *)
Lemma report_of_table_witness :
  let self := mkProcessor "f"
                [("b", PyFloat.zero); ("a", PyFloat.inf)]%string
                [("b", PyFloat.zero); ("a", PyFloat.inf)]%string
                [("b", PyFloat.zero); ("a", PyFloat.inf)]%string
                [("b", 2); ("z", 0); ("a", 1)]%string in
  exists report,
    snd (_gerar_resultados self) = Ok report /\
    (forall k, In k (keys report) <-> exists c, get (medicoes self) k = Some c /\ 0 < c) /\
    (forall k c, get (medicoes self) k = Some c -> 0 < c ->
       exists mean,
         PyFloat.truediv_int (lookup_or PyFloat.zero (somas self) k) c = Ok mean /\
         get report k =
           Some (PyFormat.format_1f (lookup_or PyFloat.inf (minimas self) k) ++ "/"
                 ++ PyFormat.format_1f mean ++ "/"
                 ++ PyFormat.format_1f (lookup_or PyFloat.neg_inf (maximas self) k))%string) /\
    ascending (keys report) /\
    (forall x, PyFloat.is_finite x = true -> one_fraction_digit (PyFormat.format_1f x)) /\
    (forall x, PyFloat.is_finite x = false ->
       In (PyFormat.format_1f x) ["inf"; "-inf"; "nan"]%string).
Proof.
  intros self. apply (report_of_table self).
  - repeat constructor; simpl; intuition discriminate.
  - repeat constructor; simpl; lia.
Defined.

(** C7: when the file is missing or cannot be opened, [processar] raises
    ([FileNotFoundError] for a missing file, [OSError] otherwise) before any
    row is read: the table is untouched, the log holds no warning, and no
    Report is returned; the main block, which builds the processor first,
    raises as well, already in the constructor when the file is missing. *)
Theorem unreadable_source_is_fatal (self : TemperatureProcessor) (p : path_arg) :
  processar self Missing =
    (self, [INFO_iniciando (path self); ERROR_ao_processar FileNotFoundError],
     Raise FileNotFoundError) /\
  processar self Inaccessible =
    (self, [INFO_iniciando (path self); ERROR_ao_processar OSError], Raise OSError) /\
  (exists e, run p Missing = ([], Raise e)) /\
  (exists e, snd (run p Inaccessible) = Raise e) /\
  (forall src, (exists report, snd (run p src) = Ok report) -> exists rows, src = Readable rows).
Proof.
  split; [reflexivity|]. split; [reflexivity|]. split; [|split].
  - destruct p; eexists; reflexivity.
  - destruct p; eexists; reflexivity.
  - intros src [report H]. destruct src as [| |rows]; [| |eauto]; destruct p; discriminate H.
Qed.

(** C8 (as stated) fails: the two orders of the rows [A;0.0] and [A;-0.0]
    have the same floating-point sum, and yet their Reports differ, in the
    minimum and in the maximum, by the sign of the zero. *)
Lemma zero_sign_depends_on_order :
  let rows1 := [["A"; "0.0"]; ["A"; "-0.0"]]%string in
  let rows2 := [["A"; "-0.0"]; ["A"; "0.0"]]%string in
  Permutation rows1 rows2 /\
  Csv.reader (Csv.file_lines ("A;0.0" ++ nl ++ "A;-0.0" ++ nl)) = Csv.mkStream rows1 None /\
  Csv.reader (Csv.file_lines ("A;-0.0" ++ nl ++ "A;0.0" ++ nl)) = Csv.mkStream rows2 None /\
  snd (processar (fresh "f") (Readable (Csv.mkStream rows1 None))) =
    Ok [("A", "0.0/0.0/0.0")]%string /\
  snd (processar (fresh "f") (Readable (Csv.mkStream rows2 None))) =
    Ok [("A", "-0.0/0.0/-0.0")]%string /\
  somas (fst (fst (processar (fresh "f") (Readable (Csv.mkStream rows1 None))))) =
  somas (fst (fst (processar (fresh "f") (Readable (Csv.mkStream rows2 None))))).
Proof.
  split; [apply perm_swap|]. repeat split; vm_compute; reflexivity.
Qed.

(** C8 (amended): two streams of fewer than 2^53 rows that are reorderings
    of each other give every key the same count, a minimum and a maximum
    that are the same number (the same float, or two zeros that may differ
    in sign), and Reports with the same keys in the same order; when no
    value is [-0.0] and the floating-point sums of every key agree in the two
    orders, the Reports are identical. *)
Theorem reordered_records (p : string) (rows1 rows2 : list (list string)) :
  Permutation rows1 rows2 ->
  Z.of_nat (List.length rows1) < 2 ^ 53 ->
  let run1 := processar (fresh p) (Readable (Csv.mkStream rows1 None)) in
  let run2 := processar (fresh p) (Readable (Csv.mkStream rows2 None)) in
  let self1 := fst (fst run1) in
  let self2 := fst (fst run2) in
  (forall k, get (medicoes self1) k = get (medicoes self2) k) /\
  (forall k, opt_same_number (get (minimas self1) k) (get (minimas self2) k)) /\
  (forall k, opt_same_number (get (maximas self1) k) (get (maximas self2) k)) /\
  (exists r1 r2, snd run1 = Ok r1 /\ snd run2 = Ok r2 /\ keys r1 = keys r2) /\
  (Forall (fun kv => snd kv <> PyFloat.neg_zero) (valid_records rows1) ->
   (forall k, get (somas self1) k = get (somas self2) k) ->
   snd run1 = snd run2).
Proof.
  intros Hp Hlen run1 run2 self1 self2.
  pose proof (valid_records_perm rows1 rows2 Hp) as Hrecs.
  assert (E1 : self1 = feed (fresh p) (valid_records rows1))
    by (apply processar_state, same_keys_fresh).
  assert (E2 : self2 = feed (fresh p) (valid_records rows2))
    by (apply processar_state, same_keys_fresh).
  assert (R1 : snd run1 = snd (_gerar_resultados self1))
    by (rewrite E1; apply processar_result).
  assert (R2 : snd run2 = snd (_gerar_resultados self2))
    by (rewrite E2; apply processar_result).
  clearbody self1 self2 run1 run2.
  assert (Hfeed := fun k => feed_perm p _ _ k Hrecs). simpl in Hfeed.
  rewrite <- E1, <- E2 in Hfeed.
  assert (Hbound : forall self rows, self = feed (fresh p) (valid_records rows) ->
            Z.of_nat (List.length rows) < 2 ^ 53 ->
            Forall (fun kc => 0 <= snd kc < 2 ^ 53) (medicoes self)).
  { intros self rows -> Hl. apply Forall_forall. intros [k c] Hin. simpl.
    apply counts_feed_fresh in Hin. pose proof (valid_records_length rows). lia. }
  assert (Hnd : forall self rows, self = feed (fresh p) (valid_records rows) ->
            NoDup (keys (medicoes self))).
  { intros self rows ->. apply NoDup_medicoes_feed. constructor. }
  destruct (gerar_resultados_spec self1 (Hnd _ _ E1) (Hbound _ _ E1 Hlen))
    as (r1 & Hr1 & K1 & G1 & A1 & _).
  destruct (gerar_resultados_spec self2 (Hnd _ _ E2)
              (Hbound _ _ E2 ltac:(rewrite <- (Permutation_length Hp); exact Hlen)))
    as (r2 & Hr2 & K2 & G2 & A2 & _).
  assert (Hkeys : keys r1 = keys r2).
  { apply ascending_unique; try assumption.
    intros k. rewrite K1, K2. now rewrite (proj1 (Hfeed k)). }
  split; [intros k; apply Hfeed|]. split; [intros k; apply Hfeed|].
  split; [intros k; apply Hfeed|]. split.
  - exists r1, r2. rewrite R1, R2. auto.
  - intros Hnz Hsum. rewrite R1, R2, Hr1, Hr2. f_equal.
    apply dict_ext; [assumption|now apply ascending_NoDup|].
    intros k. destruct (Hfeed k) as (Hc & _ & _ & Hmm). destruct (Hmm Hnz) as [Hmn Hmx].
    destruct (get (medicoes self1) k) as [c|] eqn:Ec.
    + destruct (Z_lt_dec 0 c) as [Hpos|Hnpos].
      * destruct (G1 k c Ec Hpos) as (m1 & T1 & ->).
        destruct (G2 k c (eq_sym Hc) Hpos) as (m2 & T2 & ->).
        rewrite (lookup_or_get _ _ _ k (Hsum k)) in T1. rewrite T1 in T2.
        injection T2 as ->.
        now rewrite (lookup_or_get _ _ _ k Hmn), (lookup_or_get _ _ _ k Hmx).
      * assert (N1 : ~ In k (keys r1)).
        { rewrite K1. intros (c' & Hc' & Hp'). rewrite Ec in Hc'. injection Hc' as <-. lia. }
        assert (N2 : ~ In k (keys r2)) by now rewrite <- Hkeys.
        apply get_None_iff in N1, N2. congruence.
    + assert (N1 : ~ In k (keys r1)).
      { rewrite K1. intros (c' & Hc' & _). rewrite Ec in Hc'. discriminate. }
      assert (N2 : ~ In k (keys r2)) by now rewrite <- Hkeys.
      apply get_None_iff in N1, N2. congruence.
Qed.

(** The five rows of the scenario in two orders. *)
Lemma reordered_records_witness :
  let rows1 := [["Hamburg"; "12.0"]; ["Bulawayo"; "8.9"]; ["Hamburg"; "14.0"]]%string in
  let rows2 := [["Bulawayo"; "8.9"]; ["Hamburg"; "12.0"]; ["Hamburg"; "14.0"]]%string in
  Permutation rows1 rows2 /\
  snd (processar (fresh "f") (Readable (Csv.mkStream rows1 None))) =
  snd (processar (fresh "f") (Readable (Csv.mkStream rows2 None))).
Proof.
  intros rows1 rows2.
  assert (Hp : Permutation rows1 rows2) by apply perm_swap.
  split; [exact Hp|].
  apply (reordered_records "f" rows1 rows2 Hp).
  - simpl. lia.
  - repeat constructor; discriminate.
  - intros k. rewrite !processar_state by apply same_keys_fresh.
    rewrite !get_somas_feed. unfold values_of.
    set (r1 := valid_records rows1). set (r2 := valid_records rows2).
    vm_compute in r1, r2. subst r1 r2. cbn [filter fst].
    destruct ("Hamburg" =? k)%string, ("Bulawayo" =? k)%string; reflexivity.
Defined.


(** C10: a second call of [processar] on the same instance over the same
    rows starts from the table the first call left: afterwards the count of
    every key is twice the number of its valid records, its sum is the
    floating-point sum of its values over both passes, and the table differs
    from the one after the first call as soon as there is a valid record. *)
Theorem processar_is_not_idempotent (p : string) (rows : list (list string)) :
  let src := Readable (Csv.mkStream rows None) in
  let self1 := fst (fst (processar (fresh p) src)) in
  let self2 := fst (fst (processar self1 src)) in
  (forall k, let vs := values_of k (valid_records rows) in
   vs <> [] ->
   get (medicoes self1) k = Some (Z.of_nat (List.length vs)) /\
   get (medicoes self2) k = Some (2 * Z.of_nat (List.length vs)) /\
   get (somas self1) k = Some (fold_left PyFloat.add vs PyFloat.zero) /\
   get (somas self2) k = Some (fold_left PyFloat.add (vs ++ vs) PyFloat.zero)) /\
  (valid_records rows <> [] -> self2 <> self1).
Proof.
  intros src self1 self2.
  assert (E1 : self1 = feed (fresh p) (valid_records rows)).
  { subst self1 src. apply processar_state, same_keys_fresh. }
  assert (E2 : self2 = feed (fresh p) (valid_records rows ++ valid_records rows)).
  { subst self2 src. rewrite processar_state.
    - now rewrite E1, <- feed_app.
    - rewrite E1. apply same_keys_feed, same_keys_fresh. }
  assert (Hk : forall k, let vs := values_of k (valid_records rows) in
   vs <> [] ->
   get (medicoes self1) k = Some (Z.of_nat (List.length vs)) /\
   get (medicoes self2) k = Some (2 * Z.of_nat (List.length vs)) /\
   get (somas self1) k = Some (fold_left PyFloat.add vs PyFloat.zero) /\
   get (somas self2) k = Some (fold_left PyFloat.add (vs ++ vs) PyFloat.zero)).
  { intros k vs Hvs.
    pose proof (entry_fresh p (valid_records rows) k) as H1.
    pose proof (entry_fresh p (valid_records rows ++ valid_records rows) k) as H2.
    simpl in H1, H2. rewrite <- E1 in H1. rewrite <- E2 in H2.
    rewrite values_of_app in H2. fold vs in H1, H2.
    destruct vs as [|x vs']; [contradiction|].
    destruct H1 as (C1 & _ & _ & S1). simpl app in H2. destruct H2 as (C2 & _ & _ & S2).
    repeat split; try assumption.
    rewrite C2. f_equal. simpl List.length. rewrite length_app. simpl List.length. lia. }
  split; [exact Hk|].
  intros Hne E. destruct (valid_records rows) as [|[k v] recs] eqn:Erecs; [contradiction|].
  specialize (Hk k). simpl in Hk. unfold values_of in Hk. simpl in Hk.
  rewrite String.eqb_refl in Hk. simpl in Hk.
  destruct Hk as (C1 & C2 & _); [discriminate|].
  rewrite E, C1 in C2. injection C2 as C2. lia.
Qed.

(** * Further properties *)

(** X1: over a stream of rows that ends without an error, every row is
    either counted for its station or reported by one warning: the counts of
    the table grow by the number of rows less the number of warnings that
    the call logs. *)
Theorem every_row_counted_or_warned (self : TemperatureProcessor) (rows : list (list string)) :
  let out := processar self (rows_source rows) in
  total_count (medicoes (fst (fst out)))
  + Z.of_nat (List.length (filter is_warning (snd (fst out))))
  = total_count (medicoes self) + Z.of_nat (List.length rows).
Proof.
  intros out. subst out. rewrite processar_readable. simpl fst. simpl snd.
  destruct (gerar_resultados_medicoes (feed self (valid_records rows))) as [-> _].
  rewrite total_count_feed, filter_warnings_log.
  pose proof (warnings_count rows). lia.
Qed.

(** X2: when the reader fails in the middle of the file, [processar] logs
    the error and raises it again without a Report, and the table keeps what
    the rows read before the failure put into it. *)
Theorem failure_in_mid_stream_keeps_the_rows_read (self : TemperatureProcessor)
    (rows : list (list string)) (e : exn) :
  processar self (Readable (Csv.mkStream rows (Some e))) =
  (feed self (valid_records rows),
   INFO_iniciando (path self) :: warnings rows ++ [ERROR_ao_processar e],
   Raise e) /\
  total_count (medicoes (feed self (valid_records rows)))
  = total_count (medicoes self) + Z.of_nat (List.length (valid_records rows)).
Proof.
  split; [apply processar_reader_error|apply total_count_feed].
Qed.

(** X3: a NaN among the values of a station never becomes its minimum or
    its maximum: these are the minimum and the maximum of the other values
    of the station, the minimum not above the maximum when there is one,
    and [inf] and [-inf] when there is none. *)
Theorem nan_is_never_minimum_or_maximum (p : string) (recs : list (string * PyFloat.float))
    (k : string) :
  In k (map fst recs) ->
  let self := feed (fresh p) recs in
  let vs := not_nan (values_of k recs) in
  exists mn mx,
    get (minimas self) k = Some mn /\ get (maximas self) k = Some mx /\
    PyFloat.is_nan mn = false /\ PyFloat.is_nan mx = false /\
    mn = fold_left PyFloat.min vs PyFloat.inf /\
    mx = fold_left PyFloat.max vs PyFloat.neg_inf /\
    (vs = [] -> mn = PyFloat.inf /\ mx = PyFloat.neg_inf) /\
    (vs <> [] ->
     In mn vs /\ In mx vs /\ PyFloat.lt mx mn = false /\
     Forall (fun x => PyFloat.lt x mn = false /\ PyFloat.lt mx x = false) vs).
Proof.
  intros Hin self vs.
  pose proof (entry_fresh p recs k) as H. simpl in H. fold self in H.
  destruct (values_of k recs) as [|v0 vs0] eqn:Evs.
  { exfalso. now apply (values_of_nil_iff k recs). }
  destruct H as (_ & Hmin & Hmax & _).
  rewrite fold_min_not_nan in Hmin. rewrite fold_max_not_nan in Hmax. fold vs in Hmin, Hmax.
  exists (fold_left PyFloat.min vs PyFloat.inf), (fold_left PyFloat.max vs PyFloat.neg_inf).
  destruct (fold_min_spec vs PyFloat.inf eq_refl) as (Hn1 & _).
  destruct (fold_max_spec vs PyFloat.neg_inf eq_refl) as (Hn2 & _).
  repeat (split; [assumption || reflexivity|]).
  split.
  - intros ->. split; reflexivity.
  - intros Hne. pose proof (not_nan_Forall (v0 :: vs0)) as Hnan. fold vs in Hnan.
    destruct vs as [|v vs']; [contradiction|].
    destruct (fold_min_least v vs' Hnan) as [Imin Lmin].
    destruct (fold_max_greatest v vs' Hnan) as [Imax Lmax].
    rewrite Forall_forall in Lmin, Lmax.
    split; [exact Imin|]. split; [exact Imax|]. split.
    + exact (Lmax _ Imin).
    + apply Forall_forall. intros x Hx. split; [now apply Lmin|exact (Lmax x Hx)].
Qed.

(** A station with the values 1.5, NaN and -2.0. *)
Lemma nan_is_never_minimum_or_maximum_witness :
  exists mn mx,
    get (minimas (feed (fresh "f")
           [("A", PyFloat.of_decimal false 15 (-1)); ("A", PyFloat.nan);
            ("A", PyFloat.of_decimal true 2 0)]%string)) "A" = Some mn /\
    get (maximas (feed (fresh "f")
           [("A", PyFloat.of_decimal false 15 (-1)); ("A", PyFloat.nan);
            ("A", PyFloat.of_decimal true 2 0)]%string)) "A" = Some mx /\
    mn = PyFloat.of_decimal true 2 0 /\ mx = PyFloat.of_decimal false 15 (-1).
Proof.
  destruct (nan_is_never_minimum_or_maximum "f"
              [("A", PyFloat.of_decimal false 15 (-1)); ("A", PyFloat.nan);
               ("A", PyFloat.of_decimal true 2 0)]%string "A"%string)
    as (mn & mx & Hmin & Hmax & _ & _ & Emin & Emax & _).
  - simpl. now left.
  - exists mn, mx. split; [exact Hmin|]. split; [exact Hmax|].
    split; [rewrite Emin|rewrite Emax]; vm_compute; reflexivity.
Defined.

(** X4: one NaN among the values of a station makes its sum a NaN, whatever
    the other values and wherever it stands, and the mean of the station is
    printed as [nan] in the Report. *)
Theorem one_nan_makes_the_mean_nan (p : string) (rows : list (list string)) (k : string) :
  Z.of_nat (List.length rows) < 2 ^ 53 ->
  In (k, PyFloat.nan) (valid_records rows) ->
  let out := processar (fresh p) (rows_source rows) in
  get (somas (fst (fst out))) k = Some PyFloat.nan /\
  exists report mn mx,
    snd out = Ok report /\
    get (minimas (fst (fst out))) k = Some mn /\
    get (maximas (fst (fst out))) k = Some mx /\
    get report k =
      Some (PyFormat.format_1f mn ++ "/nan/" ++ PyFormat.format_1f mx)%string.
Proof.
  intros Hlen Hin out. subst out. unfold rows_source.
  rewrite processar_result, processar_state by apply same_keys_fresh.
  set (recs := valid_records rows) in *. set (self := feed (fresh p) recs).
  pose proof (entry_fresh p recs k) as H. simpl in H. fold self in H.
  pose proof (In_values_of k PyFloat.nan recs Hin) as Hv.
  destruct (values_of k recs) as [|v0 vs0] eqn:Evs; [destruct Hv|].
  destruct H as (Hc & Hmin & Hmax & Hsum).
  rewrite (fold_add_In_nan (v0 :: vs0) PyFloat.zero Hv) in Hsum.
  split; [exact Hsum|].
  assert (Hnd : NoDup (keys (medicoes self))) by (apply NoDup_medicoes_feed; constructor).
  assert (Hb : Forall (fun kc => 0 <= snd kc < 2 ^ 53) (medicoes self)).
  { apply Forall_forall. intros [k' c] Hkc. apply counts_feed_fresh in Hkc.
    pose proof (valid_records_length rows). fold recs in H. simpl. lia. }
  destruct (gerar_resultados_spec self Hnd Hb) as (report & Hr & _ & Hent & _).
  exists report, (fold_left PyFloat.min (v0 :: vs0) PyFloat.inf),
    (fold_left PyFloat.max (v0 :: vs0) PyFloat.neg_inf).
  split; [exact Hr|]. split; [exact Hmin|]. split; [exact Hmax|].
  assert (Hpos : 0 < Z.of_nat (List.length (v0 :: vs0))) by (simpl List.length; lia).
  destruct (Hent k _ Hc Hpos) as (mean & Hmean & Hget).
  rewrite Hget. unfold lookup_or at 1 2. rewrite Hmin, Hmax.
  assert (Em : mean = PyFloat.nan).
  { assert (Hcb : 0 < Z.of_nat (List.length (v0 :: vs0)) < 2 ^ 53).
    { split; [exact Hpos|]. pose proof (values_of_length k recs) as Hl.
      rewrite Evs in Hl. pose proof (valid_records_length rows). fold recs in H. lia. }
    destruct (of_int_small _ Hcb) as (m & e & E).
    unfold lookup_or in Hmean. rewrite Hsum in Hmean.
    unfold PyFloat.truediv_int in Hmean. rewrite E in Hmean. simpl in Hmean.
    now injection Hmean as <-. }
  rewrite Em. reflexivity.
Qed.

(** The rows [A;2.5] and [A;nan]. *)
Lemma one_nan_makes_the_mean_nan_witness :
  get (somas (fst (fst (processar (fresh "f")
         (rows_source [["A"; "2.5"]; ["A"; "nan"]]%string))))) "A" = Some PyFloat.nan /\
  snd (processar (fresh "f") (rows_source [["A"; "2.5"]; ["A"; "nan"]]%string)) =
    Ok [("A", "2.5/nan/2.5")]%string.
Proof.
  assert (Hlen : Z.of_nat (List.length [["A"; "2.5"]; ["A"; "nan"]]%string) < 2 ^ 53)
    by (simpl; lia).
  assert (Hin : In ("A"%string, PyFloat.nan) (valid_records [["A"; "2.5"]; ["A"; "nan"]]%string))
    by (vm_compute; right; left; reflexivity).
  destruct (one_nan_makes_the_mean_nan "f" [["A"; "2.5"]; ["A"; "nan"]]%string "A" Hlen Hin)
    as (Hsum & _).
  split; [exact Hsum|]. vm_compute. reflexivity.
Defined.

(** X5: two calls of [processar] on one instance, over the rows [rows1]
    and then over the rows [rows2], leave the table that one call over
    [rows1] followed by [rows2] leaves, and the second call returns the
    Report of that one call. *)
Theorem calls_accumulate (p : string) (rows1 rows2 : list (list string)) :
  let first := processar (fresh p) (rows_source rows1) in
  let second := processar (fst (fst first)) (rows_source rows2) in
  let both := processar (fresh p) (rows_source (rows1 ++ rows2)) in
  fst (fst second) = fst (fst both) /\ snd second = snd both /\
  snd (fst second) = INFO_iniciando p :: warnings rows2 ++ [INFO_calculando].
Proof.
  intros first second both. subst first second both.
  rewrite !processar_fresh. cbn [fst snd]. rewrite processar_readable. cbn [fst snd].
  rewrite <- feed_app, <- valid_records_app, path_feed.
  split; [|split; reflexivity].
  apply gerar_resultados_state, same_keys_feed, same_keys_fresh.
Qed.

(** X6: after a call of [processar], the Report can be computed again:
    [_gerar_resultados] returns the Report of the call and leaves the table
    as it is, its lookups in the three [defaultdict]s inserting no key. *)
Theorem report_can_be_computed_again (p : string) (rows : list (list string)) :
  let out := processar (fresh p) (rows_source rows) in
  _gerar_resultados (fst (fst out)) = (fst (fst out), [INFO_calculando], snd out).
Proof.
  intros out. subst out. rewrite processar_fresh. cbn [fst snd].
  set (self := feed (fresh p) (valid_records rows)).
  pose proof (gerar_resultados_state self (same_keys_feed _ _ (same_keys_fresh p))) as H.
  unfold _gerar_resultados in *.
  destruct (gerar_loop self (medicoes self) []) as [self' r]. simpl in H. now subst self'.
Qed.

(** X7: the Report of a run has one entry for each station that has a
    valid record, and no other: every count of the table is 1 at least, so
    that the loop of [_gerar_resultados] skips no station. *)
Theorem every_station_is_reported (p : string) (rows : list (list string)) :
  Z.of_nat (List.length rows) < 2 ^ 53 ->
  let out := processar (fresh p) (rows_source rows) in
  Forall (fun kc => 1 <= snd kc) (medicoes (fst (fst out))) /\
  exists report,
    snd out = Ok report /\
    (forall k, In k (keys report) <-> In k (map fst (valid_records rows))) /\
    List.length report = List.length (medicoes (fst (fst out))) /\
    List.length report = List.length (nodup string_dec (map fst (valid_records rows))).
Proof. exact (fresh_report p rows). Qed.

(** The five rows of the scenario, for three stations. *)
Lemma every_station_is_reported_witness :
  exists report,
    snd (processar (fresh "f")
           (rows_source [["Hamburg"; "12.0"]; ["Bulawayo"; "8.9"]; ["Hamburg"; "14.0"];
                         ["Palembang"; "38.8"]; ["Hamburg"; "10.0"]]%string)) = Ok report /\
    List.length report = 3%nat.
Proof.
  destruct (every_station_is_reported "f"
              [["Hamburg"; "12.0"]; ["Bulawayo"; "8.9"]; ["Hamburg"; "14.0"];
               ["Palembang"; "38.8"]; ["Hamburg"; "10.0"]]%string)
    as (_ & report & Hr & _ & _ & Hn).
  - simpl. lia.
  - exists report. split; [exact Hr|]. rewrite Hn. vm_compute. reflexivity.
Defined.

(** X8: rows read after an entry exists never remove it, never lower its
    count, never raise its minimum and never lower its maximum. *)
Theorem entries_only_widen (p : string) (rows1 rows2 : list (list string)) (k : string) :
  In k (map fst (valid_records rows1)) ->
  let self1 := fst (fst (processar (fresh p) (rows_source rows1))) in
  let self2 := fst (fst (processar self1 (rows_source rows2))) in
  exists c1 mn1 mx1 c2 mn2 mx2,
    get (medicoes self1) k = Some c1 /\ get (minimas self1) k = Some mn1 /\
    get (maximas self1) k = Some mx1 /\
    get (medicoes self2) k = Some c2 /\ get (minimas self2) k = Some mn2 /\
    get (maximas self2) k = Some mx2 /\
    c2 = c1 + Z.of_nat (List.length (values_of k (valid_records rows2))) /\
    PyFloat.lt mn1 mn2 = false /\ PyFloat.lt mx2 mx1 = false.
Proof.
  intros Hin self1 self2.
  assert (E1 : self1 = feed (fresh p) (valid_records rows1)).
  { subst self1. now rewrite processar_fresh. }
  assert (E2 : self2 = feed self1 (valid_records rows2)).
  { subst self2. unfold rows_source. apply processar_state.
    rewrite E1. apply same_keys_feed, same_keys_fresh. }
  pose proof (entry_fresh p (valid_records rows1) k) as H. simpl in H. rewrite <- E1 in H.
  destruct (values_of k (valid_records rows1)) as [|v0 vs0] eqn:Evs.
  { exfalso. now apply (values_of_nil_iff k (valid_records rows1)). }
  destruct H as (Hc & Hmin & Hmax & _).
  set (vs2 := values_of k (valid_records rows2)).
  destruct (fold_min_spec (v0 :: vs0) PyFloat.inf eq_refl) as (Hn1 & _).
  destruct (fold_max_spec (v0 :: vs0) PyFloat.neg_inf eq_refl) as (Hn2 & _).
  set (mn1 := fold_left PyFloat.min (v0 :: vs0) PyFloat.inf) in *.
  set (mx1 := fold_left PyFloat.max (v0 :: vs0) PyFloat.neg_inf) in *.
  exists (Z.of_nat (List.length (v0 :: vs0))), mn1, mx1,
    (Z.of_nat (List.length (v0 :: vs0)) + Z.of_nat (List.length vs2)),
    (fold_left PyFloat.min vs2 mn1), (fold_left PyFloat.max vs2 mx1).
  split; [exact Hc|]. split; [exact Hmin|]. split; [exact Hmax|].
  rewrite E2, get_medicoes_feed, get_minimas_feed, get_maximas_feed. fold vs2.
  rewrite Hc, Hmin, Hmax.
  rewrite (fold_left_Some 0 (fun c _ => c + 1)), !fold_left_Some, fold_count.
  repeat (split; [reflexivity|]).
  destruct (fold_min_spec vs2 mn1 Hn1) as (_ & _ & Hle & _).
  destruct (fold_max_spec vs2 mx1 Hn2) as (_ & _ & Hge & _).
  split; assumption.
Qed.

(** Hamburg at 12.0, then at 14.0 and 10.0. *)
Lemma entries_only_widen_witness :
  exists c2 mn2 mx2,
    get (medicoes (fst (fst (processar
           (fst (fst (processar (fresh "f") (rows_source [["Hamburg"; "12.0"]]%string))))
           (rows_source [["Hamburg"; "14.0"]; ["Hamburg"; "10.0"]]%string))))) "Hamburg"
      = Some c2 /\
    get (minimas (fst (fst (processar
           (fst (fst (processar (fresh "f") (rows_source [["Hamburg"; "12.0"]]%string))))
           (rows_source [["Hamburg"; "14.0"]; ["Hamburg"; "10.0"]]%string))))) "Hamburg"
      = Some mn2 /\
    get (maximas (fst (fst (processar
           (fst (fst (processar (fresh "f") (rows_source [["Hamburg"; "12.0"]]%string))))
           (rows_source [["Hamburg"; "14.0"]; ["Hamburg"; "10.0"]]%string))))) "Hamburg"
      = Some mx2 /\
    c2 = 3 /\
    PyFloat.lt (PyFloat.of_decimal false 120 (-1)) mn2 = false /\
    PyFloat.lt mx2 (PyFloat.of_decimal false 120 (-1)) = false.
Proof.
  destruct (entries_only_widen "f" [["Hamburg"; "12.0"]]%string
              [["Hamburg"; "14.0"]; ["Hamburg"; "10.0"]]%string "Hamburg"%string)
    as (c1 & mn1 & mx1 & c2 & mn2 & mx2 & Hc1 & Hmn1 & Hmx1 & Hc2 & Hmn2 & Hmx2 & Ec & Hmin & Hmax).
  - vm_compute. now left.
  - exists c2, mn2, mx2. split; [exact Hc2|]. split; [exact Hmn2|]. split; [exact Hmx2|].
    vm_compute in Hc1, Hmn1, Hmx1. injection Hc1 as <-. injection Hmn1 as <-.
    injection Hmx1 as <-.
    split; [rewrite Ec; vm_compute; reflexivity|]. split; assumption.
Defined.

(** X9: after a run the four dictionaries of the table have the same
    keys in the same order, the stations of the valid records in the order
    in which they first occur in the file. *)
Theorem stations_in_order_of_first_occurrence (p : string) (rows : list (list string)) :
  let self := fst (fst (processar (fresh p) (rows_source rows))) in
  let stations := first_seen [] (map fst (valid_records rows)) in
  keys (medicoes self) = stations /\ keys (minimas self) = stations /\
  keys (maximas self) = stations /\ keys (somas self) = stations /\
  NoDup stations.
Proof.
  intros self stations. subst self. rewrite processar_fresh. cbn [fst].
  set (self := feed (fresh p) (valid_records rows)).
  assert (E : keys (medicoes self) = stations).
  { subst self. now rewrite keys_medicoes_feed. }
  destruct (same_keys_feed (valid_records rows) (fresh p) (same_keys_fresh p))
    as (Kmin & Kmax & Ksum). fold self in Kmin, Kmax, Ksum.
  rewrite Kmin, Kmax, Ksum, E. repeat split.
  rewrite <- E. apply NoDup_medicoes_feed. constructor.
Qed.

(** X10: [_gerar_resultados] on a table that counts a station for which the
    three [defaultdict]s hold nothing reports the default values,
    [inf/0.0/-inf], and its lookups insert them into the three
    dictionaries; a station whose count is 0 is left out of the Report and
    looked up in no dictionary. *)
Theorem count_without_values (p k : string) (c : Z) :
  0 < c < 2 ^ 53 ->
  _gerar_resultados (mkProcessor p [] [] [] [(k, c)]) =
    (mkProcessor p [(k, PyFloat.inf)] [(k, PyFloat.neg_inf)] [(k, PyFloat.zero)] [(k, c)],
     [INFO_calculando], Ok [(k, "inf/0.0/-inf"%string)]) /\
  _gerar_resultados (mkProcessor p [] [] [] [(k, 0)]) =
    (mkProcessor p [] [] [] [(k, 0)], [INFO_calculando], Ok []).
Proof.
  intros Hc. split; [|reflexivity].
  destruct (of_int_small c Hc) as (m & e & E).
  unfold _gerar_resultados. simpl gerar_loop.
  destruct (Z.eqb_spec c 0) as [->|_]; [lia|].
  unfold PyFloat.truediv_int. rewrite E. reflexivity.
Qed.

Lemma count_without_values_witness :
  _gerar_resultados (mkProcessor "f" [] [] [] [("A"%string, 2)]) =
    (mkProcessor "f" [("A"%string, PyFloat.inf)] [("A"%string, PyFloat.neg_inf)]
       [("A"%string, PyFloat.zero)] [("A"%string, 2)],
     [INFO_calculando], Ok [("A", "inf/0.0/-inf")]%string).
Proof. apply (count_without_values "f" "A" 2). lia. Defined.

(** X11: blanks around the name of a station do not count: the first field
    with blanks added at its ends gives the record of the first field
    without them, and the name of a record, put back as a first field,
    gives the same record. *)
Theorem blanks_around_the_name_do_not_count (w1 s w2 f1 : string) (rest : list string) :
  all_chars isspace w1 = true -> all_chars isspace w2 = true ->
  _parse_row ((w1 ++ s ++ w2)%string :: f1 :: rest) = _parse_row (s :: f1 :: rest) /\
  (forall nome v, _parse_row (s :: f1 :: rest) = Ok (nome, v) ->
                  _parse_row (nome :: f1 :: rest) = Ok (nome, v)).
Proof.
  intros H1 H2. unfold _parse_row. rewrite (strip_blanks w1 s w2 H1 H2).
  split; [reflexivity|].
  intros nome v. destruct (float_of_str f1) as [x|e]; simpl; [|discriminate].
  intros [= <- <-]. now rewrite strip_strip.
Qed.

(** The name [Hamburg] after a tab and before two spaces. *)
Lemma blanks_around_the_name_do_not_count_witness :
  _parse_row [(String (ascii_of_N 9) "Hamburg  "); "12.0"]%string =
  _parse_row ["Hamburg"; "12.0"]%string.
Proof.
  apply (blanks_around_the_name_do_not_count (String (ascii_of_N 9) EmptyString)
           "Hamburg" "  " "12.0" []); reflexivity.
Defined.

(** X12: a measurement written with one digit after the point, from
    -99.9 to 99.9, is read and printed back as it is written: [.1f]
    prints the number [float()] reads as the text itself, and a station
    whose only row it is has the text as its minimum, mean and maximum in
    the Report, [-0.0] apart, whose mean is printed as [0.0]. *)
Theorem one_digit_measurement_prints_back (neg : bool) (n : Z) (p k : string) :
  0 <= n < 1000 ->
  let t := tenths_text neg n in
  (exists x, float_of_str t = Ok x /\ PyFormat.format_1f x = t) /\
  (neg = false \/ 0 < n ->
   snd (processar (fresh p) (rows_source [[k; t]])) =
   Ok [(strip k, (t ++ "/" ++ t ++ "/" ++ t)%string)]) /\
  snd (processar (fresh p) (rows_source [[k; tenths_text true 0]])) =
  Ok [(strip k, "-0.0/0.0/-0.0"%string)].
Proof.
  intros Hn t.
  assert (H : prints_back neg n = true).
  { destruct prints_back_below_1000 as [Hpos Hneg].
    destruct neg; [apply (all_below_spec _ _ Hneg)|apply (all_below_spec _ _ Hpos)];
      rewrite Z2Nat.id; lia. }
  unfold prints_back, printed_back in H. fold t in H.
  destruct (float_of_str t) as [x|] eqn:Ex; [|discriminate].
  destruct (PyFloat.truediv_int (PyFloat.add PyFloat.zero x) 1) as [mean|] eqn:Em;
    [|discriminate].
  apply andb_true_iff in H as [Ha Hb]. apply String.eqb_eq in Ha.
  split; [eauto|]. split.
  - intros Hz. rewrite (single_row_report p k t x mean Ex Em).
    apply orb_true_iff in Hb as [Hb|Hb].
    + apply String.eqb_eq in Hb. now rewrite Hb.
    + exfalso. apply andb_true_iff in Hb as [Hb1 Hb2]. apply Z.eqb_eq in Hb2.
      destruct Hz as [Hz|Hz]; [subst neg; discriminate|lia].
  - rewrite (single_row_report p k (tenths_text true 0) PyFloat.neg_zero PyFloat.zero);
      reflexivity.
Qed.

(** The measurements [12.3] and [-7.0]. *)
Lemma one_digit_measurement_prints_back_witness :
  tenths_text false 123 = "12.3"%string /\ tenths_text true 70 = "-7.0"%string /\
  snd (processar (fresh "f") (rows_source [["Hamburg"; "12.3"]]%string)) =
    Ok [("Hamburg", "12.3/12.3/12.3")]%string /\
  snd (processar (fresh "f") (rows_source [["Hamburg"; "-7.0"]]%string)) =
    Ok [("Hamburg", "-7.0/-7.0/-7.0")]%string.
Proof.
  split; [reflexivity|]. split; [reflexivity|]. split.
  - apply (one_digit_measurement_prints_back false 123 "f" "Hamburg"); [lia|now left].
  - apply (one_digit_measurement_prints_back true 70 "f" "Hamburg"); [lia|right; lia].
Defined.

(** X13: the main block prints the whole Report or nothing.  When the file
    is missing the constructor fails and the failure is logged once; when
    the file cannot be opened, or the reader fails in the middle of it,
    [processar] logs the error and the main block logs it again, and no
    line is printed; when the rows end without an error, one line
    [station: min/mean/max] is printed for every station that has a valid
    record, after the warnings for the rows ignored. *)
Theorem main_prints_the_report_or_nothing (rows : list (list string)) (e : exn) :
  let p := "data/measurements.txt"%string in
  main Missing =
    ([], [MAIN_INFO_iniciando; MAIN_EXCEPTION_falha_critica FileNotFoundError]) /\
  main Inaccessible =
    ([], [MAIN_INFO_iniciando; PROCESSOR (INFO_iniciando p);
          PROCESSOR (ERROR_ao_processar OSError); MAIN_EXCEPTION_falha_critica OSError]) /\
  main (Readable (Csv.mkStream rows (Some e))) =
    ([], MAIN_INFO_iniciando :: PROCESSOR (INFO_iniciando p)
         :: map PROCESSOR (warnings rows)
         ++ [PROCESSOR (ERROR_ao_processar e); MAIN_EXCEPTION_falha_critica e]) /\
  (Z.of_nat (List.length rows) < 2 ^ 53 ->
   exists report,
     snd (processar (fresh p) (rows_source rows)) = Ok report /\
     main (rows_source rows) =
       (map (fun kv => (fst kv ++ ": " ++ snd kv)%string) report,
        MAIN_INFO_iniciando :: PROCESSOR (INFO_iniciando p)
        :: map PROCESSOR (warnings rows)
        ++ [PROCESSOR INFO_calculando; MAIN_INFO_concluido]) /\
     List.length (fst (main (rows_source rows))) =
       List.length (nodup string_dec (map fst (valid_records rows)))).
Proof.
  intros p. split; [reflexivity|]. split; [reflexivity|]. split.
  - unfold main. rewrite run_readable, processar_reader_error. cbn [fst snd fresh path]. cbv beta iota.
    cbn [map app]. rewrite map_PROCESSOR_app, <- app_assoc. reflexivity.
  - intros Hlen. destruct (fresh_report p rows Hlen) as (_ & report & Hr & _ & _ & Hn).
    exists report. split; [exact Hr|].
    assert (E : main (rows_source rows) =
       (map (fun kv => (fst kv ++ ": " ++ snd kv)%string) report,
        MAIN_INFO_iniciando :: PROCESSOR (INFO_iniciando p)
        :: map PROCESSOR (warnings rows)
        ++ [PROCESSOR INFO_calculando; MAIN_INFO_concluido])).
    { unfold main, rows_source. rewrite run_readable. fold (rows_source rows).
      rewrite processar_fresh in *. cbn [fst snd] in *. cbv beta iota. unfold p in *. rewrite Hr.
      cbn [map app]. rewrite map_PROCESSOR_app, <- app_assoc. reflexivity. }
    split; [exact E|]. rewrite E. cbn [fst]. now rewrite length_map.
Qed.

(** X14: the line endings of the file do not matter: a file whose lines
    end with CR LF, or with CR alone, is read as the file with the same
    lines ending with LF, so that the main block prints and logs the same. *)
Theorem line_endings_do_not_matter (lines : list string) :
  Forall one_line lines ->
  file_lines (join_lines nl lines) = map (fun l => (l ++ nl)%string) lines /\
  file_source (join_lines crlf lines) = file_source (join_lines nl lines) /\
  file_source (join_lines cr lines) = file_source (join_lines nl lines) /\
  main (file_source (join_lines crlf lines)) = main (file_source (join_lines nl lines)) /\
  main (file_source (join_lines cr lines)) = main (file_source (join_lines nl lines)).
Proof.
  intros H. destruct (file_lines_join lines H) as (E1 & E2 & E3).
  unfold file_source. rewrite E1, E2, E3. repeat split.
Qed.

(** The scenario with CR LF at the end of its lines. *)
Lemma line_endings_do_not_matter_witness :
  main (file_source (join_lines crlf ["Hamburg;12.0"; "Bulawayo;8.9"; "Hamburg;14.0"]%string)) =
  main (file_source (join_lines nl ["Hamburg;12.0"; "Bulawayo;8.9"; "Hamburg;14.0"]%string)) /\
  fst (main (file_source
              (join_lines crlf ["Hamburg;12.0"; "Bulawayo;8.9"; "Hamburg;14.0"]%string))) =
  ["Bulawayo: 8.9/8.9/8.9"; "Hamburg: 12.0/13.0/14.0"]%string.
Proof.
  split; [|vm_compute; reflexivity].
  destruct (line_endings_do_not_matter ["Hamburg;12.0"; "Bulawayo;8.9"; "Hamburg;14.0"]%string)
    as (_ & _ & _ & E & _); [|exact E].
  repeat constructor.
Defined.

(** X15: an empty line of the file is a row without field, which is
    ignored with a warning ([IndexError]); a file of [n] empty lines, the
    empty file among them, gives [n] warnings and the empty Report, and
    the main block prints nothing and finishes without a failure. *)
Theorem empty_lines_are_ignored (n : nat) (p : string) :
  run (PathStr p) (file_source (join_lines nl (repeat EmptyString n))) =
    (INFO_iniciando p :: repeat (WARNING_linha_ignorada [] IndexError) n ++ [INFO_calculando],
     Ok []) /\
  fst (main (file_source (join_lines nl (repeat EmptyString n)))) = [] /\
  last (snd (main (file_source (join_lines nl (repeat EmptyString n))))) MAIN_INFO_iniciando
  = MAIN_INFO_concluido.
Proof.
  assert (Hplain : Forall plain_line (repeat EmptyString n)).
  { apply Forall_forall. intros l Hl. apply repeat_spec in Hl. subst l.
    split; [reflexivity|]. simpl. unfold field_limit. lia. }
  rewrite (file_source_plain _ Hplain), map_repeat. simpl line_fields.
  destruct (warnings_blank n) as [Hw Hv].
  assert (Hrun : forall q, processar (fresh q) (rows_source (repeat [] n)) =
            (fresh q, INFO_iniciando q :: repeat (WARNING_linha_ignorada [] IndexError) n
                      ++ [INFO_calculando], Ok [])).
  { intros q. rewrite processar_fresh, Hw, Hv. reflexivity. }
  split; [|split].
  - unfold run. simpl __init__. change (mkProcessor p [] [] [] []) with (fresh p).
    cbv beta iota. now rewrite Hrun.
  - unfold main, rows_source. rewrite run_readable. fold (rows_source (repeat [] n)).
    rewrite Hrun. reflexivity.
  - unfold main, rows_source. rewrite run_readable. fold (rows_source (repeat [] n)).
    rewrite Hrun. cbn [fst snd]. cbv beta iota.
    match goal with
    | |- last (?a :: ?l ++ [?z]) _ = _ => change (a :: l ++ [z]) with ((a :: l) ++ [z])
    end.
    apply last_last.
Qed.

(** X16: a field of more than 131072 characters is no row to ignore: the
    reader raises [csv.Error] at the line that holds it, so that
    [processar] raises without a Report, the rows of the lines before it
    being in the table, and the main block prints nothing. *)
Theorem too_long_a_field_is_fatal (lines : list string) (long tail : string)
    (rest : list string) :
  Forall plain_line lines ->
  all_chars field_char long = true ->
  field_limit < Z.of_nat (String.length long) ->
  let rows := reader (map (fun l => (l ++ nl)%string) lines ++ (long ++ tail)%string :: rest) in
  rows = mkStream (map line_fields lines) (Some csv_Error) /\
  (forall self,
     snd (processar self (Readable rows)) = Raise csv_Error /\
     fst (fst (processar self (Readable rows))) =
       feed self (valid_records (map line_fields lines))) /\
  fst (main (Readable rows)) = [].
Proof.
  intros Hall Hs Hlt rows.
  assert (E : rows = mkStream (map line_fields lines) (Some csv_Error)).
  { subst rows. rewrite (reader_plain_prefix lines _ Hall).
    unfold reader at 1 2. simpl reader_from.
    rewrite (long_line_overflows long tail Hs Hlt). simpl. now rewrite app_nil_r. }
  split; [exact E|]. rewrite E. split.
  - intros self. now rewrite processar_reader_error.
  - unfold main. now rewrite run_readable, processar_reader_error.
Qed.

(** A line whose first field has 131073 characters, after a good line. *)
Lemma too_long_a_field_is_fatal_witness :
  reader [("Hamburg;12.0" ++ nl)%string;
          (replicate (Z.to_nat 131073) "x" ++ (";1.0" ++ nl))%string] =
  mkStream [["Hamburg"; "12.0"]%string] (Some csv_Error).
Proof.
  assert (H1 : Forall plain_line ["Hamburg;12.0"%string]).
  { repeat constructor. simpl. unfold field_limit. lia. }
  assert (H2 : all_chars field_char (replicate (Z.to_nat 131073) "x") = true)
    by (vm_compute; reflexivity).
  assert (H3 : field_limit < Z.of_nat (String.length (replicate (Z.to_nat 131073) "x")))
    by (vm_compute; reflexivity).
  destruct (too_long_a_field_is_fatal ["Hamburg;12.0"%string]
              (replicate (Z.to_nat 131073) "x") (";1.0" ++ nl)%string [] H1 H2 H3)
    as (E & _).
  exact E.
Defined.

(** X17: a first field in double quotes is taken as it stands: with a
    name that holds no double quote and no line break, semicolons or not,
    the line ["name";rest] is the row of the name followed by the pieces of
    [rest] between its semicolons, and the station of the row is the name
    without the blanks at its ends. *)
Theorem quoted_name_may_hold_semicolons (name rest : string) :
  all_chars quoted_char name = true ->
  Z.of_nat (String.length name) <= field_limit ->
  plain_line rest ->
  let line := (String quotechar name ++ String quotechar (String delimiter rest))%string in
  reader [(line ++ nl)%string] = mkStream [name :: split_on ";" rest] None /\
  (forall value more, split_on ";" rest = value :: more ->
     _parse_row (name :: split_on ";" rest) =
     (temperatura <- float_of_str value ;; Ok (strip name, temperatura))).
Proof.
  intros Hname Hlen Hrest line. split.
  - destruct (parse_quoted_line name rest Hname Hlen Hrest) as (self' & E & S & F).
    unfold reader. subst line. cbn [reader_from]. rewrite E, S. simpl. now rewrite F.
  - intros value more E. rewrite E. reflexivity.
Qed.

(** The line ["Sao Paulo; SP";21.5]. *)
Lemma quoted_name_may_hold_semicolons_witness :
  reader [((String quotechar "Sao Paulo; SP" ++ String quotechar ";21.5") ++ nl)%string] =
  mkStream [["Sao Paulo; SP"; "21.5"]%string] None.
Proof.
  destruct (quoted_name_may_hold_semicolons "Sao Paulo; SP" "21.5") as [E _].
  - reflexivity.
  - simpl. unfold field_limit. lia.
  - split; [reflexivity|]. simpl. unfold field_limit. lia.
  - exact E.
Defined.
